(** * Hebrew calendar engine of the synagogue auction platform

    A shallow embedding of [packages/hebrew-calendar]:
    - [utils/date-conversion.ts]: Hebrew numerals, the Gregorian/Hebrew
      conversion glue around the [HDate] class, date validation;
    - [utils/gematria.ts]: the five gematria methods;
    - [services/HebrewCalendarService.ts]: the memoising facade, the
      auction restriction classifier and the permission check.

    Conventions.  A JavaScript string is the list of its UTF-16 code
    units.  A [number] holding a day, month, year or count is a [Z].  A
    thrown exception is the [Throw] branch of [result].  The facade's
    mutable [cache] member is threaded explicitly through the service
    methods. *)

From Stdlib Require Import ZArith Lia List Bool String Ascii DecimalString.
From Stdlib Require DecimalPos.
From Stdlib Require Import Sorted Permutation.
From stdpp Require Import gmap.
Import ListNotations.
Local Open Scope Z_scope.

(** ** JavaScript strings *)

Definition jsstring : Type := list Z.

(** An ASCII literal as code units. *)
Definition js (s : string) : jsstring :=
  List.map (fun a => Z.of_nat (nat_of_ascii a)) (list_ascii_of_string s).

(** [String(n)] for an integer [n]. *)
Definition js_of_Z (n : Z) : jsstring :=
  js (NilZero.string_of_int (Z.to_int n)).

(** [s.includes(c)] for a one-character needle. *)
Definition includes (s : jsstring) (c : Z) : bool :=
  existsb (Z.eqb c) s.

(** [a <= b] on strings: code unit by code unit, a proper prefix first. *)
Fixpoint js_le (a b : jsstring) : bool :=
  match a, b with
  | [], _ => true
  | _ :: _, [] => false
  | x :: a', y :: b' =>
      if x <? y then true else if y <? x then false else js_le a' b'
  end.

(** [a >= b] on strings. *)
Definition js_ge (a b : jsstring) : bool := js_le b a.

(** [s.slice(0, -1)]. *)
Definition slice_0_m1 (s : jsstring) : jsstring := removelast s.

(** The value JavaScript appends for [undefined]. *)
Definition undefined_str : jsstring := js "undefined".

(** [table[i]] inside a string concatenation: an index outside the table
    yields [undefined]. *)
Definition at_index (table : list jsstring) (i : Z) : jsstring :=
  if i <? 0 then undefined_str else nth (Z.to_nat i) table undefined_str.

(** The Hebrew block: the 27 letter code points and the two marks. *)
Definition alef := 0x05D0.
Definition bet := 0x05D1.
Definition gimel := 0x05D2.
Definition dalet := 0x05D3.
Definition he := 0x05D4.
Definition vav := 0x05D5.
Definition zayin := 0x05D6.
Definition chet := 0x05D7.
Definition tet := 0x05D8.
Definition yod := 0x05D9.
Definition final_kaf := 0x05DA.
Definition kaf := 0x05DB.
Definition lamed := 0x05DC.
Definition final_mem := 0x05DD.
Definition mem := 0x05DE.
Definition final_nun := 0x05DF.
Definition nun := 0x05E0.
Definition samekh := 0x05E1.
Definition ayin := 0x05E2.
Definition final_pe := 0x05E3.
Definition pe := 0x05E4.
Definition final_tsadi := 0x05E5.
Definition tsadi := 0x05E6.
Definition qof := 0x05E7.
Definition resh := 0x05E8.
Definition shin := 0x05E9.
Definition tav := 0x05EA.
Definition geresh := 0x05F3.
Definition gershayim := 0x05F4.
Definition space := 0x0020.
Definition colon := 0x003A.

(** ** Errors ([types/index.ts]) *)

Inductive ErrorCode :=
  | INVALID_DATE | INVALID_LOCATION | API_ERROR
  | CALCULATION_ERROR | CONFIGURATION_ERROR.

(** The message templates of the package; [LibraryMessage] stands for the
    message of an exception raised inside a dependency. *)
Inductive Message :=
  | NumberOutOfRange (num : Z)
  | InvalidHebrewMonth (month : Z)
  | FailedToConvertDate (inner : Message)
  | NoHebrewLettersFound
  | UnknownHebrewLetter (letter : Z)
  | GematriaCalculationFailed (inner : Message)
  | FailedToCalculateZmanim (inner : Message)
  | FailedToConvertGregorian
  | FailedToConvertHebrew
  | LibraryMessage (tag : Z).

(** A thrown value: [HebrewCalendarError(message, code)], or an error of a
    dependency, which carries no code.  [ErrorCode.CONVERSION_ERROR], used
    by [getEnhancedHebrewDate], is not a member of the enum, so that error
    carries no code either. *)
Record Exn := { exn_message : Message; exn_code : option ErrorCode }.

Definition HebrewCalendarError (m : Message) (c : ErrorCode) : Exn :=
  {| exn_message := m; exn_code := Some c |}.

Inductive result (A : Type) :=
  | Ok (a : A)
  | Throw (e : Exn).
Arguments Ok {A} a.
Arguments Throw {A} e.

Definition rbind {A B} (r : result A) (k : A -> result B) : result B :=
  match r with Ok a => k a | Throw e => Throw e end.

Notation "'try!' x := r 'in' k" := (rbind r (fun x => k))
  (at level 10, x name, r at level 100, k at level 200).

Definition is_ok {A} (r : result A) : bool :=
  match r with Ok _ => true | Throw _ => false end.

(** ** Hebrew numerals ([date-conversion.ts]) *)

Definition ones : list jsstring :=
  [ []; [alef; geresh]; [bet; geresh]; [gimel; geresh]; [dalet; geresh];
    [he; geresh]; [vav; geresh]; [zayin; geresh]; [chet; geresh];
    [tet; geresh] ].

Definition teens : list jsstring :=
  [ [yod; geresh]; [yod; gershayim; alef]; [yod; gershayim; bet];
    [yod; gershayim; gimel]; [yod; gershayim; dalet];
    [tet; gershayim; vav]; [tet; gershayim; zayin];
    [yod; gershayim; zayin]; [yod; gershayim; chet];
    [yod; gershayim; tet] ].

Definition tens : list jsstring :=
  [ []; []; [kaf; geresh]; [lamed; geresh]; [mem; geresh]; [nun; geresh];
    [samekh; geresh]; [ayin; geresh]; [pe; geresh]; [tsadi; geresh] ].

Definition hundreds : list jsstring :=
  [ []; [qof; geresh]; [resh; geresh]; [shin; geresh]; [tav; geresh];
    [tav; qof; geresh]; [tav; resh; geresh]; [tav; shin; geresh];
    [tav; tav; geresh]; [tav; tav; qof; geresh] ].

(** [Math.floor(a / b)] and [a % b] on integers. *)
Definition floor_div (a b : Z) : Z := a / b.
Definition js_rem (a b : Z) : Z := Z.rem a b.

Definition toHebrewNumeral (num : Z) : result jsstring :=
  if num =? 15 then Ok [tet; gershayim; vav]
  else if num =? 16 then Ok [tet; gershayim; zayin]
  else if (num <? 1) || (num >? 999) then
    Throw (HebrewCalendarError (NumberOutOfRange num) CALCULATION_ERROR)
  else
    let result0 : jsstring := [] in
    let '(result1, num1) :=
      if num >=? 100
      then (result0 ++ at_index hundreds (floor_div num 100), js_rem num 100)
      else (result0, num) in
    if num1 >=? 20 then
      let result2 := result1 ++ at_index tens (floor_div num1 10) in
      let num2 := js_rem num1 10 in
      if num2 >? 0
      then Ok (slice_0_m1 result2 ++ [gershayim] ++ at_index ones num2)
      else Ok result2
    else if num1 >=? 10 then Ok (result1 ++ at_index teens (num1 - 10))
    else if num1 >? 0 then Ok (result1 ++ at_index ones num1)
    else Ok result1.

Definition formatHebrewYear (year : Z) : result jsstring :=
  let displayYear := js_rem year 1000 in
  toHebrewNumeral displayYear.

(** ** Gematria ([gematria.ts]) *)

Inductive GematriaMethod := STANDARD | SMALL | LARGE | ORDINAL | REDUCED.

(** A [number] that may be [NaN]; only the ordinal method can produce it,
    and only on a character that is not a Hebrew letter. *)
Definition jsnumber : Type := option Z.
Definition NaN : jsnumber := None.

Record GematriaMultiplier := {
  nameEnglish : jsstring;
  nameHebrew : jsstring;
  value : Z;
  significance : jsstring;
  commonUse : bool
}.

Record GematriaCalculation := {
  originalText : jsstring;
  gc_value : jsnumber;
  method : GematriaMethod;
  gc_significance : jsstring;
  commonMultipliers : list GematriaMultiplier
}.

(** [GEMATRIA_VALUES[letter]]; [None] is [undefined]. *)
Definition GEMATRIA_VALUES (letter : Z) : option Z :=
  if letter =? alef then Some 1 else if letter =? bet then Some 2
  else if letter =? gimel then Some 3 else if letter =? dalet then Some 4
  else if letter =? he then Some 5 else if letter =? vav then Some 6
  else if letter =? zayin then Some 7 else if letter =? chet then Some 8
  else if letter =? tet then Some 9
  else if letter =? yod then Some 10 else if letter =? kaf then Some 20
  else if letter =? lamed then Some 30 else if letter =? mem then Some 40
  else if letter =? nun then Some 50 else if letter =? samekh then Some 60
  else if letter =? ayin then Some 70 else if letter =? pe then Some 80
  else if letter =? tsadi then Some 90
  else if letter =? qof then Some 100 else if letter =? resh then Some 200
  else if letter =? shin then Some 300 else if letter =? tav then Some 400
  else if letter =? final_kaf then Some 20
  else if letter =? final_mem then Some 40
  else if letter =? final_nun then Some 50
  else if letter =? final_pe then Some 80
  else if letter =? final_tsadi then Some 90
  else None.

Definition LARGE_GEMATRIA_FINALS (letter : Z) : option Z :=
  if letter =? final_kaf then Some 500
  else if letter =? final_mem then Some 600
  else if letter =? final_nun then Some 700
  else if letter =? final_pe then Some 800
  else if letter =? final_tsadi then Some 900
  else None.

Definition COMMON_MULTIPLIERS : list GematriaMultiplier :=
  [ {| nameEnglish := js "Chai"; nameHebrew := [chet; yod]; value := 18;
       significance := js "Life - most popular multiplier in Jewish giving";
       commonUse := true |};
    {| nameEnglish := js "Double Chai";
       nameHebrew := [chet; yod; space; kaf; pe; vav; lamed]; value := 36;
       significance := js "Double life - double blessing";
       commonUse := true |};
    {| nameEnglish := js "Shalom";
       nameHebrew := [shin; lamed; vav; final_mem]; value := 376;
       significance := js "Peace - wholeness and completion";
       commonUse := false |};
    {| nameEnglish := js "Tzedakah";
       nameHebrew := [tsadi; dalet; qof; he]; value := 199;
       significance := js "Charity/righteousness - core Jewish value";
       commonUse := true |};
    {| nameEnglish := js "Mitzvah";
       nameHebrew := [mem; tsadi; vav; he]; value := 141;
       significance := js "Commandment - good deed";
       commonUse := true |};
    {| nameEnglish := js "Yeshuah";
       nameHebrew := [yod; shin; vav; ayin; he]; value := 391;
       significance := js "Salvation - divine rescue";
       commonUse := false |};
    {| nameEnglish := js "Bracha";
       nameHebrew := [bet; resh; kaf; he]; value := 227;
       significance := js "Blessing - divine favor";
       commonUse := true |};
    {| nameEnglish := js "Kedushah";
       nameHebrew := [qof; dalet; vav; shin; he]; value := 415;
       significance := js "Holiness - sanctity";
       commonUse := false |};
    {| nameEnglish := js "Ahavah";
       nameHebrew := [alef; he; bet; he]; value := 13;
       significance := js "Love - divine and human connection";
       commonUse := true |};
    {| nameEnglish := js "Emunah";
       nameHebrew := [alef; mem; vav; nun; he]; value := 102;
       significance := js "Faith - trust in divine providence";
       commonUse := true |} ].

(** The two [replace] passes of [calculateGematria]: the first deletes the
    cantillation, vowel and punctuation range, the second everything that
    is not one of the code points U+05D0..U+05EA. *)
Definition isNikudOrPunctuation (c : Z) : bool :=
  ((0x0590 <=? c) && (c <=? 0x05BD)) || ((0x05BF <=? c) && (c <=? 0x05C7))
  || (c =? 0x05F3) || (c =? 0x05F4).

Definition isHebrewLetter (c : Z) : bool := (0x05D0 <=? c) && (c <=? 0x05EA).

Definition cleanText (text : jsstring) : jsstring :=
  List.filter isHebrewLetter
    (List.filter (fun c => negb (isNikudOrPunctuation c)) text).

(** [letters.reduce(f, 0)] where [f] may throw. *)
Fixpoint reduce_throwing (f : Z -> Z -> Z -> result Z)
    (letters : list Z) (index : Z) (sum : Z) : result Z :=
  match letters with
  | [] => Ok sum
  | letter :: rest =>
      try! sum' := f sum letter index in
      reduce_throwing f rest (index + 1) sum'
  end.

Definition unknownLetter (letter : Z) : Exn :=
  HebrewCalendarError (UnknownHebrewLetter letter) CALCULATION_ERROR.

Definition calculateStandardGematria (letters : list Z) : result Z :=
  reduce_throwing (fun sum letter index =>
    match GEMATRIA_VALUES letter with
    | None => Throw (unknownLetter letter)
    | Some v => Ok (sum + v)
    end) letters 0 0.

Definition calculateLargeGematria (letters : list Z) : result Z :=
  reduce_throwing (fun sum letter index =>
    let isFinalLetter := LARGE_GEMATRIA_FINALS letter in
    let isAtEnd := index =? Z.of_nat (List.length letters) - 1 in
    match isFinalLetter with
    | Some big => if isAtEnd then Ok (sum + big) else
        match GEMATRIA_VALUES letter with
        | None => Throw (unknownLetter letter)
        | Some v => Ok (sum + v)
        end
    | None =>
        match GEMATRIA_VALUES letter with
        | None => Throw (unknownLetter letter)
        | Some v => Ok (sum + v)
        end
    end) letters 0 0.

(** One round of [num.toString().split('').reduce(...)]: the digit sum. *)
Definition digitSum (num : Z) : Z :=
  List.fold_left (fun sum digit => sum + (digit - 48)) (js_of_Z num) 0.

(** [while (num > 9) num = digitSum(num)]; every round strictly decreases
    [num], so [num] rounds are enough. *)
Fixpoint reduceLoop (fuel : nat) (num : Z) : Z :=
  match fuel with
  | O => num
  | S fuel' => if num >? 9 then reduceLoop fuel' (digitSum num) else num
  end.

Definition reduceToSingleDigit (num : Z) : Z := reduceLoop (Z.to_nat num) num.

Definition calculateSmallGematria (letters : list Z) : result Z :=
  reduce_throwing (fun sum letter index =>
    match GEMATRIA_VALUES letter with
    | None => Throw (unknownLetter letter)
    | Some v =>
        let reduced := if v >? 9 then reduceToSingleDigit v else v in
        Ok (sum + reduced)
    end) letters 0 0.

Definition hebrewAlphabet : jsstring :=
  [ alef; bet; gimel; dalet; he; vav; zayin; chet; tet; yod; kaf; lamed;
    mem; nun; samekh; ayin; pe; tsadi; qof; resh; shin; tav ].

(** [s.indexOf(c)], [-1] when absent. *)
Fixpoint indexOf_from (s : jsstring) (c : Z) (i : Z) : Z :=
  match s with
  | [] => -1
  | x :: s' => if x =? c then i else indexOf_from s' c (i + 1)
  end.
Definition indexOf (s : jsstring) (c : Z) : Z := indexOf_from s c 0.

(** [finalMap[letter]] of the ordinal method. *)
Definition finalMap (letter : Z) : option Z :=
  if letter =? final_kaf then Some (indexOf hebrewAlphabet kaf)
  else if letter =? final_mem then Some (indexOf hebrewAlphabet mem)
  else if letter =? final_nun then Some (indexOf hebrewAlphabet nun)
  else if letter =? final_pe then Some (indexOf hebrewAlphabet pe)
  else if letter =? final_tsadi then Some (indexOf hebrewAlphabet tsadi)
  else None.

(** The ordinal method never reaches its [throw]: a letter missing from
    [finalMap] gives [undefined], which is not [-1], and [undefined + 1]
    is [NaN]. *)
Fixpoint calculateOrdinalFrom (letters : list Z) (sum : jsnumber) : jsnumber :=
  match letters with
  | [] => sum
  | letter :: rest =>
      let position := indexOf hebrewAlphabet letter in
      let sum' :=
        if position =? -1 then
          match finalMap letter, sum with
          | Some finalPosition, Some s => Some (s + (finalPosition + 1))
          | _, _ => NaN
          end
        else option_map (fun s => s + (position + 1)) sum in
      calculateOrdinalFrom rest sum'
  end.
Definition calculateOrdinalGematria (letters : list Z) : jsnumber :=
  calculateOrdinalFrom letters (Some 0).

Definition calculateReducedGematria (letters : list Z) : result Z :=
  try! standardValue := calculateStandardGematria letters in
  Ok (reduceToSingleDigit standardValue).

Definition significanceMap (v : Z) : option jsstring :=
  if v =? 1 then Some (js "Unity, God's oneness (Echad)")
  else if v =? 7 then Some (js "Completion, perfection (Shabbat)")
  else if v =? 8 then Some (js "Renewal, circumcision (Brit Milah)")
  else if v =? 10 then Some (js "Completion of digits, minyan")
  else if v =? 13 then Some (js "Love (Ahavah), unity with God (Echad)")
  else if v =? 18 then Some (js "Life (Chai) - most blessed number")
  else if v =? 26 then Some (js "God's name (YHVH)")
  else if v =? 36 then Some (js "Double Chai, double life")
  else if v =? 40 then Some (js "Transformation, testing period")
  else if v =? 50 then Some (js "Jubilee, freedom")
  else if v =? 72 then Some (js "Mystical name of God")
  else if v =? 100 then Some (js "Completeness, perfection")
  else if v =? 120 then Some (js "Full life span (Moses' age)")
  else if v =? 180 then Some (js "Ten times Chai")
  else if v =? 248 then Some (js "Positive commandments")
  else if v =? 365 then Some (js "Negative commandments")
  else if v =? 613 then Some (js "Total commandments (Taryag Mitzvot)")
  else None.

Definition getGematriaSignificance (v : jsnumber) : jsstring :=
  match v with
  | Some n =>
      match significanceMap n with
      | Some s => s
      | None => js "Numerical value: " ++ js_of_Z n
      end
  | None => js "Numerical value: NaN"
  end.

(** The body of the [try] block of [calculateGematria]. *)
Definition calculateGematria_try (text : jsstring) (m : GematriaMethod)
  : result GematriaCalculation :=
  let clean := cleanText text in
  match clean with
  | [] => Throw (HebrewCalendarError NoHebrewLettersFound CALCULATION_ERROR)
  | _ :: _ =>
      let letters := clean in
      try! v :=
        match m with
        | STANDARD => try! n := calculateStandardGematria letters in Ok (Some n)
        | LARGE => try! n := calculateLargeGematria letters in Ok (Some n)
        | SMALL => try! n := calculateSmallGematria letters in Ok (Some n)
        | ORDINAL => Ok (calculateOrdinalGematria letters)
        | REDUCED => try! n := calculateReducedGematria letters in Ok (Some n)
        end in
      let matchingMultipliers :=
        List.filter (fun mu => match v with
                               | Some n => value mu =? n
                               | None => false
                               end) COMMON_MULTIPLIERS in
      Ok {| originalText := text; gc_value := v; method := m;
            gc_significance := getGematriaSignificance v;
            commonMultipliers := matchingMultipliers |}
  end.

(** [calculateGematria]: whatever the [try] block throws is rethrown as
    [Gematria calculation failed: <message>] with [CALCULATION_ERROR]. *)
Definition calculateGematria (text : jsstring) (m : GematriaMethod)
  : result GematriaCalculation :=
  match calculateGematria_try text m with
  | Ok r => Ok r
  | Throw error =>
      Throw (HebrewCalendarError
               (GematriaCalculationFailed (exn_message error))
               CALCULATION_ERROR)
  end.

(** ** Dates

    A [Date] is its time value, the milliseconds since 1970-01-01T00:00.
    The process runs in a zone without offset, so local fields are read
    straight off the time value; [localDay] is the day number counted
    from 0001-01-01 = 1, the count the [HDate] class uses as well. *)

Definition Date : Type := Z.

Definition msPerDay : Z := 86400000.
Definition localDay (d : Date) : Z := 719163 + d / msPerDay.
Definition midnightOf (day : Z) : Date := (day - 719163) * msPerDay.

(** [date.getDay()]: 0 is Sunday, 6 is Saturday. *)
Definition getDay (d : Date) : Z := localDay d mod 7.
Definition getHours (d : Date) : Z := (d mod msPerDay) / 3600000.
Definition getMinutes (d : Date) : Z := (d mod 3600000) / 60000.

Definition pad2 (n : Z) : jsstring := [48 + n / 10; 48 + n mod 10].

(** [date.toTimeString().slice(0, 5)], the text HH:MM. *)
Definition timeHHMM (d : Date) : jsstring :=
  pad2 (getHours d) ++ [colon] ++ pad2 (getMinutes d).

(** ** Records of [types/index.ts] *)

Record HebrewDate := {
  hebrewDateString : jsstring;
  hebrewYear : Z;
  hebrewMonth : jsstring;
  hebrewMonthName : jsstring;
  hebrewDay : Z;
  gregorianDate : Date
}.

(** [EnhancedHebrewDate extends HebrewDate]. *)
Record EnhancedHebrewDate := {
  base : HebrewDate;
  isShabbat : bool;
  isYomTov : bool;
  isRoshChodesh : bool;
  isCholedMoed : bool;
  isFastDay : bool;
  dayOfWeek : Z;
  dayOfWeekHebrew : jsstring;
  parsha : option jsstring;
  parshaHebrew : option jsstring
}.

Record ConversionResult := {
  success : bool;
  cr_hebrewDate : option HebrewDate;
  cr_gregorianDate : option Date;
  cr_error : option Message;
  cr_warnings : option (list jsstring)
}.

(** Latitude and longitude are only compared and passed on, never
    computed with here; they are held as exact fixed-point numbers. *)
Record Location := {
  loc_name : jsstring;
  loc_nameHebrew : jsstring;
  latitude : Z;
  longitude : Z;
  loc_timezone : jsstring;
  elevation : option Z;
  country : jsstring;
  region : option jsstring
}.

Record Zmanim := {
  z_location : jsstring;
  z_timezone : jsstring;
  z_date : Date;
  alotHaShachar : Date;
  misheyakir : Date;
  sunrise : Date;
  sofZmanShma : Date;
  sofZmanTfilla : Date;
  chatzot : Date;
  minchaGedola : Date;
  minchaKetana : Date;
  plagHaMincha : Date;
  sunset : Date;
  tzait : Date;
  tzait72 : Date;
  chatzotLayla : Date
}.

Record TimeRestriction := {
  startTime : jsstring;
  endTime : jsstring;
  description : jsstring;
  descriptionHebrew : jsstring
}.

Record AuctionRestrictions := {
  noAuctions : bool;
  restrictedHours : list TimeRestriction;
  specialConsiderations : jsstring;
  specialConsiderationsHebrew : jsstring;
  overrideAllowed : bool;
  emergencyOnly : bool
}.

Record HebrewCalendarConfig := {
  defaultLocation : Location;
  cacheEnabled : bool;
  cacheTTL : Z
}.

(** ** The calendar dependency

    [HDate], [HebrewCalendar] and [Zmanim] come from the hebcal packages,
    which are not part of this repository.  The code below is written
    against this interface; every call that can raise returns a
    [result]. *)

(** What the thirteen accessors of a hebcal [Zmanim] object return. *)
Record HebcalZmanim := {
  hz_alot : Date;
  hz_misheyakir : Date;
  hz_sunrise : Date;
  hz_sofZmanShma : Date;
  hz_sofZmanTfilla : Date;
  hz_chatzot : Date;
  hz_minchaGedola : Date;
  hz_minchaKetana : Date;
  hz_plagHaMincha : Date;
  hz_sunset : Date;
  hz_tzait : Date;
  hz_tzait72 : Date;
  hz_chatzotLayla : Date
}.

Record Hebcal := {
  hdate : Type;
  (** [new HDate(date)] *)
  HDate_ofDate : Date -> result hdate;
  (** [new HDate(day, month, year)] *)
  HDate_ofHebrew : Z -> Z -> Z -> result hdate;
  getFullYear : hdate -> Z;
  getMonth : hdate -> Z;
  getDate : hdate -> Z;
  (** [hDate.greg()] *)
  greg : hdate -> result Date;
  (** [HebrewCalendar.isLeapYear(year)] *)
  HebrewCalendar_isLeapYear : Z -> result bool;
  (** [HebrewCalendar.daysInMonth(month, year)] *)
  HebrewCalendar_daysInMonth : Z -> Z -> result Z;
  (** [new HebcalLocation(...)], [new HebcalZmanim(date, location)] and
      the accessor calls *)
  HebcalZmanim_of : Date -> Location -> result HebcalZmanim
}.

(** ** Date conversion ([date-conversion.ts]) *)

Record MonthInfo := { mi_name : jsstring; mi_nameEnglish : jsstring }.

(** [HEBREW_MONTHS[month]]; [None] is [undefined]. *)
Definition HEBREW_MONTHS (month : Z) : option MonthInfo :=
  if month =? 1 then
    Some {| mi_nameEnglish := js "Tishrei"; mi_name :=
        [0x05EA; 0x05B4; 0x05BC; 0x05E9; 0x05B0; 0x05C1; 0x05E8; 0x05B5;
        0x05D9] |}
  else if month =? 2 then
    Some {| mi_nameEnglish := js "Marcheshvan"; mi_name :=
        [0x05DE; 0x05B7; 0x05E8; 0x05B0; 0x05D7; 0x05B6; 0x05E9; 0x05B0;
        0x05C1; 0x05D5; 0x05B8; 0x05DF] |}
  else if month =? 3 then
    Some {| mi_nameEnglish := js "Kislev"; mi_name :=
        [0x05DB; 0x05B4; 0x05BC; 0x05E1; 0x05B0; 0x05DC; 0x05B5; 0x05D5] |}
  else if month =? 4 then
    Some {| mi_nameEnglish := js "Tevet"; mi_name :=
        [0x05D8; 0x05B5; 0x05D1; 0x05B5; 0x05EA] |}
  else if month =? 5 then
    Some {| mi_nameEnglish := js "Shevat"; mi_name :=
        [0x05E9; 0x05B0; 0x05C1; 0x05D1; 0x05B8; 0x05D8] |}
  else if month =? 6 then
    Some {| mi_nameEnglish := js "Adar"; mi_name :=
        [0x05D0; 0x05B2; 0x05D3; 0x05B8; 0x05E8] |}
  else if month =? 7 then
    Some {| mi_nameEnglish := js "Nissan"; mi_name :=
        [0x05E0; 0x05B4; 0x05D9; 0x05E1; 0x05B8; 0x05DF] |}
  else if month =? 8 then
    Some {| mi_nameEnglish := js "Iyar"; mi_name :=
        [0x05D0; 0x05B4; 0x05D9; 0x05B8; 0x05BC; 0x05E8] |}
  else if month =? 9 then
    Some {| mi_nameEnglish := js "Sivan"; mi_name :=
        [0x05E1; 0x05B4; 0x05D9; 0x05D5; 0x05B8; 0x05DF] |}
  else if month =? 10 then
    Some {| mi_nameEnglish := js "Tammuz"; mi_name :=
        [0x05EA; 0x05B7; 0x05BC; 0x05DE; 0x05BC; 0x05D5; 0x05BC; 0x05D6] |}
  else if month =? 11 then
    Some {| mi_nameEnglish := js "Av"; mi_name :=
        [0x05D0; 0x05B8; 0x05D1] |}
  else if month =? 12 then
    Some {| mi_nameEnglish := js "Elul"; mi_name :=
        [0x05D0; 0x05B1; 0x05DC; 0x05D5; 0x05BC; 0x05DC] |}
  else if month =? 13 then
    Some {| mi_nameEnglish := js "Adar II"; mi_name :=
        [0x05D0; 0x05B2; 0x05D3; 0x05B8; 0x05E8; 0x0020; 0x05D1; 0x05F3] |}
  else None.

(** [HEBREW_DAYS[dayOfWeek]]. *)
Definition HEBREW_DAYS (dayOfWeek : Z) : jsstring :=
  if dayOfWeek =? 0 then (* Sunday *)
    [0x05E8; 0x05B4; 0x05D0; 0x05E9; 0x05C1; 0x05D5; 0x05B9; 0x05DF]
  else if dayOfWeek =? 1 then (* Monday *)
    [0x05E9; 0x05B5; 0x05C1; 0x05E0; 0x05B4; 0x05D9]
  else if dayOfWeek =? 2 then (* Tuesday *)
    [0x05E9; 0x05B0; 0x05C1; 0x05DC; 0x05B4; 0x05D9; 0x05E9; 0x05B4;
    0x05C1; 0x05D9]
  else if dayOfWeek =? 3 then (* Wednesday *)
    [0x05E8; 0x05B0; 0x05D1; 0x05B4; 0x05D9; 0x05E2; 0x05B4; 0x05D9]
  else if dayOfWeek =? 4 then (* Thursday *)
    [0x05D7; 0x05B2; 0x05DE; 0x05B4; 0x05D9; 0x05E9; 0x05B4; 0x05C1;
    0x05D9]
  else if dayOfWeek =? 5 then (* Friday *)
    [0x05E9; 0x05B4; 0x05C1; 0x05E9; 0x05B4; 0x05BC; 0x05C1; 0x05D9]
  else if dayOfWeek =? 6 then (* Saturday *)
    [0x05E9; 0x05B7; 0x05C1; 0x05D1; 0x05B8; 0x05BC; 0x05EA]
  else undefined_str.

Section DateConversion.

Variable lib : Hebcal.

(** The [try] block of [gregorianToHebrew]. *)
Definition gregorianToHebrew_try (date : Date) : result HebrewDate :=
  try! hDate := HDate_ofDate lib date in
  let year := getFullYear lib hDate in
  let month := getMonth lib hDate in
  let day := getDate lib hDate in
  match HEBREW_MONTHS month with
  | None =>
      Throw (HebrewCalendarError (InvalidHebrewMonth month) CALCULATION_ERROR)
  | Some monthInfo =>
      try! dayStr := toHebrewNumeral day in
      try! yearStr := formatHebrewYear year in
      Ok {| hebrewDateString :=
              dayStr ++ [space] ++ mi_name monthInfo ++ [space] ++ yearStr;
            hebrewYear := year;
            hebrewMonth := mi_name monthInfo;
            hebrewMonthName := mi_name monthInfo;
            hebrewDay := day;
            gregorianDate := date |}
  end.

Definition gregorianToHebrew (date : Date) : ConversionResult :=
  match gregorianToHebrew_try date with
  | Ok h =>
      {| success := true; cr_hebrewDate := Some h;
         cr_gregorianDate := None; cr_error := None;
         cr_warnings := None |}
  | Throw error =>
      {| success := false; cr_hebrewDate := None;
         cr_gregorianDate := None; cr_error := Some (exn_message error);
         cr_warnings := Some [] |}
  end.

(** The [try] block of [hebrewToGregorian]. *)
Definition hebrewToGregorian_try (day month year : Z)
  : result (HebrewDate * Date) :=
  try! hDate := HDate_ofHebrew lib day month year in
  try! gDate := greg lib hDate in
  match HEBREW_MONTHS month with
  | None =>
      Throw (HebrewCalendarError (InvalidHebrewMonth month) CALCULATION_ERROR)
  | Some monthInfo =>
      try! dayStr := toHebrewNumeral day in
      try! yearStr := formatHebrewYear year in
      Ok ({| hebrewDateString :=
               dayStr ++ [space] ++ mi_name monthInfo ++ [space] ++ yearStr;
             hebrewYear := year;
             hebrewMonth := mi_name monthInfo;
             hebrewMonthName := mi_name monthInfo;
             hebrewDay := day;
             gregorianDate := gDate |}, gDate)
  end.

Definition hebrewToGregorian (day month year : Z) : ConversionResult :=
  match hebrewToGregorian_try day month year with
  | Ok (h, g) =>
      {| success := true; cr_hebrewDate := Some h;
         cr_gregorianDate := Some g; cr_error := None;
         cr_warnings := None |}
  | Throw error =>
      {| success := false; cr_hebrewDate := None;
         cr_gregorianDate := None; cr_error := Some (exn_message error);
         cr_warnings := Some [] |}
  end.

Definition getEnhancedHebrewDate (date : Date) : result EnhancedHebrewDate :=
  let conversionResult := gregorianToHebrew date in
  match success conversionResult, cr_hebrewDate conversionResult with
  | true, Some baseHebrewDate =>
      try! hDate := HDate_ofDate lib date in
      let dow := getDay date in
      Ok {| base := baseHebrewDate;
            isShabbat := dow =? 6;
            isYomTov := false;
            isRoshChodesh :=
              (getDate lib hDate =? 1) || (getDate lib hDate =? 30);
            isCholedMoed := false;
            isFastDay := false;
            dayOfWeek := dow;
            dayOfWeekHebrew := HEBREW_DAYS dow;
            parsha := None;
            parshaHebrew := None |}
  | _, _ =>
      Throw {| exn_message :=
                 FailedToConvertDate
                   (match cr_error conversionResult with
                    | Some m => m
                    | None => LibraryMessage 0
                    end);
               exn_code := None |}
  end.

Definition isHebrewLeapYear (year : Z) : result bool :=
  HebrewCalendar_isLeapYear lib year.

Definition getDaysInHebrewMonth (month year : Z) : result Z :=
  HebrewCalendar_daysInMonth lib month year.

(** The [try] block of [isValidHebrewDate]. *)
Definition isValidHebrewDate_try (day month year : Z) : result bool :=
  if (day <? 1) || (month <? 1) || (month >? 13) || (year <? 1)
  then Ok false
  else
    try! leap := (if month =? 13 then isHebrewLeapYear year else Ok true) in
    if (month =? 13) && negb leap then Ok false
    else
      try! daysInMonth := getDaysInHebrewMonth month year in
      Ok (day <=? daysInMonth).

Definition isValidHebrewDate (day month year : Z) : bool :=
  match isValidHebrewDate_try day month year with
  | Ok b => b
  | Throw _ => false
  end.

End DateConversion.

(** ** The service ([HebrewCalendarService.ts]) *)

Definition regularDayHebrew : jsstring :=
  [0x05D9; 0x05D5; 0x05DD; 0x0020; 0x05E8; 0x05D2; 0x05D9; 0x05DC; 0x0020;
  0x002D; 0x0020; 0x05D0; 0x05D9; 0x05DF; 0x0020; 0x05D4; 0x05D2; 0x05D1;
  0x05DC; 0x05D5; 0x05EA].
Definition shabbatHebrew : jsstring :=
  [0x05D0; 0x05E1; 0x05D5; 0x05E8; 0x0020; 0x05DC; 0x05E2; 0x05E8; 0x05D5;
  0x05DA; 0x0020; 0x05DE; 0x05DB; 0x05D9; 0x05E8; 0x05D5; 0x05EA; 0x0020;
  0x05E4; 0x05D5; 0x05DE; 0x05D1; 0x05D9; 0x05D5; 0x05EA; 0x0020; 0x05D1;
  0x05E9; 0x05D1; 0x05EA].
Definition yomTovHebrew : jsstring :=
  [0x05D0; 0x05E1; 0x05D5; 0x05E8; 0x0020; 0x05DC; 0x05E2; 0x05E8; 0x05D5;
  0x05DA; 0x0020; 0x05DE; 0x05DB; 0x05D9; 0x05E8; 0x05D5; 0x05EA; 0x0020;
  0x05E4; 0x05D5; 0x05DE; 0x05D1; 0x05D9; 0x05D5; 0x05EA; 0x0020; 0x05D1;
  0x05D9; 0x05D5; 0x05DD; 0x0020; 0x05D8; 0x05D5; 0x05D1].
Definition hallelWindowHebrew : jsstring :=
  [0x05D4; 0x05D2; 0x05D1; 0x05DC; 0x05D4; 0x0020; 0x05D1; 0x05D6; 0x05DE;
  0x05DF; 0x0020; 0x05EA; 0x05E4; 0x05D9; 0x05DC; 0x05EA; 0x0020; 0x05E9;
  0x05D7; 0x05E8; 0x05D9; 0x05EA; 0x0020; 0x05E2; 0x05DD; 0x0020; 0x05D4;
  0x05DC; 0x05DC].
Definition roshChodeshHebrew : jsstring :=
  [0x05E8; 0x05D0; 0x05E9; 0x0020; 0x05D7; 0x05D5; 0x05D3; 0x05E9; 0x0020;
  0x002D; 0x0020; 0x05DC; 0x05D4; 0x05D9; 0x05DE; 0x05E0; 0x05E2; 0x0020;
  0x05D1; 0x05D6; 0x05DE; 0x05DF; 0x0020; 0x05EA; 0x05E4; 0x05D9; 0x05DC;
  0x05D5; 0x05EA; 0x0020; 0x05DE; 0x05D9; 0x05D5; 0x05D7; 0x05D3; 0x05D5;
  0x05EA].
Definition fastWindowHebrew : jsstring :=
  [0x05E2; 0x05D9; 0x05EA; 0x05D5; 0x05D9; 0x0020; 0x05E8; 0x05D2; 0x05D9;
  0x05E9; 0x0020; 0x05D1; 0x05D9; 0x05D5; 0x05DD; 0x0020; 0x05E6; 0x05D5;
  0x05DD].
Definition fastDayHebrew : jsstring :=
  [0x05D9; 0x05D5; 0x05DD; 0x0020; 0x05E6; 0x05D5; 0x05DD; 0x0020; 0x002D;
  0x0020; 0x05DC; 0x05D4; 0x05DE; 0x05E9; 0x05D9; 0x05DA; 0x0020; 0x05D1;
  0x05E8; 0x05D2; 0x05D9; 0x05E9; 0x05D5; 0x05EA].
Definition permittedHebrew : jsstring :=
  [0x05DE; 0x05DB; 0x05D9; 0x05E8; 0x05D5; 0x05EA; 0x0020; 0x05E4; 0x05D5;
  0x05DE; 0x05D1; 0x05D9; 0x05D5; 0x05EA; 0x0020; 0x05DE; 0x05D5; 0x05EA;
  0x05E8; 0x05D5; 0x05EA].

(** The one [Map] of the class.  Its keys are built from four prefixes
    that no key of another prefix can start with, so the map is kept as
    four maps, one per prefix:
    - [greg_to_heb_] + [date.toISOString()], which determines the time
      value;
    - [heb_to_greg_] + day, month and year joined by an underscore;
    - [enhanced_] + [date.toISOString()];
    - [zmanim_] + [date.toDateString()] (the calendar day) + latitude and
      longitude. *)
Record Cache := {
  c_greg_to_heb : gmap Z HebrewDate;
  c_heb_to_greg : gmap (Z * Z * Z) Date;
  c_enhanced : gmap Z EnhancedHebrewDate;
  c_zmanim : gmap (Z * Z * Z) Zmanim
}.

Definition emptyCache : Cache :=
  {| c_greg_to_heb := ∅; c_heb_to_greg := ∅; c_enhanced := ∅; c_zmanim := ∅ |}.

Definition zmanimKey (date : Date) (loc : Location) : Z * Z * Z :=
  (localDay date, latitude loc, longitude loc).

(** A method of the class: it reads and updates the cache and returns a
    value or throws. *)
Definition M (A : Type) : Type := Cache -> result A * Cache.

Definition ret {A} (a : A) : M A := fun c => (Ok a, c).
Definition throw {A} (e : Exn) : M A := fun c => (Throw e, c).
Definition bind {A B} (m : M A) (k : A -> M B) : M B :=
  fun c => match m c with
           | (Ok a, c') => k a c'
           | (Throw e, c') => (Throw e, c')
           end.
Definition lift {A} (r : result A) : M A := fun c => (r, c).
Definition readCache : M Cache := fun c => (Ok c, c).
Definition writeCache (f : Cache -> Cache) : M unit := fun c => (Ok tt, f c).

Notation "'do!' x := m 'in' k" := (bind m (fun x => k))
  (at level 10, x name, m at level 100, k at level 200).

Definition set_greg_to_heb (k : Z) (v : HebrewDate) (c : Cache) : Cache :=
  {| c_greg_to_heb := <[k := v]> (c_greg_to_heb c);
     c_heb_to_greg := c_heb_to_greg c;
     c_enhanced := c_enhanced c; c_zmanim := c_zmanim c |}.
Definition set_heb_to_greg (k : Z * Z * Z) (v : Date) (c : Cache) : Cache :=
  {| c_greg_to_heb := c_greg_to_heb c;
     c_heb_to_greg := <[k := v]> (c_heb_to_greg c);
     c_enhanced := c_enhanced c; c_zmanim := c_zmanim c |}.
Definition set_enhanced (k : Z) (v : EnhancedHebrewDate) (c : Cache) : Cache :=
  {| c_greg_to_heb := c_greg_to_heb c; c_heb_to_greg := c_heb_to_greg c;
     c_enhanced := <[k := v]> (c_enhanced c); c_zmanim := c_zmanim c |}.
Definition set_zmanim (k : Z * Z * Z) (v : Zmanim) (c : Cache) : Cache :=
  {| c_greg_to_heb := c_greg_to_heb c; c_heb_to_greg := c_heb_to_greg c;
     c_enhanced := c_enhanced c; c_zmanim := <[k := v]> (c_zmanim c) |}.

(** The callbacks armed by [setTimeout]: each deletes one key. *)
Inductive CacheKey :=
  | KGregToHeb (k : Z)
  | KHebToGreg (k : Z * Z * Z)
  | KEnhanced (k : Z)
  | KZmanim (k : Z * Z * Z).

Definition cacheDelete (key : CacheKey) (c : Cache) : Cache :=
  match key with
  | KGregToHeb k =>
      {| c_greg_to_heb := delete k (c_greg_to_heb c);
         c_heb_to_greg := c_heb_to_greg c;
         c_enhanced := c_enhanced c; c_zmanim := c_zmanim c |}
  | KHebToGreg k =>
      {| c_greg_to_heb := c_greg_to_heb c;
         c_heb_to_greg := delete k (c_heb_to_greg c);
         c_enhanced := c_enhanced c; c_zmanim := c_zmanim c |}
  | KEnhanced k =>
      {| c_greg_to_heb := c_greg_to_heb c; c_heb_to_greg := c_heb_to_greg c;
         c_enhanced := delete k (c_enhanced c); c_zmanim := c_zmanim c |}
  | KZmanim k =>
      {| c_greg_to_heb := c_greg_to_heb c; c_heb_to_greg := c_heb_to_greg c;
         c_enhanced := c_enhanced c; c_zmanim := delete k (c_zmanim c) |}
  end.

Definition regularDay : AuctionRestrictions :=
  {| noAuctions := false; restrictedHours := [];
     specialConsiderations := js "Regular day - no restrictions";
     specialConsiderationsHebrew := regularDayHebrew;
     overrideAllowed := true; emergencyOnly := false |}.

Definition shabbatBlock : AuctionRestrictions :=
  {| noAuctions := true; restrictedHours := [];
     specialConsiderations := js "No auctions permitted on Shabbat";
     specialConsiderationsHebrew := shabbatHebrew;
     overrideAllowed := false; emergencyOnly := false |}.

Definition yomTovBlock : AuctionRestrictions :=
  {| noAuctions := true; restrictedHours := [];
     specialConsiderations := js "No auctions permitted on Yom Tov";
     specialConsiderationsHebrew := yomTovHebrew;
     overrideAllowed := false; emergencyOnly := false |}.

Definition roshChodeshRestriction : AuctionRestrictions :=
  {| noAuctions := false;
     restrictedHours :=
       [ {| startTime := js "shacharit"; endTime := js "after_hallel";
            description := js "Limited during morning prayers with Hallel";
            descriptionHebrew := hallelWindowHebrew |} ];
     specialConsiderations := js "Rosh Chodesh - avoid during special prayers";
     specialConsiderationsHebrew := roshChodeshHebrew;
     overrideAllowed := true; emergencyOnly := false |}.

Definition fastDayRestriction (zmanim : Zmanim) : AuctionRestrictions :=
  {| noAuctions := false;
     restrictedHours :=
       [ {| startTime := timeHHMM (alotHaShachar zmanim);
            endTime := timeHHMM (tzait zmanim);
            description := js "Sensitive timing during fast day";
            descriptionHebrew := fastWindowHebrew |} ];
     specialConsiderations := js "Fast day - proceed with sensitivity";
     specialConsiderationsHebrew := fastDayHebrew;
     overrideAllowed := true; emergencyOnly := false |}.

(** The body of [getAuctionRestrictions] once [enhanced] and [zmanim] are
    at hand: a default and four [if] statements executed in sequence,
    each assigning [restrictions] afresh when its condition holds. *)
Definition restrictionsOf (enhanced : EnhancedHebrewDate) (zmanim : Zmanim)
  : AuctionRestrictions :=
  let restrictions := regularDay in
  let restrictions :=
    if isShabbat enhanced then shabbatBlock else restrictions in
  let restrictions :=
    if isYomTov enhanced then yomTovBlock else restrictions in
  let restrictions :=
    if isRoshChodesh enhanced && negb (isShabbat enhanced)
       && negb (isYomTov enhanced)
    then roshChodeshRestriction else restrictions in
  let restrictions :=
    if isFastDay enhanced then fastDayRestriction zmanim else restrictions in
  restrictions.

Definition isTimeBetween (current start end_ : jsstring) : bool :=
  if includes start colon && includes end_ colon
  then js_ge current start && js_le current end_
  else false.

Record Permission := {
  permitted : bool;
  reason : jsstring;
  reasonHebrew : jsstring
}.

(** The [for] loop of [isAuctionPermitted]: the first window containing
    [currentTime] ends the method. *)
Fixpoint firstRestriction (currentTime : jsstring)
    (hours : list TimeRestriction) : option TimeRestriction :=
  match hours with
  | [] => None
  | restriction :: rest =>
      if isTimeBetween currentTime (startTime restriction)
           (endTime restriction)
      then Some restriction
      else firstRestriction currentTime rest
  end.

(** [isAuctionPermitted] after its call to [getAuctionRestrictions]. *)
Definition permissionFor (restrictions : AuctionRestrictions)
    (dateTime : Date) : Permission :=
  if noAuctions restrictions then
    {| permitted := false;
       reason := specialConsiderations restrictions;
       reasonHebrew := specialConsiderationsHebrew restrictions |}
  else
    let currentTime := timeHHMM dateTime in
    match firstRestriction currentTime (restrictedHours restrictions) with
    | Some restriction =>
        {| permitted := false;
           reason := description restriction;
           reasonHebrew := descriptionHebrew restriction |}
    | None =>
        {| permitted := true;
           reason := js "Auctions permitted";
           reasonHebrew := permittedHebrew |}
    end.

(** The [try] block of [getZmanim], without its write to the cache:
    whatever the dependency throws is rethrown as
    [Failed to calculate zmanim: <message>]. *)
Definition getZmanim_try (lib : Hebcal) (date : Date) (loc : Location)
  : result Zmanim :=
  match HebcalZmanim_of lib date loc with
  | Throw error =>
      Throw (HebrewCalendarError
               (FailedToCalculateZmanim (exn_message error))
               CALCULATION_ERROR)
  | Ok zmanim =>
      Ok {| z_location := loc_name loc;
            z_timezone := loc_timezone loc;
            z_date := date;
            alotHaShachar := hz_alot zmanim;
            misheyakir := hz_misheyakir zmanim;
            sunrise := hz_sunrise zmanim;
            sofZmanShma := hz_sofZmanShma zmanim;
            sofZmanTfilla := hz_sofZmanTfilla zmanim;
            chatzot := hz_chatzot zmanim;
            minchaGedola := hz_minchaGedola zmanim;
            minchaKetana := hz_minchaKetana zmanim;
            plagHaMincha := hz_plagHaMincha zmanim;
            sunset := hz_sunset zmanim;
            tzait := hz_tzait zmanim;
            tzait72 := hz_tzait72 zmanim;
            chatzotLayla := hz_chatzotLayla zmanim |}
  end.

(** [location || this.config.defaultLocation]. *)
Definition locationOr (config : HebrewCalendarConfig)
    (location : option Location) : Location :=
  match location with
  | Some l => l
  | None => defaultLocation config
  end.

Module HebrewCalendarService.
Section Methods.

Variable lib : Hebcal.
Variable config : HebrewCalendarConfig.

Definition gregorianToHebrew (date : Date) : M HebrewDate :=
  let cacheKey := date in
  do! cache := readCache in
  match cacheEnabled config, c_greg_to_heb cache !! cacheKey with
  | true, Some hit => ret hit
  | _, _ =>
      let result := gregorianToHebrew lib date in
      match success result, cr_hebrewDate result with
      | true, Some h =>
          do! _ := (if cacheEnabled config
                    then writeCache (set_greg_to_heb cacheKey h)
                    else ret tt) in
          ret h
      | _, _ =>
          throw (HebrewCalendarError
                   (match cr_error result with
                    | Some m => m
                    | None => FailedToConvertGregorian
                    end) CALCULATION_ERROR)
      end
  end.

Definition hebrewToGregorian (day month year : Z) : M Date :=
  let cacheKey := (day, month, year) in
  do! cache := readCache in
  match cacheEnabled config, c_heb_to_greg cache !! cacheKey with
  | true, Some hit => ret hit
  | _, _ =>
      let result := hebrewToGregorian lib day month year in
      match success result, cr_gregorianDate result with
      | true, Some g =>
          do! _ := (if cacheEnabled config
                    then writeCache (set_heb_to_greg cacheKey g)
                    else ret tt) in
          ret g
      | _, _ =>
          throw (HebrewCalendarError
                   (match cr_error result with
                    | Some m => m
                    | None => FailedToConvertHebrew
                    end) CALCULATION_ERROR)
      end
  end.

(** [enrichWithHolidayInfo] has an empty body: the object it is handed
    is left as it is. *)
Definition enrichWithHolidayInfo (enhanced : EnhancedHebrewDate)
    (date : Date) : EnhancedHebrewDate := enhanced.

Definition getEnhancedDate (date : Date) : M EnhancedHebrewDate :=
  let cacheKey := date in
  do! cache := readCache in
  match cacheEnabled config, c_enhanced cache !! cacheKey with
  | true, Some hit => ret hit
  | _, _ =>
      do! enhanced := lift (getEnhancedHebrewDate lib date) in
      let enhanced := enrichWithHolidayInfo enhanced date in
      do! _ := (if cacheEnabled config
                then writeCache (set_enhanced cacheKey enhanced)
                else ret tt) in
      ret enhanced
  end.

Definition getZmanim (date : Date) (location : option Location)
  : M Zmanim :=
  let loc := locationOr config location in
  let cacheKey := zmanimKey date loc in
  do! cache := readCache in
  match cacheEnabled config, c_zmanim cache !! cacheKey with
  | true, Some hit => ret hit
  | _, _ =>
      do! result := lift (getZmanim_try lib date loc) in
      do! _ := (if cacheEnabled config
                then writeCache (set_zmanim cacheKey result)
                else ret tt) in
      ret result
  end.

Definition getAuctionRestrictions (date : Date)
    (location : option Location) : M AuctionRestrictions :=
  do! enhanced := getEnhancedDate date in
  do! zmanim := getZmanim date location in
  ret (restrictionsOf enhanced zmanim).

Definition isAuctionPermitted (dateTime : Date)
    (location : option Location) : M Permission :=
  do! restrictions := getAuctionRestrictions dateTime location in
  ret (permissionFor restrictions dateTime).

Definition clearCache : M unit := writeCache (fun _ => emptyCache).

End Methods.
End HebrewCalendarService.

(** ** A reference instance of the dependency

    The results below are proved for every implementation of [Hebcal];
    this instance is what they are run on.  Its arithmetic is the
    classical one (leap years by the 19-year cycle, year start from the
    molad of Tishrei with the four postponements, Cheshvan and Kislev
    set by the length of the year), carried out the way the hebcal
    [HDate] class does: months are numbered from Nisan = 1, Tishrei is
    7, Adar I is 12 and Adar II is 13, and days are counted from
    0001-01-01 = 1.  As in that class, the three-argument constructor
    does not reject fields that are out of range: it carries them over
    into the neighbouring month or year. *)
Module HebcalModel.

Definition EPOCH : Z := -1373428.

Definition isLeapYear (year : Z) : bool := js_rem (1 + year * 7) 19 <? 7.

Definition monthsInYear (year : Z) : Z :=
  12 + (if isLeapYear year then 1 else 0).

(** Days from the epoch to the new year: the molad of Tishrei and the
    four postponements. *)
Definition elapsedDays (year : Z) : Z :=
  let prevYear := year - 1 in
  let mElapsed :=
    235 * (prevYear / 19) + 12 * js_rem prevYear 19
    + (js_rem prevYear 19 * 7 + 1) / 19 in
  let pElapsed := 204 + 793 * js_rem mElapsed 1080 in
  let hElapsed :=
    5 + 12 * mElapsed + 793 * (mElapsed / 1080) + pElapsed / 1080 in
  let parts := js_rem pElapsed 1080 + 1080 * js_rem hElapsed 24 in
  let day := 1 + 29 * mElapsed + hElapsed / 24 in
  let altDay :=
    if (parts >=? 19440)
       || ((js_rem day 7 =? 2) && (parts >=? 9924) && negb (isLeapYear year))
       || ((js_rem day 7 =? 1) && (parts >=? 16789) && isLeapYear prevYear)
    then day + 1 else day in
  if (js_rem altDay 7 =? 0) || (js_rem altDay 7 =? 3) || (js_rem altDay 7 =? 5)
  then altDay + 1 else altDay.

Definition daysInYear (year : Z) : Z := elapsedDays (year + 1) - elapsedDays year.
Definition longCheshvan (year : Z) : bool := js_rem (daysInYear year) 10 =? 5.
Definition shortKislev (year : Z) : bool := js_rem (daysInYear year) 10 =? 3.

Definition daysInMonth (month year : Z) : Z :=
  if (month =? 2) || (month =? 4) || (month =? 6) || (month =? 10)
     || (month =? 13)
  then 29
  else if ((month =? 12) && negb (isLeapYear year))
          || ((month =? 8) && negb (longCheshvan year))
          || ((month =? 9) && shortKislev year)
  then 29
  else 30.

Definition sumDays (first count year : Z) : Z :=
  List.fold_left (fun acc m => acc + daysInMonth m year) (seqZ first count) 0.

Definition hebrew2abs (year month day : Z) : Z :=
  let tempabs :=
    if month <? 7
    then day + sumDays 7 (monthsInYear year - 6) year
             + sumDays 1 (month - 1) year
    else day + sumDays 7 (month - 7) year in
  EPOCH + elapsedDays year + tempabs - 1.

Definition newYear (year : Z) : Z := EPOCH + elapsedDays year.

Record hd := { dd : Z; mm : Z; yy : Z }.

(** [while (newYear(year) <= abs) ++year]. *)
Fixpoint yearLoop (fuel : nat) (abs year : Z) : option Z :=
  match fuel with
  | O => None
  | S fuel' =>
      if newYear year <=? abs then yearLoop fuel' abs (year + 1)
      else Some year
  end.

(** [while (abs > hebrew2abs(year, month, daysInMonth(month, year)))
    ++month]. *)
Fixpoint monthLoop (fuel : nat) (abs year month : Z) : option Z :=
  match fuel with
  | O => None
  | S fuel' =>
      if abs >? hebrew2abs year month (daysInMonth month year)
      then monthLoop fuel' abs year (month + 1)
      else Some month
  end.

Definition libraryError (tag : Z) : Exn :=
  {| exn_message := LibraryMessage tag; exn_code := None |}.

Definition abs2hebrew (abs : Z) : result hd :=
  if abs <=? EPOCH then Throw (libraryError 1)
  else
    let approx :=
      (abs - EPOCH) * 100000000000000 / 36524682220597794 in
    match yearLoop 64 abs approx with
    | None => Throw (libraryError 2)
    | Some next =>
        let year := next - 1 in
        let month0 := if abs <? hebrew2abs year 1 1 then 7 else 1 in
        match monthLoop 16 abs year month0 with
        | None => Throw (libraryError 2)
        | Some month =>
            Ok {| dd := 1 + abs - hebrew2abs year month 1;
                  mm := month; yy := year |}
        end
    end.

(** The mutually recursive [fix], [fixMonth] and [fixDate] that bring
    the fields of a date into range.  Running out of [fuel] stands for
    exhausting the call stack. *)
Inductive FixStep := Fix | FixMonth | FixDate.

Fixpoint runFix (fuel : nat) (step : FixStep) (d : hd) : option hd :=
  match fuel with
  | O => None
  | S fuel' =>
      match step with
      | Fix =>
          match runFix fuel' FixMonth d with
          | Some d1 => runFix fuel' FixDate d1
          | None => None
          end
      | FixMonth =>
          if (mm d =? 13) && negb (isLeapYear (yy d))
          then runFix fuel' Fix {| dd := dd d; mm := mm d - 1; yy := yy d |}
          else if mm d <? 1
          then runFix fuel' Fix
                 {| dd := dd d; mm := mm d + monthsInYear (yy d);
                    yy := yy d - 1 |}
          else if mm d >? monthsInYear (yy d)
          then runFix fuel' Fix
                 {| dd := dd d; mm := mm d - monthsInYear (yy d);
                    yy := yy d + 1 |}
          else Some d
      | FixDate =>
          let low :=
            if dd d <? 1 then
              let y := if mm d =? 7 then yy d - 1 else yy d in
              runFix fuel' Fix
                {| dd := dd d + daysInMonth (mm d) y; mm := mm d - 1;
                   yy := y |}
            else Some d in
          match low with
          | None => None
          | Some d1 =>
              let high :=
                if dd d1 >? daysInMonth (mm d1) (yy d1) then
                  let y := if mm d1 =? 6 then yy d1 + 1 else yy d1 in
                  runFix fuel' Fix
                    {| dd := dd d1 - daysInMonth (mm d1) y; mm := mm d1 + 1;
                       yy := y |}
                else Some d1 in
              match high with
              | None => None
              | Some d2 => runFix fuel' FixMonth d2
              end
          end
      end
  end.

Definition stackDepth : nat := 400.

(** [new HDate(day, month, year)]: set the year, then the month, then
    the day, fixing the fields after each of the last two. *)
Definition ofHebrew (day month year : Z) : result hd :=
  if month >? 14 then Throw (libraryError 3)
  else
    match runFix stackDepth Fix {| dd := 1; mm := month; yy := year |} with
    | None => Throw (libraryError 4)
    | Some d1 =>
        match runFix stackDepth Fix
                {| dd := day; mm := mm d1; yy := yy d1 |} with
        | None => Throw (libraryError 4)
        | Some d2 => Ok d2
        end
    end.

Definition ofDate (date : Date) : result hd := abs2hebrew (localDay date).

Definition toDate (d : hd) : result Date :=
  Ok (midnightOf (hebrew2abs (yy d) (mm d) (dd d))).

(** A stand-in for the solar computation: the thirteen instants are put
    at fixed clock times of the civil day of [date]. *)
Definition clockOf (date : Date) (hours minutes : Z) : Date :=
  midnightOf (localDay date) + hours * 3600000 + minutes * 60000.

Definition fixedClockZmanim (date : Date) (loc : Location)
  : result HebcalZmanim :=
  Ok {| hz_alot := clockOf date 4 48;
        hz_misheyakir := clockOf date 5 12;
        hz_sunrise := clockOf date 6 0;
        hz_sofZmanShma := clockOf date 9 0;
        hz_sofZmanTfilla := clockOf date 10 0;
        hz_chatzot := clockOf date 12 0;
        hz_minchaGedola := clockOf date 12 30;
        hz_minchaKetana := clockOf date 15 30;
        hz_plagHaMincha := clockOf date 16 45;
        hz_sunset := clockOf date 18 0;
        hz_tzait := clockOf date 18 40;
        hz_tzait72 := clockOf date 19 12;
        hz_chatzotLayla := clockOf date 24 0 |}.

Definition hebcal : Hebcal :=
  {| hdate := hd;
     HDate_ofDate := ofDate;
     HDate_ofHebrew := ofHebrew;
     getFullYear := yy;
     getMonth := mm;
     getDate := dd;
     greg := toDate;
     HebrewCalendar_isLeapYear := fun year => Ok (isLeapYear year);
     HebrewCalendar_daysInMonth := fun month year => Ok (daysInMonth month year);
     HebcalZmanim_of := fixedClockZmanim |}.

End HebcalModel.

(** ** Reading a numeral's punctuation

    A numeral of one letter carries a geresh after the letter; a numeral
    of several letters carries a gershayim before its last letter and no
    other mark. *)

Definition lettersOf (s : jsstring) : jsstring := List.filter isHebrewLetter s.

Definition wellPunctuated (s : jsstring) : bool :=
  match lettersOf s with
  | [] => false
  | [l] => bool_decide (s = [l; geresh])
  | ls => bool_decide (s = removelast ls ++ [gershayim; List.last ls 0])
  end.

Definition numeralWellPunctuated (n : Z) : bool :=
  match toHebrewNumeral n with
  | Ok s => wellPunctuated s
  | Throw _ => false
  end.

(** The numbers whose numeral is a single letter, and the teens. *)
Definition plainNumeral (n : Z) : bool :=
  (n <=? 20) || ((n <? 100) && (n mod 10 =? 0))
  || ((n <=? 400) && (n mod 100 =? 0)).

(** ** Reading a window as a clock interval *)

Definition clockText (h m : Z) : jsstring := pad2 h ++ [colon] ++ pad2 m.

Definition minutesOfDay (d : Date) : Z := getHours d * 60 + getMinutes d.

(** ** [index.ts]: the default configuration and a registry entry *)

(** Coordinates are held in ten-thousandths of a degree, the precision
    of the registry. *)
Definition JERUSALEM : Location :=
  {| loc_name := js "Jerusalem";
     loc_nameHebrew := [yod; resh; vav; shin; lamed; yod; final_mem];
     latitude := 317683;
     longitude := 352137;
     loc_timezone := js "Asia/Jerusalem";
     elevation := Some 754;
     country := js "Israel";
     region := Some (js "Jerusalem District") |}.

Definition createDefaultConfig (location : Location) : HebrewCalendarConfig :=
  {| defaultLocation := location;
     cacheEnabled := true;
     cacheTTL := 24 * 60 * 60 * 1000 |}.

(** ** Runs of the service

    What can happen to the cache of one service object: a public method
    is called, under whatever configuration [updateConfig] has left, or a
    timer armed by an earlier [cache.set] fires and deletes its key. *)
Inductive Call :=
  | CallGregorianToHebrew (date : Date)
  | CallHebrewToGregorian (day month year : Z)
  | CallGetEnhancedDate (date : Date)
  | CallGetZmanim (date : Date) (location : option Location)
  | CallGetAuctionRestrictions (date : Date) (location : option Location)
  | CallIsAuctionPermitted (dateTime : Date) (location : option Location)
  | CallClearCache
  | TimerFires (key : CacheKey).

Definition cacheAfter (lib : Hebcal) (config : HebrewCalendarConfig)
    (call : Call) (c : Cache) : Cache :=
  match call with
  | CallGregorianToHebrew date =>
      snd (HebrewCalendarService.gregorianToHebrew lib config date c)
  | CallHebrewToGregorian day month year =>
      snd (HebrewCalendarService.hebrewToGregorian lib config day month year c)
  | CallGetEnhancedDate date =>
      snd (HebrewCalendarService.getEnhancedDate lib config date c)
  | CallGetZmanim date location =>
      snd (HebrewCalendarService.getZmanim lib config date location c)
  | CallGetAuctionRestrictions date location =>
      snd (HebrewCalendarService.getAuctionRestrictions lib config date
             location c)
  | CallIsAuctionPermitted dateTime location =>
      snd (HebrewCalendarService.isAuctionPermitted lib config dateTime
             location c)
  | CallClearCache => snd (HebrewCalendarService.clearCache c)
  | TimerFires key => cacheDelete key c
  end.

(** The caches a service object can hold, starting from the empty map
    it is constructed with. *)
Inductive reachable (lib : Hebcal) : Cache -> Prop :=
  | reachable_new : reachable lib emptyCache
  | reachable_step (config : HebrewCalendarConfig) (call : Call) (c : Cache) :
      reachable lib c -> reachable lib (cacheAfter lib config call c).

(** Every entry is a value that the uncached computation returns for
    some input with that key. *)
Record cacheSound (lib : Hebcal) (c : Cache) : Prop := {
  sound_greg_to_heb :
    forall k h, c_greg_to_heb c !! k = Some h ->
                gregorianToHebrew_try lib k = Ok h;
  sound_heb_to_greg :
    forall d m y g, c_heb_to_greg c !! (d, m, y) = Some g ->
                    exists h, hebrewToGregorian_try lib d m y = Ok (h, g);
  sound_enhanced :
    forall k e, c_enhanced c !! k = Some e ->
                getEnhancedHebrewDate lib k = Ok e;
  sound_zmanim :
    forall k z, c_zmanim c !! k = Some z ->
                exists date loc, zmanimKey date loc = k /\
                                 getZmanim_try lib date loc = Ok z
}.

Definition withCache (enabled : bool) (config : HebrewCalendarConfig)
  : HebrewCalendarConfig :=
  {| defaultLocation := defaultLocation config;
     cacheEnabled := enabled;
     cacheTTL := cacheTTL config |}.

(** The round trip of the conversion functions: day, month name and
    year of the Hebrew date computed back from the Gregorian date. *)
Definition roundTrip (lib : Hebcal) (day month year : Z)
  : option (Z * jsstring * Z) :=
  match cr_gregorianDate (hebrewToGregorian lib day month year) with
  | None => None
  | Some g =>
      match cr_hebrewDate (gregorianToHebrew lib g) with
      | None => None
      | Some h => Some (hebrewDay h, hebrewMonth h, hebrewYear h)
      end
  end.

Definition monthName (month : Z) : jsstring :=
  match HEBREW_MONTHS month with
  | Some info => mi_name info
  | None => undefined_str
  end.

(** ** The rest of [gematria.ts] *)

(** [Array.prototype.sort] with the comparator [a.value - b.value].  The
    sort of an array is stable, so its result is the one stable
    arrangement in ascending order of [value]; insertion from the right
    computes it. *)
Fixpoint insertByValue (m : GematriaMultiplier) (l : list GematriaMultiplier)
  : list GematriaMultiplier :=
  match l with
  | [] => [m]
  | x :: l' =>
      if value m <=? value x then m :: l else x :: insertByValue m l'
  end.

Definition sortByValue (l : list GematriaMultiplier) : list GematriaMultiplier :=
  List.fold_right insertByValue [] l.

(** [Number.isSafeInteger(n)] on an integer: below 2^53 in magnitude. *)
Definition isSafeInteger (n : Z) : bool := Z.abs n <? 2 ^ 53.

(** The double nearest to the integer [n], ties to even.  Every integer
    below 2^53 in magnitude is a double; a larger one keeps its 53
    leading bits, the rest being rounded away. *)
Definition roundToDouble (n : Z) : Z :=
  let a := Z.abs n in
  if a <? 2 ^ 53 then n
  else
    let e := Z.log2 a - 52 in
    let q := a / 2 ^ e in
    let r := a mod 2 ^ e in
    let half := 2 ^ (e - 1) in
    let q' := if r <? half then q
              else if half <? r then q + 1
              else if Z.even q then q else q + 1 in
    Z.sgn n * (q' * 2 ^ e).

(** [a * b] on two numbers that hold integers: the exact product,
    rounded to a double.  The result is finite as long as the product
    stays below 2^1024; beyond that JavaScript gives [Infinity], which
    [Z] does not hold, and the results on [js_mul] keep the operands
    among the safe integers. *)
Definition js_mul (a b : Z) : Z := roundToDouble (a * b).

(** [{...m, value: baseAmount * m.value}]. *)
Definition scaleMultiplier (baseAmount : Z) (m : GematriaMultiplier)
  : GematriaMultiplier :=
  {| nameEnglish := nameEnglish m;
     nameHebrew := nameHebrew m;
     value := js_mul baseAmount (value m);
     significance := significance m;
     commonUse := commonUse m |}.

(** The values of [COMMON_MULTIPLIERS] lie between 0 and 227. *)
Definition tableValue (m : GematriaMultiplier) : Prop := 0 <= value m <= 227.

Definition getSuggestedMultipliers (baseAmount : Z) : list GematriaMultiplier :=
  sortByValue
    (List.map (scaleMultiplier baseAmount)
       (List.filter commonUse COMMON_MULTIPLIERS)).

Definition findWordsByValue (targetValue : Z) : list GematriaMultiplier :=
  List.filter (fun m => value m =? targetValue) COMMON_MULTIPLIERS.

(** [Object.values(GematriaMethod)], in the order of the enum. *)
Definition GematriaMethod_values : list GematriaMethod :=
  [STANDARD; SMALL; LARGE; ORDINAL; REDUCED].

(** [calculateAllMethods]: the object it fills, as the list of its
    entries in the order they are set; a method that throws is skipped. *)
Definition calculateAllMethods (text : jsstring)
  : list (GematriaMethod * jsnumber) :=
  List.fold_left
    (fun results m =>
       match calculateGematria text m with
       | Ok calculation => results ++ [(m, gc_value calculation)]
       | Throw _ => results
       end)
    GematriaMethod_values [].

Definition isValidHebrewText (text : jsstring) : bool :=
  0 <? Z.of_nat (List.length (cleanText text)).

(** What a final form at the end of the text gains under the large
    method. *)
Definition finalBonus (letter : Z) : Z :=
  match LARGE_GEMATRIA_FINALS letter, GEMATRIA_VALUES letter with
  | Some big, Some v => big - v
  | _, _ => 0
  end.

(** ** [parseHebrewDateString] *)

(** The characters [String.prototype.trim] removes: white space and line
    terminators. *)
Definition isTrimmed (c : Z) : bool :=
  (c =? 0x0009) || (c =? 0x000A) || (c =? 0x000B) || (c =? 0x000C)
  || (c =? 0x000D) || (c =? 0x0020) || (c =? 0x00A0) || (c =? 0x1680)
  || ((0x2000 <=? c) && (c <=? 0x200A)) || (c =? 0x2028) || (c =? 0x2029)
  || (c =? 0x202F) || (c =? 0x205F) || (c =? 0x3000) || (c =? 0xFEFF).

Fixpoint trimStart (s : jsstring) : jsstring :=
  match s with
  | [] => []
  | c :: s' => if isTrimmed c then trimStart s' else s
  end.

Definition trim (s : jsstring) : jsstring :=
  List.rev (trimStart (List.rev (trimStart s))).

(** [s.split(sep)] for a separator of one character. *)
Fixpoint split (sep : Z) (s : jsstring) : list jsstring :=
  match s with
  | [] => [[]]
  | c :: s' =>
      if c =? sep then [] :: split sep s'
      else match split sep s' with
           | part :: parts => (c :: part) :: parts
           | [] => [[c]]
           end
  end.

(** The [ConversionResult] of [parseHebrewDateString]: neither date is
    ever set, [error] always is. *)
Record ParseResult := {
  pr_success : bool;
  pr_error : jsstring;
  pr_warnings : option (list jsstring)
}.

Definition invalidFormatMessage : jsstring :=
  js "Invalid Hebrew date format. Expected format: " ++ [34]
  ++ js "day month year" ++ [34].

Definition parseHebrewDateString (hebrewDateString : jsstring) : ParseResult :=
  let parts := split space (trim hebrewDateString) in
  if negb (Z.of_nat (List.length parts) =? 3) then
    {| pr_success := false; pr_error := invalidFormatMessage;
       pr_warnings := None |}
  else
    {| pr_success := false;
       pr_error := js "Hebrew date string parsing not yet implemented";
       pr_warnings :=
         Some [js "Use numeric Hebrew date conversion methods instead"] |}.

(** ** Construction and configuration of the service *)

Record ConfigError := { ce_message : jsstring; ce_code : ErrorCode }.

(** [validateConfig]; [None] is a normal return.  Zero and the empty
    string are falsy. *)
Definition validateLocation (defaultLoc : option Location) : option ConfigError :=
  match defaultLoc with
  | None =>
      Some {| ce_message := js "Default location is required";
              ce_code := CONFIGURATION_ERROR |}
  | Some loc =>
      if (latitude loc =? 0) || (longitude loc =? 0) then
        Some {| ce_message :=
                  js "Location must have valid latitude and longitude";
                ce_code := INVALID_LOCATION |}
      else
        match loc_timezone loc with
        | [] => Some {| ce_message := js "Location must specify timezone";
                        ce_code := INVALID_LOCATION |}
        | _ :: _ => None
        end
  end.

Definition validateConfig (config : HebrewCalendarConfig) : option ConfigError :=
  validateLocation (Some (defaultLocation config)).

(** A service object: its two private members. *)
Record Service := {
  svc_config : HebrewCalendarConfig;
  svc_cache : Cache
}.

(** [new HebrewCalendarService(config)]. *)
Definition newService (config : HebrewCalendarConfig) : ConfigError + Service :=
  match validateConfig config with
  | Some e => inl e
  | None => inr {| svc_config := config; svc_cache := emptyCache |}
  end.

(** [Partial<HebrewCalendarConfig>]: [None] is an absent key. *)
Record PartialConfig := {
  new_defaultLocation : option Location;
  new_cacheEnabled : option bool;
  new_cacheTTL : option Z
}.

(** [{ ...this.config, ...newConfig }]. *)
Definition mergeConfig (config : HebrewCalendarConfig) (newConfig : PartialConfig)
  : HebrewCalendarConfig :=
  {| defaultLocation :=
       match new_defaultLocation newConfig with
       | Some l => l
       | None => defaultLocation config
       end;
     cacheEnabled :=
       match new_cacheEnabled newConfig with
       | Some b => b
       | None => cacheEnabled config
       end;
     cacheTTL :=
       match new_cacheTTL newConfig with
       | Some t => t
       | None => cacheTTL config
       end |}.

(** [updateConfig]: the merged configuration is assigned first, then
    validated, then the cache is cleared if the new configuration says
    [cacheEnabled: false]. *)
Definition updateConfig (newConfig : PartialConfig) (s : Service)
  : option ConfigError * Service :=
  let merged := mergeConfig (svc_config s) newConfig in
  match validateConfig merged with
  | Some e => (Some e, {| svc_config := merged; svc_cache := svc_cache s |})
  | None =>
      (None,
       {| svc_config := merged;
          svc_cache :=
            match new_cacheEnabled newConfig with
            | Some false => emptyCache
            | _ => svc_cache s
            end |})
  end.

(** [getCommonMultipliers] and [getGematriaSuggestions] of the class. *)
Definition getCommonMultipliers : list GematriaMultiplier :=
  List.filter commonUse COMMON_MULTIPLIERS.

Definition getGematriaSuggestions (baseAmount : Z) : list GematriaMultiplier :=
  getSuggestedMultipliers baseAmount.

(** ** Values read off a calculation *)

(** The value [calculateGematria] reports; a throw is shown as [NaN]. *)
Definition gematriaOf (text : jsstring) (m : GematriaMethod) : jsnumber :=
  match calculateGematria text m with
  | Ok r => gc_value r
  | Throw _ => NaN
  end.

(** The standard gematria of the numeral of [n]. *)
Definition numeralValue (n : Z) : jsnumber :=
  match toHebrewNumeral n with
  | Ok s => gematriaOf s STANDARD
  | Throw _ => NaN
  end.

(** What one letter adds under the standard, the small and the ordinal
    method. *)
Definition letterValue (letter : Z) : Z :=
  match GEMATRIA_VALUES letter with
  | Some v => v
  | None => 0
  end.

Definition smallLetterValue (letter : Z) : Z :=
  let v := letterValue letter in
  if v >? 9 then reduceToSingleDigit v else v.

Definition ordinalLetterValue (letter : Z) : Z :=
  let position := indexOf hebrewAlphabet letter in
  if position =? -1 then
    match finalMap letter with
    | Some finalPosition => finalPosition + 1
    | None => 0
    end
  else position + 1.

Definition sumOver (w : Z -> Z) (letters : list Z) : Z :=
  List.fold_right (fun letter acc => w letter + acc) 0 letters.

Definition isMark (c : Z) : bool := (c =? geresh) || (c =? gershayim).

(** The sum of the digits of a decimal numeral. *)
Fixpoint digitsOf (d : Decimal.uint) : Z :=
  match d with
  | Decimal.Nil => 0
  | Decimal.D0 d => digitsOf d
  | Decimal.D1 d => 1 + digitsOf d
  | Decimal.D2 d => 2 + digitsOf d
  | Decimal.D3 d => 3 + digitsOf d
  | Decimal.D4 d => 4 + digitsOf d
  | Decimal.D5 d => 5 + digitsOf d
  | Decimal.D6 d => 6 + digitsOf d
  | Decimal.D7 d => 7 + digitsOf d
  | Decimal.D8 d => 8 + digitsOf d
  | Decimal.D9 d => 9 + digitsOf d
  end.

(** What the checks below ask of one letter. *)
Definition letterChecks (c : Z) : bool :=
  bool_decide (GEMATRIA_VALUES c = Some (letterValue c))
  && (1 <=? letterValue c) && (letterValue c <=? 400)
  && (1 <=? smallLetterValue c) && (smallLetterValue c <=? 9)
  && (smallLetterValue c mod 9 =? letterValue c mod 9)
  && (1 <=? ordinalLetterValue c) && (ordinalLetterValue c <=? 22)
  && ((negb (indexOf hebrewAlphabet c =? -1))
      || match finalMap c with Some _ => true | None => false end)
  && ((finalBonus c =? 0) || (finalBonus c =? 480) || (finalBonus c =? 560)
      || (finalBonus c =? 650) || (finalBonus c =? 720)
      || (finalBonus c =? 810)).

(** The five methods in closed form, on the letters of a cleaned text. *)
Definition methodValue (m : GematriaMethod) (letters : list Z) : Z :=
  match m with
  | STANDARD => sumOver letterValue letters
  | LARGE => sumOver letterValue letters + finalBonus (List.last letters 0)
  | SMALL => sumOver smallLetterValue letters
  | ORDINAL => sumOver ordinalLetterValue letters
  | REDUCED => reduceToSingleDigit (sumOver letterValue letters)
  end.

(** Ascending order of [value]. *)
Definition byValue (a b : GematriaMultiplier) : Prop := value a <= value b.

(** How often [c] occurs in [s]. *)
Definition countOf (c : Z) (s : jsstring) : nat :=
  List.length (List.filter (Z.eqb c) s).

Definition notImplementedMessage : jsstring :=
  js "Hebrew date string parsing not yet implemented".

(** No character of [s] is one that [trim] removes. *)
Definition solid (s : jsstring) : bool :=
  forallb (fun c => negb (isTrimmed c)) s.

(* ================================================================== *)
(** * Results *)

(** ** Hebrew numerals *)

Lemma toHebrewNumeral_throws (n : Z) :
  n < 1 \/ 999 < n ->
  toHebrewNumeral n
  = Throw (HebrewCalendarError (NumberOutOfRange n) CALCULATION_ERROR).
Proof.
  intros Hn. unfold toHebrewNumeral.
  destruct (Z.eqb_spec n 15); [lia|].
  destruct (Z.eqb_spec n 16); [lia|].
  destruct (Z.ltb_spec n 1); [reflexivity|].
  destruct (Z.gtb_spec n 999); [reflexivity|lia].
Qed.

Lemma toHebrewNumeral_returns (n : Z) :
  1 <= n <= 999 -> exists s, toHebrewNumeral n = Ok s.
Proof.
  intros Hn. unfold toHebrewNumeral.
  destruct (Z.ltb_spec n 1); [lia|].
  destruct (Z.gtb_spec n 999); [lia|]. cbn [orb].
  destruct (n >=? 100);
    repeat match goal with
           | |- context [if ?b then _ else _] => destruct b
           end; eauto.
Qed.

(** C4.  [toHebrewNumeral 15] and [toHebrewNumeral 16] are the two
    hard-coded numerals tet-gershayim-vav and tet-gershayim-zayin; the
    function throws its out-of-range error exactly on the numbers below 1
    or above 999, and returns a string on every number from 1 to 999. *)
Theorem toHebrewNumeral_exceptions_and_range :
  toHebrewNumeral 15 = Ok [tet; gershayim; vav] /\
  toHebrewNumeral 16 = Ok [tet; gershayim; zayin] /\
  forall n : Z,
    ((exists e, toHebrewNumeral n = Throw e) <-> (n < 1 \/ 999 < n)) /\
    (n < 1 \/ 999 < n ->
     toHebrewNumeral n
     = Throw (HebrewCalendarError (NumberOutOfRange n) CALCULATION_ERROR)) /\
    (1 <= n <= 999 -> exists s, toHebrewNumeral n = Ok s).
Proof.
  split; [reflexivity|]. split; [reflexivity|].
  intros n. split; [|split].
  - split.
    + intros [e He]. destruct (Z_lt_le_dec n 1); [lia|].
      destruct (Z_lt_le_dec 999 n); [lia|].
      destruct (toHebrewNumeral_returns n) as [s Hs]; [lia|]. congruence.
    + intros Hn. eexists. apply toHebrewNumeral_throws, Hn.
  - apply toHebrewNumeral_throws.
  - apply toHebrewNumeral_returns.
Qed.

Lemma forallb_seqZ (P : Z -> bool) (lo len : Z) :
  forallb P (seqZ lo len) = true ->
  forall n, lo <= n < lo + len -> P n = true.
Proof.
  intros Hall n Hn. rewrite forallb_forall in Hall. apply Hall.
  apply list_elem_of_In, elem_of_seqZ. lia.
Qed.

(** Which numerals come out well punctuated: the single letters and the
    teens, and nothing else. *)
Lemma numeralWellPunctuated_iff (n : Z) :
  1 <= n <= 999 -> numeralWellPunctuated n = plainNumeral n.
Proof.
  intros Hn.
  assert (H : forallb (fun k => bool_decide
                         (numeralWellPunctuated k = plainNumeral k))
                (seqZ 1 999) = true) by (vm_compute; reflexivity).
  pose proof (forallb_seqZ _ _ _ H n ltac:(lia)) as Hk.
  cbv beta in Hk. apply bool_decide_eq_true in Hk. exact Hk.
Qed.

(** C5.  Composed numerals keep the geresh of the table entries they are
    built from.  The numeral of 21 is kaf, gershayim, alef followed by a
    geresh; the numeral of 784, the display form of the year 5784, has a
    geresh after the hundreds and another after the last letter, where
    the documented form is tav, shin, pe, gershayim, dalet; the numeral
    of 500 is two letters and a geresh, without gershayim.  None of the
    three is well punctuated. *)
Theorem toHebrewNumeral_stray_geresh :
  toHebrewNumeral 21 = Ok [kaf; gershayim; alef; geresh] /\
  numeralWellPunctuated 21 = false /\
  toHebrewNumeral 784
  = Ok [tav; shin; geresh; pe; gershayim; dalet; geresh] /\
  formatHebrewYear 5784 <> Ok [tav; shin; pe; gershayim; dalet] /\
  numeralWellPunctuated 784 = false /\
  toHebrewNumeral 500 = Ok [tav; qof; geresh] /\
  numeralWellPunctuated 500 = false.
Proof.
  repeat split; try reflexivity. vm_compute. discriminate.
Qed.

Example toHebrewNumeral_18 : toHebrewNumeral 18 = Ok [yod; gershayim; chet].
Proof. reflexivity. Qed.

Example toHebrewNumeral_0 :
  toHebrewNumeral 0
  = Throw (HebrewCalendarError (NumberOutOfRange 0) CALCULATION_ERROR).
Proof. reflexivity. Qed.

Example toHebrewNumeral_1000 :
  toHebrewNumeral 1000
  = Throw (HebrewCalendarError (NumberOutOfRange 1000) CALCULATION_ERROR).
Proof. reflexivity. Qed.

Lemma js_rem_nonneg (a b : Z) : 0 <= a -> 0 < b -> js_rem a b = a mod b.
Proof. intros Ha Hb. unfold js_rem. apply Z.rem_mod_nonneg; lia. Qed.

Lemma formatHebrewYear_thousands (year : Z) :
  0 < year -> year mod 1000 = 0 ->
  formatHebrewYear year
  = Throw (HebrewCalendarError (NumberOutOfRange 0) CALCULATION_ERROR).
Proof.
  intros Hpos Hdiv. unfold formatHebrewYear.
  rewrite js_rem_nonneg, Hdiv by lia. reflexivity.
Qed.

(** ** The conversion glue *)

Lemma formatHebrewYear_ok (year : Z) :
  1 <= js_rem year 1000 -> exists s, formatHebrewYear year = Ok s.
Proof.
  intros Hr. unfold formatHebrewYear. apply toHebrewNumeral_returns.
  unfold js_rem in *. pose proof (Z.rem_bound_abs year 1000). lia.
Qed.

Lemma HEBREW_MONTHS_defined (month : Z) :
  1 <= month <= 13 -> exists info, HEBREW_MONTHS month = Some info.
Proof.
  intros Hm.
  assert (H : forallb (fun k => match HEBREW_MONTHS k with
                                | Some _ => true
                                | None => false
                                end) (seqZ 1 13) = true) by reflexivity.
  pose proof (forallb_seqZ _ _ _ H month ltac:(lia)) as Hk. cbv beta in Hk.
  destruct (HEBREW_MONTHS month); [eauto|discriminate].
Qed.

Lemma hebrewToGregorian_thousands (lib : Hebcal) (day month year : Z) :
  0 < year -> year mod 1000 = 0 ->
  hebrewToGregorian lib day month year
  = {| success := false; cr_hebrewDate := None; cr_gregorianDate := None;
       cr_error := cr_error (hebrewToGregorian lib day month year);
       cr_warnings := Some [] |}.
Proof.
  intros Hpos Hdiv. unfold hebrewToGregorian, hebrewToGregorian_try.
  destruct (HDate_ofHebrew lib day month year) as [h|e]; [|reflexivity].
  cbn [rbind]. destruct (greg lib h) as [g|e]; [|reflexivity].
  cbn [rbind]. destruct (HEBREW_MONTHS month); [|reflexivity].
  destruct (toHebrewNumeral day); [|reflexivity].
  cbn [rbind]. rewrite formatHebrewYear_thousands by assumption.
  reflexivity.
Qed.

Lemma gregorianToHebrew_thousands (lib : Hebcal) (date : Date) (h : hdate lib) :
  HDate_ofDate lib date = Ok h ->
  0 < getFullYear lib h -> getFullYear lib h mod 1000 = 0 ->
  success (gregorianToHebrew lib date) = false.
Proof.
  intros Hh Hpos Hdiv. unfold gregorianToHebrew, gregorianToHebrew_try.
  rewrite Hh. cbn [rbind]. destruct (HEBREW_MONTHS _); [|reflexivity].
  destruct (toHebrewNumeral _); [|reflexivity].
  cbn [rbind]. rewrite formatHebrewYear_thousands by assumption.
  reflexivity.
Qed.

(** C10.  [formatHebrewYear year] is [toHebrewNumeral] of the residue
    [year % 1000] and returns a string whenever that residue is between
    1 and 999 (for a year from 1 on the residue is [year mod 1000]); it
    throws the out-of-range error on every positive year divisible by
    1000, and both conversions fail on such a year. *)
Theorem formatHebrewYear_residue (lib : Hebcal) :
  (forall year, 1 <= js_rem year 1000 <= 999 ->
     formatHebrewYear year = toHebrewNumeral (js_rem year 1000) /\
     exists s, formatHebrewYear year = Ok s) /\
  (forall year, 1 <= year -> 1 <= year mod 1000 <= 999 ->
     formatHebrewYear year = toHebrewNumeral (year mod 1000) /\
     exists s, formatHebrewYear year = Ok s) /\
  (forall year, 0 < year -> year mod 1000 = 0 ->
     formatHebrewYear year
     = Throw (HebrewCalendarError (NumberOutOfRange 0) CALCULATION_ERROR)) /\
  (forall day month year, 0 < year -> year mod 1000 = 0 ->
     success (hebrewToGregorian lib day month year) = false) /\
  (forall date h, HDate_ofDate lib date = Ok h ->
     0 < getFullYear lib h -> getFullYear lib h mod 1000 = 0 ->
     success (gregorianToHebrew lib date) = false).
Proof.
  split; [|split; [|split; [|split]]].
  - intros year Hr. split; [reflexivity|].
    apply formatHebrewYear_ok. lia.
  - intros year Hy Hr. unfold formatHebrewYear.
    rewrite js_rem_nonneg by lia. split; [reflexivity|].
    apply toHebrewNumeral_returns, Hr.
  - apply formatHebrewYear_thousands.
  - intros day month year Hpos Hdiv.
    rewrite hebrewToGregorian_thousands by assumption. reflexivity.
  - apply gregorianToHebrew_thousands.
Qed.

Example formatHebrewYear_5785 :
  formatHebrewYear 5785 = toHebrewNumeral 785 /\
  is_ok (formatHebrewYear 5785) = true.
Proof. split; reflexivity. Qed.

Example formatHebrewYear_6000 :
  formatHebrewYear 6000
  = Throw (HebrewCalendarError (NumberOutOfRange 0) CALCULATION_ERROR) /\
  success (hebrewToGregorian HebcalModel.hebcal 1 7 6000) = false.
Proof. split; vm_compute; reflexivity. Qed.

Lemma isValidHebrewDate_bounds (lib : Hebcal) (day month year : Z) :
  isValidHebrewDate lib day month year = true ->
  1 <= day /\ 1 <= month <= 13 /\ 1 <= year.
Proof.
  unfold isValidHebrewDate, isValidHebrewDate_try.
  destruct (Z.ltb_spec day 1); [discriminate|].
  destruct (Z.ltb_spec month 1); [discriminate|].
  destruct (Z.gtb_spec month 13); [discriminate|].
  destruct (Z.ltb_spec year 1); [discriminate|]. lia.
Qed.

(** C2.  On a date that [isValidHebrewDate] accepts and whose year is
    divisible by 1000, [hebrewToGregorian] reports failure and hands back
    no Gregorian date, so the round trip yields nothing. *)
Theorem roundTrip_lost_on_thousands (lib : Hebcal) (day month year : Z) :
  isValidHebrewDate lib day month year = true ->
  year mod 1000 = 0 ->
  success (hebrewToGregorian lib day month year) = false /\
  cr_gregorianDate (hebrewToGregorian lib day month year) = None /\
  roundTrip lib day month year = None.
Proof.
  intros Hvalid Hdiv.
  destruct (isValidHebrewDate_bounds _ _ _ _ Hvalid) as (_ & _ & Hy).
  unfold roundTrip.
  rewrite hebrewToGregorian_thousands by lia. repeat split.
Qed.

Lemma roundTrip_lost_on_thousands_witness :
  isValidHebrewDate HebcalModel.hebcal 1 1 6000 = true /\
  6000 mod 1000 = 0 /\
  roundTrip HebcalModel.hebcal 1 1 6000 = None.
Proof.
  split; [vm_compute; reflexivity|]. split; [reflexivity|].
  apply (roundTrip_lost_on_thousands HebcalModel.hebcal 1 1 6000);
    vm_compute; reflexivity.
Defined.

(** Away from the years divisible by 1000 the glue adds nothing that
    could break the round trip: if the dependency maps the Gregorian date
    it produced back to the same day, month and year, so do the two
    conversion functions, the month being reported by its name. *)
Lemma roundTrip_of_library (lib : Hebcal) (day month year : Z)
    (h h' : hdate lib) (g : Date) :
  1 <= day <= 999 -> 1 <= month <= 13 -> 1 <= js_rem year 1000 ->
  HDate_ofHebrew lib day month year = Ok h ->
  greg lib h = Ok g ->
  HDate_ofDate lib g = Ok h' ->
  getDate lib h' = day -> getMonth lib h' = month ->
  getFullYear lib h' = year ->
  roundTrip lib day month year = Some (day, monthName month, year).
Proof.
  intros Hd Hm Hy Hh Hg Hh' Hday Hmonth Hyear.
  destruct (HEBREW_MONTHS_defined month Hm) as [info Hinfo].
  destruct (toHebrewNumeral_returns day Hd) as [ds Hds].
  destruct (formatHebrewYear_ok year Hy) as [ys Hys].
  unfold roundTrip, hebrewToGregorian, hebrewToGregorian_try.
  rewrite Hh. cbn [rbind]. rewrite Hg. cbn [rbind].
  rewrite Hinfo, Hds. cbn [rbind]. rewrite Hys. cbn.
  unfold gregorianToHebrew, gregorianToHebrew_try.
  rewrite Hh'. cbn [rbind]. rewrite Hday, Hmonth, Hyear.
  rewrite Hinfo, Hds. cbn [rbind]. rewrite Hys. cbn.
  unfold monthName. rewrite Hinfo. reflexivity.
Qed.

Lemma roundTrip_of_library_witness :
  roundTrip HebcalModel.hebcal 1 7 5784
  = Some (1, monthName 7, 5784).
Proof.
  eapply (roundTrip_of_library HebcalModel.hebcal 1 7 5784);
    try (vm_compute; reflexivity); try lia.
  vm_compute. discriminate.
Defined.

(** The checks [hebrewToGregorian] does make, through its numerals and
    its month table: a day outside 1..999, a month outside 1..13 or a
    year below 1 is refused. *)
Lemma hebrewToGregorian_refuses (lib : Hebcal) (day month year : Z) :
  day < 1 \/ 999 < day \/ month < 1 \/ 13 < month \/ year < 1 ->
  success (hebrewToGregorian lib day month year) = false.
Proof.
  intros Hbad. unfold hebrewToGregorian, hebrewToGregorian_try.
  destruct (HDate_ofHebrew lib day month year) as [h|e]; [|reflexivity].
  cbn [rbind]. destruct (greg lib h) as [g|e]; [|reflexivity].
  cbn [rbind].
  destruct (HEBREW_MONTHS month) as [info|] eqn:Hinfo; [|reflexivity].
  assert (Hm : 1 <= month <= 13).
  { unfold HEBREW_MONTHS in Hinfo.
    repeat match type of Hinfo with
           | (if ?a =? ?b then _ else _) = _ =>
               destruct (Z.eqb_spec a b); [lia|]
           end.
    discriminate. }
  destruct (Z_lt_le_dec day 1);
    [rewrite toHebrewNumeral_throws by lia; reflexivity|].
  destruct (Z_lt_le_dec 999 day);
    [rewrite toHebrewNumeral_throws by lia; reflexivity|].
  destruct (toHebrewNumeral day); [|reflexivity].
  cbn [rbind]. unfold formatHebrewYear.
  rewrite toHebrewNumeral_throws; [reflexivity|].
  left. unfold js_rem. pose proof (Z.rem_nonpos year 1000). lia.
Qed.

(** C3.  [hebrewToGregorian] itself never compares the day with the
    length of the month nor month 13 with the leap year: whenever the
    [HDate] constructor hands back a date, and day, month and year can be
    written out, it reports success with that date's Gregorian day. *)
Theorem hebrewToGregorian_accepts (lib : Hebcal) (day month year : Z)
    (h : hdate lib) (g : Date) :
  HDate_ofHebrew lib day month year = Ok h ->
  greg lib h = Ok g ->
  1 <= day <= 999 -> 1 <= month <= 13 -> 1 <= js_rem year 1000 ->
  success (hebrewToGregorian lib day month year) = true /\
  cr_gregorianDate (hebrewToGregorian lib day month year) = Some g.
Proof.
  intros Hh Hg Hd Hm Hy.
  destruct (HEBREW_MONTHS_defined month Hm) as [info Hinfo].
  destruct (toHebrewNumeral_returns day Hd) as [ds Hds].
  destruct (formatHebrewYear_ok year Hy) as [ys Hys].
  unfold hebrewToGregorian, hebrewToGregorian_try.
  rewrite Hh. cbn [rbind]. rewrite Hg. cbn [rbind].
  rewrite Hinfo, Hds. cbn [rbind]. rewrite Hys. cbn. split; reflexivity.
Qed.

Lemma hebrewToGregorian_accepts_witness :
  isValidHebrewDate HebcalModel.hebcal 1 13 5785 = false /\
  success (hebrewToGregorian HebcalModel.hebcal 1 13 5785) = true /\
  isValidHebrewDate HebcalModel.hebcal 30 2 5784 = false /\
  success (hebrewToGregorian HebcalModel.hebcal 30 2 5784) = true.
Proof.
  split; [vm_compute; reflexivity|]. split.
  - eapply (hebrewToGregorian_accepts HebcalModel.hebcal 1 13 5785);
      try (vm_compute; reflexivity); try lia.
    vm_compute. discriminate.
  - split; [vm_compute; reflexivity|].
    eapply (hebrewToGregorian_accepts HebcalModel.hebcal 30 2 5784);
      try (vm_compute; reflexivity); try lia.
    vm_compute. discriminate.
Defined.

(** ** Gematria *)

(** The digit-sum loop ends on a single digit for every value a letter
    or a short word can have. *)
Lemma reduceToSingleDigit_range (n : Z) :
  0 <= n < 1000 -> 0 <= reduceToSingleDigit n <= 9.
Proof.
  intros Hn.
  assert (H : forallb (fun k => (0 <=? reduceToSingleDigit k)
                                && (reduceToSingleDigit k <=? 9))
                (seqZ 0 1000) = true) by (vm_compute; reflexivity).
  pose proof (forallb_seqZ _ _ _ H n ltac:(lia)) as Hk. cbv beta in Hk.
  apply andb_true_iff in Hk as [H0 H9].
  apply Z.leb_le in H0, H9. lia.
Qed.

Lemma cleanText_no_letters (text : jsstring) :
  (forall c, In c text -> isHebrewLetter c = false) -> cleanText text = [].
Proof.
  unfold cleanText. induction text as [|c text IH]; intros Hno.
  - reflexivity.
  - cbn [List.filter].
    destruct (negb (isNikudOrPunctuation c)).
    + cbn [List.filter]. rewrite (Hno c) by (left; reflexivity).
      apply IH. intros c' Hc'. apply Hno. right. exact Hc'.
    + apply IH. intros c' Hc'. apply Hno. right. exact Hc'.
Qed.

Lemma letter_is_kept (c : Z) :
  isHebrewLetter c = true -> isNikudOrPunctuation c = false.
Proof.
  unfold isHebrewLetter, isNikudOrPunctuation. intros H.
  apply andb_true_iff in H as [H1 H2].
  apply Z.leb_le in H1, H2.
  repeat match goal with
         | |- context [?a <=? ?b] => destruct (Z.leb_spec a b); try lia
         | |- context [?a =? ?b] => destruct (Z.eqb_spec a b); try lia
         end; reflexivity.
Qed.

Lemma cleanText_letters (text : jsstring) : cleanText text = lettersOf text.
Proof.
  unfold cleanText, lettersOf. induction text as [|c text IH].
  - reflexivity.
  - cbn [List.filter]. destruct (isHebrewLetter c) eqn:Hc.
    + rewrite (letter_is_kept c Hc). cbn [negb List.filter].
      rewrite Hc, IH. reflexivity.
    + destruct (negb (isNikudOrPunctuation c)); cbn [List.filter];
        rewrite ?Hc; exact IH.
Qed.

Lemma GEMATRIA_VALUES_letter (c : Z) :
  isHebrewLetter c = true -> exists v, GEMATRIA_VALUES c = Some v /\ 1 <= v.
Proof.
  intros Hc. unfold isHebrewLetter in Hc.
  apply andb_true_iff in Hc as [H1 H2]. apply Z.leb_le in H1, H2.
  assert (H : forallb (fun k => match GEMATRIA_VALUES k with
                                | Some v => 1 <=? v
                                | None => false
                                end) (seqZ 0x05D0 27) = true) by reflexivity.
  pose proof (forallb_seqZ _ _ _ H c ltac:(lia)) as Hk. cbv beta in Hk.
  destruct (GEMATRIA_VALUES c) as [v|]; [|discriminate].
  exists v. split; [reflexivity|]. apply Z.leb_le, Hk.
Qed.

Lemma calculateStandardGematria_total (letters : list Z) :
  Forall (fun c => isHebrewLetter c = true) letters ->
  exists n, calculateStandardGematria letters = Ok n.
Proof.
  unfold calculateStandardGematria. generalize 0 at 1. generalize 0.
  induction letters as [|c letters IH]; intros sum index Hall.
  - exists sum. reflexivity.
  - inversion Hall as [|? ? Hc Hrest]; subst.
    destruct (GEMATRIA_VALUES_letter c Hc) as (v & Hv & _).
    cbn [reduce_throwing]. rewrite Hv. cbn [rbind]. apply IH, Hrest.
Qed.

(** The standard method returns on every text that has a Hebrew letter. *)
Lemma calculateGematria_standard_total (text : jsstring) :
  cleanText text <> [] ->
  exists r n, calculateGematria text STANDARD = Ok r /\ gc_value r = Some n.
Proof.
  intros Hne. unfold calculateGematria, calculateGematria_try.
  destruct (cleanText text) as [|c letters] eqn:Hclean; [congruence|].
  destruct (calculateStandardGematria_total (c :: letters)) as [n Hn].
  { rewrite <- Hclean, cleanText_letters. unfold lettersOf.
    apply List.Forall_forall. intros x Hx. apply List.filter_In in Hx.
    tauto. }
  rewrite Hn. cbn [rbind]. eexists. exists n. split; reflexivity.
Qed.

(** C7.  Under the standard method the value of chet-yod is 18 and the
    value of shin-lamed-vav-final mem is 376, each final letter having
    the value of its base letter; a text whose cleaned form is empty,
    which is the case whenever it holds no Hebrew letter, makes
    [calculateGematria] throw with the message that no Hebrew letters
    were found, under every method. *)
Theorem calculateGematria_standard_values :
  (exists r, calculateGematria [chet; yod] STANDARD = Ok r /\
             gc_value r = Some 18) /\
  (exists r, calculateGematria [shin; lamed; vav; final_mem] STANDARD = Ok r /\
             gc_value r = Some 376) /\
  (GEMATRIA_VALUES final_kaf = GEMATRIA_VALUES kaf /\
   GEMATRIA_VALUES final_mem = GEMATRIA_VALUES mem /\
   GEMATRIA_VALUES final_nun = GEMATRIA_VALUES nun /\
   GEMATRIA_VALUES final_pe = GEMATRIA_VALUES pe /\
   GEMATRIA_VALUES final_tsadi = GEMATRIA_VALUES tsadi) /\
  (forall text m,
     cleanText text = [] \/ (forall c, In c text -> isHebrewLetter c = false) ->
     calculateGematria text m
     = Throw (HebrewCalendarError
                (GematriaCalculationFailed NoHebrewLettersFound)
                CALCULATION_ERROR)).
Proof.
  split; [eexists; split; reflexivity|].
  split; [eexists; split; reflexivity|].
  split; [repeat split|].
  intros text m Hempty.
  assert (Hclean : cleanText text = []).
  { destruct Hempty as [H|H]; [exact H|apply cleanText_no_letters, H]. }
  unfold calculateGematria, calculateGematria_try. rewrite Hclean.
  reflexivity.
Qed.

(** ** The restriction classifier *)

Lemma restrictionsOf_shabbat (e : EnhancedHebrewDate) (z : Zmanim) :
  isShabbat e = true -> isFastDay e = false ->
  noAuctions (restrictionsOf e z) = true /\
  overrideAllowed (restrictionsOf e z) = false.
Proof.
  intros Hs Hf. unfold restrictionsOf. rewrite Hs, Hf.
  destruct (isYomTov e), (isRoshChodesh e); split; reflexivity.
Qed.

(** A Saturday that is also Rosh Chodesh, no other flag set. *)
Lemma restrictionsOf_shabbat_rosh_chodesh (e : EnhancedHebrewDate) (z : Zmanim) :
  isShabbat e = true -> isRoshChodesh e = true ->
  isYomTov e = false -> isFastDay e = false ->
  restrictionsOf e z = shabbatBlock.
Proof.
  intros Hs Hr Hy Hf. unfold restrictionsOf. rewrite Hs, Hr, Hy, Hf.
  reflexivity.
Qed.

(** With the holiday flags unset only three verdicts are left. *)
Lemma restrictionsOf_without_holidays (e : EnhancedHebrewDate) (z : Zmanim) :
  isYomTov e = false -> isFastDay e = false ->
  restrictionsOf e z
  = if isShabbat e then shabbatBlock
    else if isRoshChodesh e then roshChodeshRestriction
    else regularDay.
Proof.
  intros Hy Hf. unfold restrictionsOf. rewrite Hy, Hf.
  destruct (isShabbat e), (isRoshChodesh e); reflexivity.
Qed.

(** Shabbat and Yom Tov together: the later rule decides, the verdict
    is the Yom Tov block. *)
Lemma restrictionsOf_shabbat_yom_tov (e : EnhancedHebrewDate) (z : Zmanim) :
  isShabbat e = true -> isYomTov e = true -> isFastDay e = false ->
  restrictionsOf e z = yomTovBlock.
Proof.
  intros Hs Hy Hf. unfold restrictionsOf. rewrite Hs, Hy, Hf.
  rewrite andb_false_r. reflexivity.
Qed.

(** ** The cache *)

Ltac run_method :=
  unfold HebrewCalendarService.gregorianToHebrew,
    HebrewCalendarService.hebrewToGregorian,
    HebrewCalendarService.getEnhancedDate,
    HebrewCalendarService.getZmanim,
    HebrewCalendarService.enrichWithHolidayInfo,
    bind, ret, throw, lift, readCache, writeCache;
  cbn [fst snd cacheEnabled withCache].

Lemma cacheSound_empty (lib : Hebcal) : cacheSound lib emptyCache.
Proof.
  constructor; cbn; intros *; rewrite lookup_empty; discriminate.
Qed.

Lemma cacheSound_delete (lib : Hebcal) (key : CacheKey) (c : Cache) :
  cacheSound lib c -> cacheSound lib (cacheDelete key c).
Proof.
  intros [Hg Hh He Hz].
  destruct key; constructor; cbn; intros *; try solve [eauto];
    rewrite lookup_delete; case_decide; solve [discriminate | eauto].
Qed.

Lemma cacheSound_set_greg_to_heb (lib : Hebcal) (c : Cache) (k : Z)
    (h : HebrewDate) :
  cacheSound lib c -> gregorianToHebrew_try lib k = Ok h ->
  cacheSound lib (set_greg_to_heb k h c).
Proof.
  intros [Hg Hh He Hz] Hk. constructor; cbn; intros *; try solve [eauto].
  rewrite lookup_insert. case_decide; [|solve [eauto]].
  intros [= <-]. subst. exact Hk.
Qed.

Lemma cacheSound_set_heb_to_greg (lib : Hebcal) (c : Cache) (d m y : Z)
    (h : HebrewDate) (g : Date) :
  cacheSound lib c -> hebrewToGregorian_try lib d m y = Ok (h, g) ->
  cacheSound lib (set_heb_to_greg (d, m, y) g c).
Proof.
  intros [Hg Hh He Hz] Hk. constructor; cbn; intros *; try solve [eauto].
  rewrite lookup_insert. case_decide as Heq; [|solve [eauto]].
  intros [= <-]. injection Heq as <- <- <-. eauto.
Qed.

Lemma cacheSound_set_enhanced (lib : Hebcal) (c : Cache) (k : Z)
    (e : EnhancedHebrewDate) :
  cacheSound lib c -> getEnhancedHebrewDate lib k = Ok e ->
  cacheSound lib (set_enhanced k e c).
Proof.
  intros [Hg Hh He Hz] Hk. constructor; cbn; intros *; try solve [eauto].
  rewrite lookup_insert. case_decide; [|solve [eauto]].
  intros [= <-]. subst. exact Hk.
Qed.

Lemma cacheSound_set_zmanim (lib : Hebcal) (c : Cache) (date : Date)
    (loc : Location) (z : Zmanim) :
  cacheSound lib c -> getZmanim_try lib date loc = Ok z ->
  cacheSound lib (set_zmanim (zmanimKey date loc) z c).
Proof.
  intros [Hg Hh He Hz] Hk. constructor; cbn; intros *; try solve [eauto].
  rewrite lookup_insert. case_decide; [|solve [eauto]].
  intros [= <-]. subst. eauto.
Qed.

(** What each memoised method returns on a sound cache, and that it
    leaves the cache sound. *)
Lemma gregorianToHebrew_sound (lib : Hebcal) (config : HebrewCalendarConfig)
    (date : Date) (c : Cache) :
  cacheSound lib c ->
  cacheSound lib (snd (HebrewCalendarService.gregorianToHebrew lib config date c))
  /\ fst (HebrewCalendarService.gregorianToHebrew lib config date c)
     = match gregorianToHebrew_try lib date with
       | Ok h => Ok h
       | Throw e => Throw (HebrewCalendarError (exn_message e) CALCULATION_ERROR)
       end.
Proof.
  intros Hc. run_method. unfold gregorianToHebrew.
  destruct (cacheEnabled config) eqn:Hen.
  - destruct (c_greg_to_heb c !! date) as [hit|] eqn:Hhit.
    + cbn. split; [exact Hc|].
      rewrite (sound_greg_to_heb _ _ Hc _ _ Hhit). reflexivity.
    + destruct (gregorianToHebrew_try lib date) as [h|e] eqn:Htry; cbn.
      * split; [|reflexivity].
        apply cacheSound_set_greg_to_heb; assumption.
      * split; [exact Hc|reflexivity].
  - destruct (gregorianToHebrew_try lib date) as [h|e] eqn:Htry; cbn;
      (split; [exact Hc|reflexivity]).
Qed.

Lemma hebrewToGregorian_sound (lib : Hebcal) (config : HebrewCalendarConfig)
    (day month year : Z) (c : Cache) :
  cacheSound lib c ->
  cacheSound lib
    (snd (HebrewCalendarService.hebrewToGregorian lib config day month year c))
  /\ fst (HebrewCalendarService.hebrewToGregorian lib config day month year c)
     = match hebrewToGregorian_try lib day month year with
       | Ok (_, g) => Ok g
       | Throw e => Throw (HebrewCalendarError (exn_message e) CALCULATION_ERROR)
       end.
Proof.
  intros Hc. run_method. unfold hebrewToGregorian.
  destruct (cacheEnabled config) eqn:Hen.
  - destruct (c_heb_to_greg c !! (day, month, year)) as [hit|] eqn:Hhit.
    + cbn. split; [exact Hc|].
      destruct (sound_heb_to_greg _ _ Hc _ _ _ _ Hhit) as [h Hh].
      rewrite Hh. reflexivity.
    + destruct (hebrewToGregorian_try lib day month year) as [[h g]|e] eqn:Htry;
        cbn.
      * split; [|reflexivity].
        eapply cacheSound_set_heb_to_greg; eassumption.
      * split; [exact Hc|reflexivity].
  - destruct (hebrewToGregorian_try lib day month year) as [[h g]|e] eqn:Htry;
      cbn; (split; [exact Hc|reflexivity]).
Qed.

Lemma getEnhancedDate_sound (lib : Hebcal) (config : HebrewCalendarConfig)
    (date : Date) (c : Cache) :
  cacheSound lib c ->
  cacheSound lib (snd (HebrewCalendarService.getEnhancedDate lib config date c))
  /\ fst (HebrewCalendarService.getEnhancedDate lib config date c)
     = getEnhancedHebrewDate lib date.
Proof.
  intros Hc. run_method.
  destruct (cacheEnabled config) eqn:Hen.
  - destruct (c_enhanced c !! date) as [hit|] eqn:Hhit.
    + cbn. split; [exact Hc|].
      rewrite (sound_enhanced _ _ Hc _ _ Hhit). reflexivity.
    + destruct (getEnhancedHebrewDate lib date) as [e|x] eqn:Htry; cbn.
      * split; [|reflexivity]. apply cacheSound_set_enhanced; assumption.
      * split; [exact Hc|reflexivity].
  - destruct (getEnhancedHebrewDate lib date) as [e|x] eqn:Htry; cbn;
      (split; [exact Hc|reflexivity]).
Qed.

Lemma getZmanim_sound (lib : Hebcal) (config : HebrewCalendarConfig)
    (date : Date) (location : option Location) (c : Cache) :
  cacheSound lib c ->
  cacheSound lib
    (snd (HebrewCalendarService.getZmanim lib config date location c))
  /\ (forall z,
        fst (HebrewCalendarService.getZmanim lib config date location c) = Ok z ->
        exists date' loc',
          zmanimKey date' loc' = zmanimKey date (locationOr config location) /\
          getZmanim_try lib date' loc' = Ok z).
Proof.
  intros Hc. run_method.
  set (loc := locationOr config location).
  destruct (cacheEnabled config) eqn:Hen.
  - destruct (c_zmanim c !! zmanimKey date loc) as [hit|] eqn:Hhit.
    + cbn. split; [exact Hc|]. intros z [= <-].
      exact (sound_zmanim _ _ Hc _ _ Hhit).
    + destruct (getZmanim_try lib date loc) as [z|x] eqn:Htry; cbn.
      * split; [apply cacheSound_set_zmanim; assumption|].
        intros z' [= <-]. eauto.
      * split; [exact Hc|discriminate].
  - destruct (getZmanim_try lib date loc) as [z|x] eqn:Htry; cbn.
    + split; [exact Hc|]. intros z' [= <-]. eauto.
    + split; [exact Hc|discriminate].
Qed.

Lemma bind_sound {A B} (lib : Hebcal) (m : M A) (k : A -> M B) (c : Cache) :
  cacheSound lib (snd (m c)) ->
  (forall a c', cacheSound lib c' -> cacheSound lib (snd (k a c'))) ->
  cacheSound lib (snd (bind m k c)).
Proof.
  intros Hm Hk. unfold bind. destruct (m c) as [[a|e] c']; cbn in *; auto.
Qed.

Lemma getAuctionRestrictions_sound (lib : Hebcal)
    (config : HebrewCalendarConfig) (date : Date)
    (location : option Location) (c : Cache) :
  cacheSound lib c ->
  cacheSound lib
    (snd (HebrewCalendarService.getAuctionRestrictions lib config date
            location c)).
Proof.
  intros Hc. unfold HebrewCalendarService.getAuctionRestrictions.
  apply bind_sound; [apply getEnhancedDate_sound, Hc|].
  intros e c1 Hc1. apply bind_sound; [apply getZmanim_sound, Hc1|].
  intros z c2 Hc2. exact Hc2.
Qed.

Lemma cacheAfter_sound (lib : Hebcal) (config : HebrewCalendarConfig)
    (call : Call) (c : Cache) :
  cacheSound lib c -> cacheSound lib (cacheAfter lib config call c).
Proof.
  intros Hc. destruct call; cbn [cacheAfter].
  - apply gregorianToHebrew_sound, Hc.
  - apply hebrewToGregorian_sound, Hc.
  - apply getEnhancedDate_sound, Hc.
  - apply getZmanim_sound, Hc.
  - apply getAuctionRestrictions_sound, Hc.
  - unfold HebrewCalendarService.isAuctionPermitted.
    apply bind_sound; [apply getAuctionRestrictions_sound, Hc|].
    intros r c1 Hc1. exact Hc1.
  - apply cacheSound_empty.
  - apply cacheSound_delete, Hc.
Qed.

(** The invariant of the cache, by induction on the run that built it. *)
Lemma reachable_sound (lib : Hebcal) (c : Cache) :
  reachable lib c -> cacheSound lib c.
Proof.
  induction 1 as [|config call c _ IH].
  - apply cacheSound_empty.
  - apply cacheAfter_sound, IH.
Qed.

(** On the three methods whose key determines their input, the cache is
    invisible: enabling it changes no returned value, whatever runs came
    before. *)
Lemma gregorianToHebrew_transparent (lib : Hebcal)
    (config : HebrewCalendarConfig) (date : Date) (c : Cache) :
  reachable lib c ->
  fst (HebrewCalendarService.gregorianToHebrew lib (withCache true config)
         date c)
  = fst (HebrewCalendarService.gregorianToHebrew lib (withCache false config)
           date c).
Proof.
  intros Hc. apply reachable_sound in Hc.
  rewrite (proj2 (gregorianToHebrew_sound lib _ date c Hc)).
  rewrite (proj2 (gregorianToHebrew_sound lib _ date c Hc)). reflexivity.
Qed.

Lemma hebrewToGregorian_transparent (lib : Hebcal)
    (config : HebrewCalendarConfig) (day month year : Z) (c : Cache) :
  reachable lib c ->
  fst (HebrewCalendarService.hebrewToGregorian lib (withCache true config)
         day month year c)
  = fst (HebrewCalendarService.hebrewToGregorian lib (withCache false config)
           day month year c).
Proof.
  intros Hc. apply reachable_sound in Hc.
  rewrite (proj2 (hebrewToGregorian_sound lib _ day month year c Hc)).
  rewrite (proj2 (hebrewToGregorian_sound lib _ day month year c Hc)).
  reflexivity.
Qed.

Lemma getEnhancedDate_transparent (lib : Hebcal)
    (config : HebrewCalendarConfig) (date : Date) (c : Cache) :
  reachable lib c ->
  fst (HebrewCalendarService.getEnhancedDate lib (withCache true config)
         date c)
  = fst (HebrewCalendarService.getEnhancedDate lib (withCache false config)
           date c).
Proof.
  intros Hc. apply reachable_sound in Hc.
  rewrite (proj2 (getEnhancedDate_sound lib _ date c Hc)).
  rewrite (proj2 (getEnhancedDate_sound lib _ date c Hc)). reflexivity.
Qed.

(** With the cache disabled [getZmanim] is the plain computation. *)
Lemma getZmanim_uncached (lib : Hebcal) (config : HebrewCalendarConfig)
    (date : Date) (location : option Location) (c : Cache) :
  HebrewCalendarService.getZmanim lib (withCache false config) date location c
  = (getZmanim_try lib date (locationOr config location), c).
Proof.
  run_method. unfold locationOr. cbn [defaultLocation].
  destruct (getZmanim_try lib date _); reflexivity.
Qed.

(** C8.  The key of [getZmanim] holds the calendar day, the latitude and
    the longitude, while the value it stores also holds the instant it
    was asked for.  With the cache enabled, a second call for another
    instant of the same day is answered with the first call's value,
    whose [date] field is the first instant; with the cache disabled it
    is answered with the second instant.  The two answers differ. *)
Theorem getZmanim_cache_not_transparent (lib : Hebcal)
    (config : HebrewCalendarConfig) (d1 d2 : Date)
    (location : option Location) (z1 z2 : Zmanim) :
  localDay d1 = localDay d2 -> d1 <> d2 ->
  getZmanim_try lib d1 (locationOr config location) = Ok z1 ->
  getZmanim_try lib d2 (locationOr config location) = Ok z2 ->
  let first_call :=
    HebrewCalendarService.getZmanim lib (withCache true config) d1 location
      emptyCache in
  fst first_call = Ok z1 /\
  fst (HebrewCalendarService.getZmanim lib (withCache true config) d2
         location (snd first_call)) = Ok z1 /\
  fst (HebrewCalendarService.getZmanim lib (withCache false config) d2
         location (snd first_call)) = Ok z2 /\
  z_date z1 = d1 /\ z_date z2 = d2 /\ z1 <> z2.
Proof.
  intros Hday Hne H1 H2 first_call.
  assert (Hd1 : z_date z1 = d1).
  { unfold getZmanim_try in H1.
    destruct (HebcalZmanim_of lib d1 _); [|discriminate].
    injection H1 as <-. reflexivity. }
  assert (Hd2 : z_date z2 = d2).
  { unfold getZmanim_try in H2.
    destruct (HebcalZmanim_of lib d2 _); [|discriminate].
    injection H2 as <-. reflexivity. }
  assert (Hfirst : first_call
                   = (Ok z1, set_zmanim (zmanimKey d1 (locationOr config location))
                                z1 emptyCache)).
  { subst first_call. run_method.
    replace (locationOr (withCache true config) location)
      with (locationOr config location) by (destruct location; reflexivity).
    cbn [c_zmanim emptyCache]. rewrite lookup_empty, H1. reflexivity. }
  rewrite Hfirst. cbn [fst snd].
  split; [reflexivity|]. split; [|split; [|split; [|split]]].
  - run_method.
    replace (locationOr (withCache true config) location)
      with (locationOr config location) by (destruct location; reflexivity).
    replace (zmanimKey d2 (locationOr config location))
      with (zmanimKey d1 (locationOr config location))
      by (unfold zmanimKey; rewrite Hday; reflexivity).
    cbn [c_zmanim set_zmanim]. rewrite lookup_insert_eq. reflexivity.
  - rewrite getZmanim_uncached. cbn [fst]. exact H2.
  - exact Hd1.
  - exact Hd2.
  - intros Heq. apply Hne. rewrite <- Hd1, <- Hd2, Heq. reflexivity.
Qed.

(** The same confusion between two places that share latitude and
    longitude: the second is answered with the name and time zone of the
    first. *)
Lemma getZmanim_cache_confuses_locations (lib : Hebcal)
    (config : HebrewCalendarConfig) (date : Date) (loc1 loc2 : Location)
    (z1 : Zmanim) :
  latitude loc1 = latitude loc2 -> longitude loc1 = longitude loc2 ->
  getZmanim_try lib date loc1 = Ok z1 ->
  fst (HebrewCalendarService.getZmanim lib (withCache true config) date
         (Some loc2)
         (snd (HebrewCalendarService.getZmanim lib (withCache true config)
                 date (Some loc1) emptyCache))) = Ok z1 /\
  z_location z1 = loc_name loc1 /\ z_timezone z1 = loc_timezone loc1.
Proof.
  intros Hlat Hlon H1.
  assert (Hz : z_location z1 = loc_name loc1 /\
               z_timezone z1 = loc_timezone loc1).
  { unfold getZmanim_try in H1.
    destruct (HebcalZmanim_of lib date loc1); [|discriminate].
    injection H1 as <-. split; reflexivity. }
  split; [|exact Hz].
  run_method. cbn [locationOr c_zmanim emptyCache].
  rewrite lookup_empty, H1. cbn [fst snd c_zmanim set_zmanim].
  replace (zmanimKey date loc2) with (zmanimKey date loc1)
    by (unfold zmanimKey; rewrite Hlat, Hlon; reflexivity).
  rewrite lookup_insert_eq. reflexivity.
Qed.

Lemma getZmanim_cache_not_transparent_witness :
  let config := createDefaultConfig JERUSALEM in
  let d1 := midnightOf 738780 + 8 * 3600000 in
  let d2 := midnightOf 738780 + 20 * 3600000 in
  let first_call :=
    HebrewCalendarService.getZmanim HebcalModel.hebcal
      (withCache true config) d1 None emptyCache in
  exists z1 z2,
    fst (HebrewCalendarService.getZmanim HebcalModel.hebcal
           (withCache true config) d2 None (snd first_call)) = Ok z1 /\
    fst (HebrewCalendarService.getZmanim HebcalModel.hebcal
           (withCache false config) d2 None (snd first_call)) = Ok z2 /\
    z_date z1 = d1 /\ z_date z2 = d2 /\ z1 <> z2.
Proof.
  intros config d1 d2 first_call.
  edestruct (getZmanim_cache_not_transparent HebcalModel.hebcal config
               d1 d2 None) as (_ & Hon & Hoff & Hd1 & Hd2 & Hne).
  - vm_compute. reflexivity.
  - vm_compute. discriminate.
  - vm_compute. reflexivity.
  - vm_compute. reflexivity.
  - eexists. eexists. split; [exact Hon|]. split; [exact Hoff|].
    split; [exact Hd1|]. split; [exact Hd2|exact Hne].
Defined.

(** ** Clock texts and windows *)

Lemma timeHHMM_clock (d : Date) :
  timeHHMM d = clockText (getHours d) (getMinutes d).
Proof. reflexivity. Qed.

Lemma getHours_range (d : Date) : 0 <= getHours d < 24.
Proof.
  unfold getHours, msPerDay.
  pose proof (Z.mod_pos_bound d 86400000 ltac:(lia)).
  split; [apply Z.div_pos; lia|apply Z.div_lt_upper_bound; lia].
Qed.

Lemma getMinutes_range (d : Date) : 0 <= getMinutes d < 60.
Proof.
  unfold getMinutes.
  pose proof (Z.mod_pos_bound d 3600000 ltac:(lia)).
  split; [apply Z.div_pos; lia|apply Z.div_lt_upper_bound; lia].
Qed.

(** On clock texts the order of strings is the order of times. *)
Lemma js_le_clockText (h1 m1 h2 m2 : Z) :
  0 <= h1 < 24 -> 0 <= m1 < 60 -> 0 <= h2 < 24 -> 0 <= m2 < 60 ->
  js_le (clockText h1 m1) (clockText h2 m2) = true
  <-> h1 * 60 + m1 <= h2 * 60 + m2.
Proof.
  intros Hh1 Hm1 Hh2 Hm2. unfold clockText, pad2, colon.
  cbn [app js_le]. change (58 <? 58) with false. cbv iota.
  repeat match goal with
         | |- context [?a <? ?b] => destruct (Z.ltb_spec a b)
         end;
    (split; [intros Hle; try discriminate Hle|intros Hle; try reflexivity]);
    Z.div_mod_to_equations; lia.
Qed.

Lemma clockText_includes_colon (h m : Z) : includes (clockText h m) colon = true.
Proof.
  unfold includes, clockText, pad2. cbn [app existsb].
  rewrite (Z.eqb_refl colon). rewrite !orb_true_r. reflexivity.
Qed.

Lemma getAuctionRestrictions_inv (lib : Hebcal)
    (config : HebrewCalendarConfig) (date : Date)
    (location : option Location) (c c' : Cache) (r : AuctionRestrictions) :
  HebrewCalendarService.getAuctionRestrictions lib config date location c
  = (Ok r, c') ->
  exists e z c1,
    HebrewCalendarService.getEnhancedDate lib config date c = (Ok e, c1) /\
    HebrewCalendarService.getZmanim lib config date location c1 = (Ok z, c') /\
    r = restrictionsOf e z.
Proof.
  unfold HebrewCalendarService.getAuctionRestrictions, bind at 1.
  destruct (HebrewCalendarService.getEnhancedDate lib config date c)
    as [[e|x] c1] eqn:He; [|discriminate].
  unfold bind at 1.
  destruct (HebrewCalendarService.getZmanim lib config date location c1)
    as [[z|x] c2] eqn:Hz; [|discriminate].
  unfold ret. intros [= <- <-]. exists e, z, c1. repeat split. exact Hz.
Qed.

(** ** The holiday flags *)

Lemma getEnhancedHebrewDate_flags (lib : Hebcal) (date : Date)
    (e : EnhancedHebrewDate) :
  getEnhancedHebrewDate lib date = Ok e ->
  isYomTov e = false /\ isFastDay e = false /\ isCholedMoed e = false.
Proof.
  unfold getEnhancedHebrewDate.
  destruct (success (gregorianToHebrew lib date)); [|discriminate].
  destruct (cr_hebrewDate (gregorianToHebrew lib date)); [|discriminate].
  destruct (HDate_ofDate lib date); [|discriminate].
  cbn [rbind]. intros [= <-]. repeat split.
Qed.

Lemma getEnhancedHebrewDate_returns (lib : Hebcal) (date : Date) :
  (exists e, getEnhancedHebrewDate lib date = Ok e)
  <-> success (gregorianToHebrew lib date) = true.
Proof.
  unfold getEnhancedHebrewDate, gregorianToHebrew.
  destruct (gregorianToHebrew_try lib date) as [h|x] eqn:Htry;
    cbn [success cr_hebrewDate].
  - split; [reflexivity|]. intros _.
    unfold gregorianToHebrew_try in Htry.
    destruct (HDate_ofDate lib date) as [hd|]; [|discriminate].
    cbn [rbind]. eauto.
  - split; [|discriminate]. intros [e He]. discriminate He.
Qed.

Lemma verdicts_distinct :
  shabbatBlock <> yomTovBlock /\ roshChodeshRestriction <> yomTovBlock /\
  regularDay <> yomTovBlock /\
  forall z, shabbatBlock <> fastDayRestriction z /\
            roshChodeshRestriction <> fastDayRestriction z /\
            regularDay <> fastDayRestriction z.
Proof.
  repeat split; intros H; apply (f_equal specialConsiderations) in H;
    vm_compute in H; discriminate H.
Qed.

(** C9.  On every cache the service can hold, an enhanced date returned
    by [getEnhancedDate] has [isYomTov], [isFastDay] and [isCholedMoed]
    unset, and one is returned exactly when the conversion of the date
    succeeds; the restrictions returned by [getAuctionRestrictions] are
    then the Shabbat block, the Rosh Chodesh restriction or the regular
    day, never the Yom Tov block nor a fast-day window. *)
Theorem getEnhancedDate_holiday_flags_unset (lib : Hebcal)
    (config : HebrewCalendarConfig) (date : Date)
    (location : option Location) (c : Cache) :
  reachable lib c ->
  (forall e c',
     HebrewCalendarService.getEnhancedDate lib config date c = (Ok e, c') ->
     isYomTov e = false /\ isFastDay e = false /\ isCholedMoed e = false) /\
  ((exists e c',
      HebrewCalendarService.getEnhancedDate lib config date c = (Ok e, c'))
   <-> success (gregorianToHebrew lib date) = true) /\
  (forall r c',
     HebrewCalendarService.getAuctionRestrictions lib config date location c
     = (Ok r, c') ->
     (r = shabbatBlock \/ r = roshChodeshRestriction \/ r = regularDay) /\
     r <> yomTovBlock /\ forall z, r <> fastDayRestriction z).
Proof.
  intros Hc. apply reachable_sound in Hc.
  pose proof (proj2 (getEnhancedDate_sound lib config date c Hc)) as Hfst.
  split; [|split].
  - intros e c' He. rewrite He in Hfst. cbn [fst] in Hfst.
    apply (getEnhancedHebrewDate_flags lib date). symmetry. exact Hfst.
  - rewrite <- getEnhancedHebrewDate_returns. rewrite <- Hfst. split.
    + intros (e & c' & He). exists e. rewrite He. reflexivity.
    + intros [e He].
      destruct (HebrewCalendarService.getEnhancedDate lib config date c)
        as [r c'].
      cbn [fst] in He. subst r. eauto.
  - intros r c' Hr.
    destruct (getAuctionRestrictions_inv _ _ _ _ _ _ _ Hr)
      as (e & z & c1 & He & _ & ->).
    rewrite He in Hfst. cbn [fst] in Hfst.
    destruct (getEnhancedHebrewDate_flags lib date e (eq_sym Hfst))
      as (Hy & Hf & _).
    rewrite (restrictionsOf_without_holidays e z Hy Hf).
    destruct verdicts_distinct as (Hs & Hr' & Hd & Hfast).
    destruct (isShabbat e); [|destruct (isRoshChodesh e)];
      (split; [tauto|]); (split; [assumption|]); intros z'; apply Hfast.
Qed.

Lemma getEnhancedDate_holiday_flags_unset_witness :
  let config := createDefaultConfig JERUSALEM in
  let roshHashanah := midnightOf 738779 + 10 * 3600000 in
  let cache :=
    cacheAfter HebcalModel.hebcal config (CallGetEnhancedDate roshHashanah)
      emptyCache in
  exists e c',
    HebrewCalendarService.getEnhancedDate HebcalModel.hebcal config
      roshHashanah cache = (Ok e, c') /\
    isShabbat e = true /\
    isYomTov e = false /\ isFastDay e = false /\ isCholedMoed e = false.
Proof.
  intros config roshHashanah cache.
  destruct (getEnhancedDate_holiday_flags_unset HebcalModel.hebcal config
              roshHashanah None cache
              (reachable_step _ _ _ _ (reachable_new _)))
    as (Hflags & Hret & _).
  destruct (proj2 Hret ltac:(vm_compute; reflexivity)) as (e & c' & He).
  exists e, c'. split; [exact He|].
  split; [|exact (Hflags e c' He)].
  vm_compute in He. injection He as <- _. reflexivity.
Defined.

(** ** The verdict of a date *)

Lemma getEnhancedHebrewDate_isShabbat (lib : Hebcal) (date : Date)
    (e : EnhancedHebrewDate) :
  getEnhancedHebrewDate lib date = Ok e -> isShabbat e = (getDay date =? 6).
Proof.
  unfold getEnhancedHebrewDate.
  destruct (success (gregorianToHebrew lib date)); [|discriminate].
  destruct (cr_hebrewDate (gregorianToHebrew lib date)); [|discriminate].
  destruct (HDate_ofDate lib date); cbn [rbind]; [|discriminate].
  intros [= <-]. reflexivity.
Qed.

Lemma roshChodesh_window_never_applies (dateTime : Date) :
  permissionFor roshChodeshRestriction dateTime
  = permissionFor regularDay dateTime.
Proof.
  unfold permissionFor, roshChodeshRestriction, regularDay.
  cbn [noAuctions restrictedHours firstRestriction startTime endTime].
  unfold isTimeBetween.
  assert (Hno : includes (js "shacharit") colon = false)
    by (vm_compute; reflexivity).
  rewrite Hno. reflexivity.
Qed.


(** What [getAuctionRestrictions] returns on a cache the service can
    hold: the classification of an enhanced date of that very date,
    whose holiday flags are unset. *)
Lemma getAuctionRestrictions_classifies (lib : Hebcal)
    (config : HebrewCalendarConfig) (date : Date)
    (location : option Location) (c c' : Cache) (r : AuctionRestrictions) :
  cacheSound lib c ->
  HebrewCalendarService.getAuctionRestrictions lib config date location c
  = (Ok r, c') ->
  exists e z c1,
    HebrewCalendarService.getEnhancedDate lib config date c = (Ok e, c1) /\
    getEnhancedHebrewDate lib date = Ok e /\
    r = restrictionsOf e z /\
    isYomTov e = false /\ isFastDay e = false /\
    isShabbat e = (getDay date =? 6).
Proof.
  intros Hc Hr.
  destruct (getEnhancedDate_sound lib config date c Hc) as [_ Hfst].
  destruct (getAuctionRestrictions_inv _ _ _ _ _ _ _ Hr)
    as (e & z & c1 & He & _ & ->).
  rewrite He in Hfst. cbn [fst] in Hfst. symmetry in Hfst.
  destruct (getEnhancedHebrewDate_flags _ _ _ Hfst) as (Hyt & Hfd & _).
  exists e, z, c1. split; [exact He|]. split; [exact Hfst|].
  split; [reflexivity|]. split; [exact Hyt|]. split; [exact Hfd|].
  exact (getEnhancedHebrewDate_isShabbat _ _ _ Hfst).
Qed.



(** C6.  The first half of what is asked of [isAuctionPermitted] holds:
    on a blocked day the answer is a refusal with the reason of the day.
    The second half does not.  On every cache the service can hold, the
    only restrictions with a window are those of Rosh Chodesh, whose
    window runs from [shacharit] to [after_hallel]; [isTimeBetween]
    compares clock texts only and answers no for a window given by
    names, so on such a day every instant is answered with a plain
    permission, the instants of the morning prayers included. *)
Theorem isAuctionPermitted_ignores_named_window (lib : Hebcal)
    (config : HebrewCalendarConfig) (dateTime : Date)
    (location : option Location) (c c' : Cache) (r : AuctionRestrictions) :
  reachable lib c ->
  HebrewCalendarService.getAuctionRestrictions lib config dateTime location c
  = (Ok r, c') ->
  exists p,
    HebrewCalendarService.isAuctionPermitted lib config dateTime location c
    = (Ok p, c') /\
    (noAuctions r = true ->
     permitted p = false /\
     reason p = specialConsiderations r /\
     reasonHebrew p = specialConsiderationsHebrew r) /\
    (noAuctions r = false ->
     permitted p = true /\ reason p = js "Auctions permitted" /\
     reasonHebrew p = permittedHebrew) /\
    (restrictedHours r <> [] ->
     noAuctions r = false /\
     restrictedHours r
     = [ {| startTime := js "shacharit"; endTime := js "after_hallel";
            description := js "Limited during morning prayers with Hallel";
            descriptionHebrew := hallelWindowHebrew |} ]).
Proof.
  intros Hreach Hr. apply reachable_sound in Hreach.
  exists (permissionFor r dateTime). split.
  - unfold HebrewCalendarService.isAuctionPermitted, bind.
    rewrite Hr. reflexivity.
  - destruct (getAuctionRestrictions_classifies _ _ _ _ _ _ _ Hreach Hr)
      as (e & z & c1 & _ & _ & -> & Hyt & Hfd & _).
    rewrite (restrictionsOf_without_holidays e z Hyt Hfd).
    destruct (isShabbat e); [|destruct (isRoshChodesh e)];
      rewrite ?roshChodesh_window_never_applies.
    + split; [intros _; repeat split|].
      split; [discriminate|]. intros H. exfalso. apply H. reflexivity.
    + split; [discriminate|].
      split; [intros _; repeat split|]. intros _. split; reflexivity.
    + split; [discriminate|].
      split; [intros _; repeat split|].
      intros H. exfalso. apply H. reflexivity.
Qed.

Lemma isAuctionPermitted_ignores_named_window_witness :
  let config := createDefaultConfig JERUSALEM in
  let roshChodesh := midnightOf 738809 + 7 * 3600000 in
  exists r p c',
    HebrewCalendarService.getAuctionRestrictions HebcalModel.hebcal config
      roshChodesh None emptyCache = (Ok r, c') /\
    HebrewCalendarService.isAuctionPermitted HebcalModel.hebcal config
      roshChodesh None emptyCache = (Ok p, c') /\
    r = roshChodeshRestriction /\ List.length (restrictedHours r) = 1%nat /\
    permitted p = true /\ reason p = js "Auctions permitted".
Proof.
  intros config roshChodesh.
  destruct (HebrewCalendarService.getAuctionRestrictions HebcalModel.hebcal
              config roshChodesh None emptyCache) as [[r|x] c'] eqn:Hr.
  - destruct (isAuctionPermitted_ignores_named_window HebcalModel.hebcal
                config roshChodesh None emptyCache c' r (reachable_new _) Hr)
      as (p & Hp & _ & Hpermit & _).
    assert (Hrc : r = roshChodeshRestriction).
    { vm_compute in Hr. injection Hr as <- _. reflexivity. }
    exists r, p, c'. split; [reflexivity|]. split; [exact Hp|].
    split; [exact Hrc|]. subst r. split; [reflexivity|].
    destruct (Hpermit eq_refl) as (Hperm & Hreason & _).
    split; assumption.
  - vm_compute in Hr. discriminate Hr.
Defined.

(* ================================================================== *)
(** * Further results *)

(** ** Numerals and gematria together *)

Lemma numeralValue_range (n : Z) : 1 <= n <= 999 -> numeralValue n = Some n.
Proof.
  intros Hn.
  assert (H : forallb (fun k => bool_decide (numeralValue k = Some k))
                (seqZ 1 999) = true) by (vm_compute; reflexivity).
  pose proof (forallb_seqZ _ _ _ H n ltac:(lia)) as Hk. cbv beta in Hk.
  apply bool_decide_eq_true in Hk. exact Hk.
Qed.

(** X1.  Reading a numeral back: for every [n] from 1 to 999 the
    standard gematria of [toHebrewNumeral n] is [n]; hence two different
    numbers never share a numeral. *)
Theorem numeral_gematria_round_trip :
  (forall n, 1 <= n <= 999 ->
     exists s r, toHebrewNumeral n = Ok s /\
                 calculateGematria s STANDARD = Ok r /\
                 gc_value r = Some n) /\
  (forall n m, 1 <= n <= 999 -> 1 <= m <= 999 ->
     toHebrewNumeral n = toHebrewNumeral m -> n = m).
Proof.
  split.
  - intros n Hn. pose proof (numeralValue_range n Hn) as Hv.
    unfold numeralValue, gematriaOf in Hv.
    destruct (toHebrewNumeral n) as [s|]; [|discriminate].
    destruct (calculateGematria s STANDARD) as [r|] eqn:Hr; [|discriminate].
    exists s, r. split; [reflexivity|]. split; [exact Hr|exact Hv].
  - intros n m Hn Hm Heq.
    pose proof (numeralValue_range n Hn) as Hvn.
    pose proof (numeralValue_range m Hm) as Hvm.
    unfold numeralValue in Hvn, Hvm. rewrite Heq in Hvn.
    congruence.
Qed.

(** X2.  The table lookups of [toHebrewNumeral] never miss: for every
    [n] from 1 to 999 the numeral starts with a Hebrew letter, ends with
    a letter or a mark, and holds nothing but Hebrew letters, geresh and
    gershayim, between one and five letters of them. *)
Theorem toHebrewNumeral_alphabet (n : Z) :
  1 <= n <= 999 ->
  exists c s,
    toHebrewNumeral n = Ok (c :: s) /\
    isHebrewLetter c = true /\
    Forall (fun x => isHebrewLetter x = true \/ isMark x = true) s /\
    (1 <= List.length (lettersOf (c :: s)) <= 5)%nat.
Proof.
  intros Hn.
  assert (H : forallb
                (fun k =>
                   match toHebrewNumeral k with
                   | Ok (c :: s) =>
                       isHebrewLetter c
                       && forallb (fun x => isHebrewLetter x || isMark x) s
                       && (Nat.leb 1 (List.length (lettersOf (c :: s))))
                       && (Nat.leb (List.length (lettersOf (c :: s))) 5)
                   | _ => false
                   end) (seqZ 1 999) = true) by (vm_compute; reflexivity).
  pose proof (forallb_seqZ _ _ _ H n ltac:(lia)) as Hk. cbv beta in Hk.
  destruct (toHebrewNumeral n) as [[|c s]|]; try discriminate.
  apply andb_true_iff in Hk as [Hk H4].
  apply andb_true_iff in Hk as [Hk H1].
  apply andb_true_iff in Hk as [Hc Hs].
  exists c, s. split; [reflexivity|]. split; [exact Hc|]. split.
  - apply List.Forall_forall. intros x Hx.
    rewrite forallb_forall in Hs. specialize (Hs x Hx).
    apply orb_true_iff in Hs. exact Hs.
  - apply Nat.leb_le in H1, H4. lia.
Qed.

Lemma toHebrewNumeral_alphabet_witness :
  exists c s, toHebrewNumeral 784 = Ok (c :: s) /\ isHebrewLetter c = true.
Proof.
  destruct (toHebrewNumeral_alphabet 784 ltac:(lia)) as (c & s & H & Hc & _).
  exists c, s. split; assumption.
Defined.

(** ** The gematria methods *)

Lemma letterChecks_all (c : Z) : isHebrewLetter c = true -> letterChecks c = true.
Proof.
  intros Hc. unfold isHebrewLetter in Hc.
  apply andb_true_iff in Hc as [H1 H2]. apply Z.leb_le in H1, H2.
  assert (H : forallb letterChecks (seqZ 0x05D0 27) = true)
    by (vm_compute; reflexivity).
  exact (forallb_seqZ _ _ _ H c ltac:(lia)).
Qed.

Lemma letter_facts (c : Z) :
  isHebrewLetter c = true ->
  GEMATRIA_VALUES c = Some (letterValue c) /\
  1 <= letterValue c <= 400 /\
  1 <= smallLetterValue c <= 9 /\
  smallLetterValue c mod 9 = letterValue c mod 9 /\
  1 <= ordinalLetterValue c <= 22 /\
  (indexOf hebrewAlphabet c <> -1 \/ exists fp, finalMap c = Some fp) /\
  (finalBonus c = 0 \/ finalBonus c = 480 \/ finalBonus c = 560 \/
   finalBonus c = 650 \/ finalBonus c = 720 \/ finalBonus c = 810).
Proof.
  intros Hc. pose proof (letterChecks_all c Hc) as H.
  unfold letterChecks in H.
  apply andb_true_iff in H as [H Hbonus].
  apply andb_true_iff in H as [H Hpos].
  apply andb_true_iff in H as [H Ho2].
  apply andb_true_iff in H as [H Ho1].
  apply andb_true_iff in H as [H Hmod].
  apply andb_true_iff in H as [H Hs2].
  apply andb_true_iff in H as [H Hs1].
  apply andb_true_iff in H as [H Hv2].
  apply andb_true_iff in H as [H Hv1].
  apply bool_decide_eq_true in H.
  apply Z.leb_le in Hv1, Hv2, Hs1, Hs2, Ho1, Ho2.
  apply Z.eqb_eq in Hmod.
  split; [exact H|]. split; [lia|]. split; [lia|]. split; [assumption|].
  split; [lia|]. split.
  - apply orb_true_iff in Hpos as [Hp|Hp].
    + left. apply negb_true_iff, Z.eqb_neq in Hp. exact Hp.
    + right. destruct (finalMap c); [eauto|discriminate].
  - repeat (apply orb_true_iff in Hbonus as [Hbonus|Hbonus]);
      apply Z.eqb_eq in Hbonus; tauto.
Qed.

Lemma cleanText_Forall (text : jsstring) :
  Forall (fun c => isHebrewLetter c = true) (cleanText text).
Proof.
  rewrite cleanText_letters. unfold lettersOf.
  apply List.Forall_forall. intros x Hx. apply List.filter_In in Hx. tauto.
Qed.

Lemma reduce_throwing_weights (f : Z -> Z -> Z -> result Z) (w : Z -> Z)
    (letters : list Z) :
  (forall sum letter index,
     In letter letters -> f sum letter index = Ok (sum + w letter)) ->
  forall index sum,
    reduce_throwing f letters index sum = Ok (sum + sumOver w letters).
Proof.
  induction letters as [|c letters IH]; intros Hf index sum.
  - cbn. f_equal. lia.
  - cbn [reduce_throwing sumOver List.fold_right].
    rewrite (Hf sum c index) by (left; reflexivity). cbn [rbind].
    rewrite IH by (intros; apply Hf; right; assumption).
    fold (sumOver w letters). f_equal. lia.
Qed.

Lemma sumOver_bounds (w : Z -> Z) (lo hi : Z) (letters : list Z) :
  Forall (fun c => lo <= w c <= hi) letters ->
  lo * Z.of_nat (List.length letters) <= sumOver w letters
  <= hi * Z.of_nat (List.length letters).
Proof.
  induction 1 as [|c letters Hc _ IH]; [cbn; lia|].
  cbn [sumOver List.fold_right List.length]. fold (sumOver w letters).
  lia.
Qed.

Lemma sumOver_mod (w1 w2 : Z -> Z) (letters : list Z) :
  Forall (fun c => w1 c mod 9 = w2 c mod 9) letters ->
  sumOver w1 letters mod 9 = sumOver w2 letters mod 9.
Proof.
  induction 1 as [|c letters Hc _ IH]; [reflexivity|].
  cbn [sumOver List.fold_right].
  fold (sumOver w1 letters). fold (sumOver w2 letters).
  rewrite (Z.add_mod (w1 c)), (Z.add_mod (w2 c)) by lia.
  rewrite Hc, IH. reflexivity.
Qed.

Lemma calculateStandardGematria_sum (letters : list Z) :
  Forall (fun c => isHebrewLetter c = true) letters ->
  calculateStandardGematria letters = Ok (sumOver letterValue letters).
Proof.
  intros Hall. unfold calculateStandardGematria.
  rewrite (reduce_throwing_weights _ letterValue); [reflexivity|].
  intros sum letter index Hin. rewrite List.Forall_forall in Hall.
  destruct (letter_facts letter (Hall letter Hin)) as (-> & _). reflexivity.
Qed.

Lemma calculateSmallGematria_sum (letters : list Z) :
  Forall (fun c => isHebrewLetter c = true) letters ->
  calculateSmallGematria letters = Ok (sumOver smallLetterValue letters).
Proof.
  intros Hall. unfold calculateSmallGematria.
  rewrite (reduce_throwing_weights _ smallLetterValue); [reflexivity|].
  intros sum letter index Hin. rewrite List.Forall_forall in Hall.
  destruct (letter_facts letter (Hall letter Hin)) as (Hv & _).
  unfold smallLetterValue, letterValue. rewrite Hv. reflexivity.
Qed.

Lemma calculateOrdinalFrom_sum (letters : list Z) (s : Z) :
  Forall (fun c => isHebrewLetter c = true) letters ->
  calculateOrdinalFrom letters (Some s)
  = Some (s + sumOver ordinalLetterValue letters).
Proof.
  intros Hall. revert s.
  induction Hall as [|c letters Hc _ IH]; intros s.
  - cbn. f_equal. lia.
  - cbn [calculateOrdinalFrom sumOver List.fold_right].
    fold (sumOver ordinalLetterValue letters).
    destruct (letter_facts c Hc) as (_ & _ & _ & _ & _ & Hpos & _).
    set (tail := sumOver ordinalLetterValue letters) in *.
    unfold ordinalLetterValue.
    destruct (Z.eqb_spec (indexOf hebrewAlphabet c) (-1)) as [Hm|Hm].
    + destruct Hpos as [Hp|[fp Hfp]]; [contradiction|].
      rewrite Hfp, IH. f_equal. lia.
    + cbn [option_map]. rewrite IH. f_equal. lia.
Qed.

(** The large method along a suffix [rest] of the text [all]. *)
Lemma calculateLargeGematria_suffix (all rest : list Z) (index sum : Z) :
  Forall (fun c => isHebrewLetter c = true) rest ->
  index + Z.of_nat (List.length rest) = Z.of_nat (List.length all) ->
  reduce_throwing (fun sum letter index =>
    let isFinalLetter := LARGE_GEMATRIA_FINALS letter in
    let isAtEnd := index =? Z.of_nat (List.length all) - 1 in
    match isFinalLetter with
    | Some big => if isAtEnd then Ok (sum + big) else
        match GEMATRIA_VALUES letter with
        | None => Throw (unknownLetter letter)
        | Some v => Ok (sum + v)
        end
    | None =>
        match GEMATRIA_VALUES letter with
        | None => Throw (unknownLetter letter)
        | Some v => Ok (sum + v)
        end
    end) rest index sum
  = Ok (sum + sumOver letterValue rest
        + match rest with
          | [] => 0
          | _ :: _ => finalBonus (List.last rest 0)
          end).
Proof.
  intros Hall. revert index sum.
  induction Hall as [|c rest Hc Hrest IH]; intros index sum Hlen.
  - cbn. f_equal. lia.
  - cbn [reduce_throwing sumOver List.fold_right].
    fold (sumOver letterValue rest).
    destruct (letter_facts c Hc) as (Hv & _).
    cbn [List.length] in Hlen. cbv zeta.
    destruct rest as [|c' rest'].
    + replace (index =? Z.of_nat (List.length all) - 1) with true
        by (symmetry; apply Z.eqb_eq; cbn [List.length] in Hlen; lia).
      cbn [List.last sumOver List.fold_right]. unfold finalBonus.
      rewrite Hv. destruct (LARGE_GEMATRIA_FINALS c) as [big|];
        cbn [rbind reduce_throwing]; f_equal; lia.
    + replace (index =? Z.of_nat (List.length all) - 1) with false
        by (symmetry; apply Z.eqb_neq; cbn [List.length] in Hlen; lia).
      rewrite Hv.
      destruct (LARGE_GEMATRIA_FINALS c); cbn [rbind];
        rewrite IH by lia;
        change (List.last (c :: c' :: rest') 0) with (List.last (c' :: rest') 0);
        f_equal; lia.
Qed.

Lemma calculateLargeGematria_sum (letters : list Z) :
  Forall (fun c => isHebrewLetter c = true) letters ->
  calculateLargeGematria letters
  = Ok (sumOver letterValue letters
        + match letters with
          | [] => 0
          | _ :: _ => finalBonus (List.last letters 0)
          end).
Proof.
  intros Hall. unfold calculateLargeGematria.
  etransitivity;
    [apply (calculateLargeGematria_suffix letters letters 0 0 Hall); lia|].
  f_equal.
Qed.

Lemma calculateGematria_value (text : jsstring) (m : GematriaMethod) :
  cleanText text <> [] ->
  exists r, calculateGematria text m = Ok r /\
            originalText r = text /\ method r = m /\
            gc_value r = Some (methodValue m (cleanText text)).
Proof.
  intros Hne. pose proof (cleanText_Forall text) as Hall.
  unfold calculateGematria, calculateGematria_try.
  destruct (cleanText text) as [|c letters] eqn:Hclean; [congruence|].
  destruct m; unfold methodValue.
  - rewrite (calculateStandardGematria_sum _ Hall). cbn [rbind].
    eexists. repeat split.
  - rewrite (calculateSmallGematria_sum _ Hall). cbn [rbind].
    eexists. repeat split.
  - rewrite (calculateLargeGematria_sum _ Hall). cbn [rbind].
    eexists. repeat split.
  - unfold calculateOrdinalGematria.
    rewrite (calculateOrdinalFrom_sum _ 0 Hall). cbn [rbind].
    eexists. repeat split.
  - unfold calculateReducedGematria.
    rewrite (calculateStandardGematria_sum _ Hall). cbn [rbind].
    eexists. repeat split.
Qed.

Lemma isValidHebrewText_clean (text : jsstring) :
  isValidHebrewText text = true <-> cleanText text <> [].
Proof.
  unfold isValidHebrewText. destruct (cleanText text); cbn; split;
    try congruence; try discriminate; reflexivity.
Qed.

(** X3.  [isValidHebrewText] tells exactly when [calculateGematria]
    returns: on a text it accepts every one of the five methods returns
    a calculation for that text and method whose value is a number, and
    on a text it refuses every method throws the no-Hebrew-letters
    error. *)
Theorem isValidHebrewText_decides (text : jsstring) (m : GematriaMethod) :
  (isValidHebrewText text = true ->
   exists r n, calculateGematria text m = Ok r /\
               originalText r = text /\ method r = m /\
               gc_value r = Some n) /\
  (isValidHebrewText text = false ->
   calculateGematria text m
   = Throw (HebrewCalendarError
              (GematriaCalculationFailed NoHebrewLettersFound)
              CALCULATION_ERROR)).
Proof.
  split.
  - intros Hv. apply isValidHebrewText_clean in Hv.
    destruct (calculateGematria_value text m Hv) as (r & Hr & Ht & Hm & Hval).
    eauto 8.
  - intros Hv. unfold isValidHebrewText in Hv.
    unfold calculateGematria, calculateGematria_try.
    destruct (cleanText text); [reflexivity|discriminate].
Qed.

(** X4.  The large method is the standard one plus what a final form in
    last place gains: 480, 560, 650, 720 or 810 for final kaf, mem, nun,
    pe, tsadi, and nothing otherwise; a final form elsewhere in the text
    counts as its base letter. *)
Theorem large_is_standard_plus_final (text : jsstring) :
  isValidHebrewText text = true ->
  exists s,
    gematriaOf text STANDARD = Some s /\
    gematriaOf text LARGE
    = Some (s + finalBonus (List.last (cleanText text) 0)) /\
    (finalBonus (List.last (cleanText text) 0) = 0 \/
     finalBonus (List.last (cleanText text) 0) = 480 \/
     finalBonus (List.last (cleanText text) 0) = 560 \/
     finalBonus (List.last (cleanText text) 0) = 650 \/
     finalBonus (List.last (cleanText text) 0) = 720 \/
     finalBonus (List.last (cleanText text) 0) = 810).
Proof.
  intros Hv. apply isValidHebrewText_clean in Hv.
  destruct (calculateGematria_value text STANDARD Hv) as (r1 & Hr1 & _ & _ & H1).
  destruct (calculateGematria_value text LARGE Hv) as (r2 & Hr2 & _ & _ & H2).
  exists (sumOver letterValue (cleanText text)).
  unfold gematriaOf. rewrite Hr1, Hr2. split; [exact H1|]. split; [exact H2|].
  pose proof (cleanText_Forall text) as Hall.
  rewrite List.Forall_forall in Hall.
  assert (Hlast : In (List.last (cleanText text) 0) (cleanText text)).
  { destruct (cleanText text) as [|c l] eqn:Hc; [congruence|].
    destruct (@exists_last _ (c :: l) ltac:(discriminate)) as (l' & x & ->).
    rewrite last_last. apply in_or_app. right. left. reflexivity. }
  apply (letter_facts _ (Hall _ Hlast)).
Qed.

Lemma large_is_standard_plus_final_witness :
  gematriaOf [alef; final_mem] STANDARD = Some 41 /\
  gematriaOf [alef; final_mem] LARGE = Some 601.
Proof.
  destruct (large_is_standard_plus_final [alef; final_mem]
              ltac:(vm_compute; reflexivity)) as (s & Hs & Hl & _).
  vm_compute in Hs. injection Hs as <-. split; [reflexivity|exact Hl].
Defined.

(** X5.  The small method gives a value between the number of letters
    and nine times that number, congruent to the standard value modulo
    9. *)
Theorem small_gematria_bounds (text : jsstring) :
  isValidHebrewText text = true ->
  exists s k,
    gematriaOf text STANDARD = Some s /\
    gematriaOf text SMALL = Some k /\
    Z.of_nat (List.length (cleanText text)) <= k
    <= 9 * Z.of_nat (List.length (cleanText text)) /\
    k mod 9 = s mod 9.
Proof.
  intros Hv. apply isValidHebrewText_clean in Hv.
  destruct (calculateGematria_value text STANDARD Hv) as (r1 & Hr1 & _ & _ & H1).
  destruct (calculateGematria_value text SMALL Hv) as (r2 & Hr2 & _ & _ & H2).
  exists (sumOver letterValue (cleanText text)),
         (sumOver smallLetterValue (cleanText text)).
  unfold gematriaOf. rewrite Hr1, Hr2. split; [exact H1|]. split; [exact H2|].
  pose proof (cleanText_Forall text) as Hall. split.
  - pose proof (sumOver_bounds smallLetterValue 1 9 (cleanText text)) as Hb.
    lapply Hb; [lia|].
    eapply List.Forall_impl; [|exact Hall]. intros c Hc.
    apply (letter_facts c Hc).
  - apply sumOver_mod. eapply List.Forall_impl; [|exact Hall]. intros c Hc.
    apply (letter_facts c Hc).
Qed.

Lemma small_gematria_bounds_witness :
  gematriaOf [chet; yod] STANDARD = Some 18 /\
  gematriaOf [chet; yod] SMALL = Some 9.
Proof.
  destruct (small_gematria_bounds [chet; yod] ltac:(vm_compute; reflexivity))
    as (s & k & Hs & Hk & _).
  vm_compute in Hs, Hk. injection Hs as <-. injection Hk as <-.
  split; reflexivity.
Defined.

(** X6.  The ordinal method never yields [NaN] on a text with Hebrew
    letters: its value lies between the number of letters and 22 times
    that number, each final form counting as its base letter. *)
Theorem ordinal_gematria_bounds (text : jsstring) :
  isValidHebrewText text = true ->
  exists k,
    gematriaOf text ORDINAL = Some k /\
    k = sumOver ordinalLetterValue (cleanText text) /\
    Z.of_nat (List.length (cleanText text)) <= k
    <= 22 * Z.of_nat (List.length (cleanText text)) /\
    ordinalLetterValue final_kaf = ordinalLetterValue kaf /\
    ordinalLetterValue final_mem = ordinalLetterValue mem /\
    ordinalLetterValue final_nun = ordinalLetterValue nun /\
    ordinalLetterValue final_pe = ordinalLetterValue pe /\
    ordinalLetterValue final_tsadi = ordinalLetterValue tsadi.
Proof.
  intros Hv. apply isValidHebrewText_clean in Hv.
  destruct (calculateGematria_value text ORDINAL Hv) as (r & Hr & _ & _ & H).
  exists (sumOver ordinalLetterValue (cleanText text)).
  unfold gematriaOf. rewrite Hr. split; [exact H|]. split; [reflexivity|].
  split; [|repeat split].
  pose proof (sumOver_bounds ordinalLetterValue 1 22 (cleanText text)) as Hb.
  lapply Hb; [lia|].
  eapply List.Forall_impl; [|exact (cleanText_Forall text)]. intros c Hc.
  apply (letter_facts c Hc).
Qed.

Lemma ordinal_gematria_bounds_witness :
  gematriaOf [alef; bet] ORDINAL = Some 3.
Proof.
  destruct (ordinal_gematria_bounds [alef; bet] ltac:(vm_compute; reflexivity))
    as (k & Hk & Hsum & _).
  rewrite Hk, Hsum. reflexivity.
Defined.

(** ** The digit-sum loop *)

Lemma digitSum_fold (d : Decimal.uint) (acc : Z) :
  List.fold_left (fun sum digit => sum + (digit - 48))
    (js (NilEmpty.string_of_uint d)) acc
  = acc + digitsOf d.
Proof.
  revert acc. induction d; intros acc;
    [cbn; lia|cbn -[Z.add Z.sub]; rewrite IHd; cbn [digitsOf]..];
    match goal with
    | |- context [Z.of_nat (nat_of_ascii ?a)] =>
        let v := eval vm_compute in (Z.of_nat (nat_of_ascii a)) in
        change (Z.of_nat (nat_of_ascii a)) with v
    end; lia.
Qed.

Lemma digitsOf_revapp (d d' : Decimal.uint) :
  digitsOf (Decimal.revapp d d') = digitsOf d + digitsOf d'.
Proof.
  revert d'. induction d; intros d'; cbn [Decimal.revapp digitsOf];
    rewrite ?IHd; cbn [digitsOf]; lia.
Qed.

(** A number is its digit sum plus a multiple of nine. *)
Lemma digitsOf_of_lu (l : Decimal.uint) :
  exists q, 0 <= q /\
    Z.of_N (DecimalPos.Unsigned.of_lu l) = digitsOf l + 9 * q /\
    0 <= digitsOf l /\
    (0 < Z.of_N (DecimalPos.Unsigned.of_lu l) -> 0 < digitsOf l) /\
    (10 <= Z.of_N (DecimalPos.Unsigned.of_lu l) -> 1 <= q).
Proof.
  induction l as [|l IH|l IH|l IH|l IH|l IH|l IH|l IH|l IH|l IH|l IH];
    [exists 0; cbn; lia|..];
    destruct IH as (q & Hq & Hn & Hd & Hpos & Hten);
    exists (digitsOf l + 10 * q);
    cbn [DecimalPos.Unsigned.of_lu digitsOf];
    rewrite ?N2Z.inj_add, ?N2Z.inj_mul; cbn [Z.of_N]; lia.
Qed.

Lemma digitSum_spec (n : Z) :
  0 < n ->
  exists q, 0 <= q /\ n = digitSum n + 9 * q /\ 0 < digitSum n /\
            (10 <= n -> 1 <= q).
Proof.
  intros Hn. destruct n as [|p|p]; try lia.
  unfold digitSum, js_of_Z. cbn [Z.to_int NilZero.string_of_int].
  assert (Hstr : NilZero.string_of_uint (Pos.to_uint p)
                 = NilEmpty.string_of_uint (Pos.to_uint p)).
  { pose proof (DecimalPos.Unsigned.to_uint_nonnil p) as Hnil.
    destruct (Pos.to_uint p); [congruence|reflexivity..]. }
  rewrite Hstr, digitSum_fold, Z.add_0_l.
  pose proof (DecimalPos.Unsigned.of_to p) as Hof.
  rewrite DecimalPos.Unsigned.of_uint_alt in Hof.
  destruct (digitsOf_of_lu (Decimal.rev (Pos.to_uint p)))
    as (q & Hq & Hval & _ & Hpos & Hten).
  rewrite Hof in Hval, Hpos, Hten.
  unfold Decimal.rev in Hval, Hpos.
  rewrite digitsOf_revapp in Hval, Hpos. cbn [digitsOf Z.of_N] in *.
  exists q. repeat split; try lia; auto.
Qed.

Lemma reduceLoop_root (fuel : nat) (n : Z) :
  1 <= n -> (Z.to_nat n <= fuel + 9)%nat ->
  1 <= reduceLoop fuel n <= 9 /\ reduceLoop fuel n mod 9 = n mod 9.
Proof.
  revert n. induction fuel as [|fuel IH]; intros n Hn Hfuel.
  - cbn. split; [lia|reflexivity].
  - cbn [reduceLoop]. destruct (Z.gtb_spec n 9) as [Hbig|Hsmall].
    + destruct (digitSum_spec n ltac:(lia)) as (q & Hq & Hval & Hpos & Hten).
      specialize (Hten ltac:(lia)).
      destruct (IH (digitSum n) ltac:(lia) ltac:(lia)) as [Hr Hm].
      split; [exact Hr|]. rewrite Hm.
      rewrite Hval at 2. rewrite Z.mul_comm.
      rewrite Z.mod_add by lia. reflexivity.
    + split; [lia|reflexivity].
Qed.

Lemma reduceToSingleDigit_root (n : Z) :
  1 <= n ->
  1 <= reduceToSingleDigit n <= 9 /\ reduceToSingleDigit n mod 9 = n mod 9.
Proof.
  intros Hn. unfold reduceToSingleDigit. apply reduceLoop_root; lia.
Qed.

(** X7.  The reduced method returns the digital root of the standard
    value: a single digit from 1 to 9, congruent to the standard value
    modulo 9.  The loop of [reduceToSingleDigit] reaches it whatever the
    size of the number. *)
Theorem reduced_gematria_is_digital_root (text : jsstring) :
  isValidHebrewText text = true ->
  exists s k,
    gematriaOf text STANDARD = Some s /\
    gematriaOf text REDUCED = Some k /\
    k = reduceToSingleDigit s /\
    1 <= k <= 9 /\ k mod 9 = s mod 9.
Proof.
  intros Hv. apply isValidHebrewText_clean in Hv.
  destruct (calculateGematria_value text STANDARD Hv) as (r1 & Hr1 & _ & _ & H1).
  destruct (calculateGematria_value text REDUCED Hv) as (r2 & Hr2 & _ & _ & H2).
  exists (sumOver letterValue (cleanText text)),
         (reduceToSingleDigit (sumOver letterValue (cleanText text))).
  unfold gematriaOf. rewrite Hr1, Hr2.
  split; [exact H1|]. split; [exact H2|]. split; [reflexivity|].
  apply reduceToSingleDigit_root.
  pose proof (sumOver_bounds letterValue 1 400 (cleanText text)) as Hb.
  lapply Hb.
  - destruct (cleanText text); [congruence|]. cbn [List.length]. lia.
  - eapply List.Forall_impl; [|exact (cleanText_Forall text)]. intros c Hc.
    apply (letter_facts c Hc).
Qed.

Lemma reduced_gematria_is_digital_root_witness :
  gematriaOf [tav; vav; resh; he] STANDARD = Some 611 /\
  gematriaOf [tav; vav; resh; he] REDUCED = Some 8.
Proof.
  destruct (reduced_gematria_is_digital_root [tav; vav; resh; he]
              ltac:(vm_compute; reflexivity)) as (s & k & Hs & Hk & _).
  vm_compute in Hs. injection Hs as <-.
  split; [reflexivity|]. rewrite Hk. f_equal.
  vm_compute in Hk. injection Hk as <-. reflexivity.
Defined.

(** X8.  [calculateAllMethods] never throws.  On a text with Hebrew
    letters it reports all five methods, in the order of the enum, none
    of them [NaN]; on a text without Hebrew letters every method is
    skipped and the object stays empty. *)
Theorem calculateAllMethods_entries (text : jsstring) :
  (isValidHebrewText text = true ->
   calculateAllMethods text
   = List.map (fun m => (m, Some (methodValue m (cleanText text))))
       GematriaMethod_values) /\
  (isValidHebrewText text = false -> calculateAllMethods text = []).
Proof.
  split; intros Hv; unfold calculateAllMethods, GematriaMethod_values;
    cbn [List.fold_left List.map].
  - apply isValidHebrewText_clean in Hv.
    destruct (calculateGematria_value text STANDARD Hv) as (r1 & -> & _ & _ & ->).
    destruct (calculateGematria_value text SMALL Hv) as (r2 & -> & _ & _ & ->).
    destruct (calculateGematria_value text LARGE Hv) as (r3 & -> & _ & _ & ->).
    destruct (calculateGematria_value text ORDINAL Hv) as (r4 & -> & _ & _ & ->).
    destruct (calculateGematria_value text REDUCED Hv) as (r5 & -> & _ & _ & ->).
    reflexivity.
  - unfold calculateGematria, calculateGematria_try.
    unfold isValidHebrewText in Hv.
    destruct (cleanText text); [reflexivity|discriminate].
Qed.

(** ** Suggested multipliers *)

Lemma insertByValue_perm (m : GematriaMultiplier) (l : list GematriaMultiplier) :
  Permutation (insertByValue m l) (m :: l).
Proof.
  induction l as [|x l IH]; cbn [insertByValue]; [reflexivity|].
  destruct (value m <=? value x); [reflexivity|].
  rewrite IH. apply perm_swap.
Qed.

Lemma insertByValue_sorted (m : GematriaMultiplier)
    (l : list GematriaMultiplier) :
  StronglySorted byValue l -> StronglySorted byValue (insertByValue m l).
Proof.
  induction 1 as [|x l Hl IH Hx]; cbn [insertByValue].
  - constructor; constructor.
  - destruct (Z.leb_spec (value m) (value x)) as [Hle|Hgt].
    + constructor; [constructor; assumption|].
      constructor; [exact Hle|].
      eapply List.Forall_impl; [|exact Hx]. unfold byValue. intros; lia.
    + constructor; [exact IH|].
      eapply Permutation_Forall; [symmetry; apply insertByValue_perm|].
      constructor; [unfold byValue; lia|exact Hx].
Qed.

Lemma sortByValue_perm (l : list GematriaMultiplier) :
  Permutation (sortByValue l) l.
Proof.
  induction l as [|x l IH]; cbn; [reflexivity|].
  rewrite insertByValue_perm. constructor. exact IH.
Qed.

Lemma sortByValue_sorted (l : list GematriaMultiplier) :
  StronglySorted byValue (sortByValue l).
Proof.
  induction l as [|x l IH]; cbn; [constructor|].
  apply insertByValue_sorted, IH.
Qed.

(** The sort is stable: an array already in order comes back as it is. *)
Lemma sortByValue_stable (l : list GematriaMultiplier) :
  StronglySorted byValue l -> sortByValue l = l.
Proof.
  induction 1 as [|x l Hl IH Hx]; [reflexivity|].
  cbn [sortByValue List.fold_right]. fold (sortByValue l). rewrite IH.
  destruct l as [|y l']; [reflexivity|]. cbn [insertByValue].
  inversion Hx as [|? ? Hxy _]; subst. unfold byValue in Hxy.
  destruct (Z.leb_spec (value x) (value y)); [reflexivity|lia].
Qed.

(** Rounding moves an integer below 2^61 by 128 at most, and not at
    all below 2^53. *)
Lemma roundToDouble_near (n : Z) :
  0 <= n < 2 ^ 61 ->
  (n < 2 ^ 53 -> roundToDouble n = n) /\
  n - 128 <= roundToDouble n <= n + 128.
Proof.
  intros Hn. unfold roundToDouble. rewrite (Z.abs_eq n) by lia.
  destruct (Z.ltb_spec n (2 ^ 53)) as [Hlt|Hge]; [split; lia|].
  split; [lia|].
  rewrite (Z.sgn_pos n) by lia.
  assert (Hlo : 53 <= Z.log2 n) by (apply Z.log2_le_pow2; lia).
  assert (Hhi : Z.log2 n < 61) by (apply Z.log2_lt_pow2; lia).
  assert (Hcases : Z.log2 n - 52 = 1 \/ Z.log2 n - 52 = 2 \/
                   Z.log2 n - 52 = 3 \/ Z.log2 n - 52 = 4 \/
                   Z.log2 n - 52 = 5 \/ Z.log2 n - 52 = 6 \/
                   Z.log2 n - 52 = 7 \/ Z.log2 n - 52 = 8) by lia.
  destruct Hcases as [He|[He|[He|[He|[He|[He|[He|He]]]]]]]; rewrite He;
    repeat match goal with
           | |- context [2 ^ ?k] =>
               let v := eval vm_compute in (2 ^ k) in change (2 ^ k) with v
           end;
    repeat match goal with
           | |- context [?a <? ?b] => destruct (Z.ltb_spec a b)
           | |- context [Z.even ?a] => destruct (Z.even a)
           end;
    Z.div_mod_to_equations; lia.
Qed.

(** On a safe positive base amount and the values of the table, the
    rounded products are in the order of the values. *)
Lemma js_mul_order (b v1 v2 : Z) :
  0 < b < 2 ^ 53 -> 0 <= v1 <= 227 -> 0 <= v2 <= 227 ->
  (js_mul b v1 <=? js_mul b v2) = (v1 <=? v2).
Proof.
  intros Hb H1 H2. unfold js_mul.
  assert (Hp1 : 0 <= b * v1 < 2 ^ 61) by nia.
  assert (Hp2 : 0 <= b * v2 < 2 ^ 61) by nia.
  destruct (roundToDouble_near _ Hp1) as [Hx1 Hn1].
  destruct (roundToDouble_near _ Hp2) as [Hx2 Hn2].
  destruct (Z.eq_dec v1 v2) as [->|Hne].
  { rewrite !Z.leb_refl. reflexivity. }
  destruct (Z_le_gt_dec b 256) as [Hsmall|Hbig].
  - rewrite Hx1, Hx2 by nia.
    destruct (Z.leb_spec v1 v2), (Z.leb_spec (b * v1) (b * v2));
      try reflexivity; nia.
  - destruct (Z.leb_spec v1 v2) as [Hle|Hgt].
    + assert (b * v1 + b <= b * v2) by nia.
      apply Z.leb_le. lia.
    + assert (b * v2 + b <= b * v1) by nia.
      apply Z.leb_gt. lia.
Qed.

Lemma insertByValue_scale (b : Z) (m : GematriaMultiplier)
    (l : list GematriaMultiplier) :
  0 < b < 2 ^ 53 -> tableValue m -> List.Forall tableValue l ->
  insertByValue (scaleMultiplier b m) (List.map (scaleMultiplier b) l)
  = List.map (scaleMultiplier b) (insertByValue m l).
Proof.
  intros Hb Hm Hl. induction Hl as [|x l Hx Hl IH]; [reflexivity|].
  cbn [List.map insertByValue scaleMultiplier value].
  rewrite (js_mul_order b (value m) (value x) Hb Hm Hx).
  destruct (value m <=? value x); cbn [List.map]; [reflexivity|].
  f_equal. exact IH.
Qed.

Lemma insertByValue_tableValue (m : GematriaMultiplier)
    (l : list GematriaMultiplier) :
  tableValue m -> List.Forall tableValue l ->
  List.Forall tableValue (insertByValue m l).
Proof.
  intros Hm Hl.
  eapply Permutation_Forall; [symmetry; apply insertByValue_perm|].
  constructor; assumption.
Qed.

Lemma sortByValue_scale (b : Z) (l : list GematriaMultiplier) :
  0 < b < 2 ^ 53 -> List.Forall tableValue l ->
  sortByValue (List.map (scaleMultiplier b) l)
  = List.map (scaleMultiplier b) (sortByValue l).
Proof.
  intros Hb Hl. induction Hl as [|x l Hx Hl IH]; [reflexivity|].
  cbn [List.map sortByValue List.fold_right].
  fold (sortByValue (List.map (scaleMultiplier b) l)). fold (sortByValue l).
  rewrite IH. apply insertByValue_scale; [exact Hb|exact Hx|].
  eapply Permutation_Forall; [symmetry; apply sortByValue_perm|exact Hl].
Qed.

Lemma COMMON_MULTIPLIERS_tableValue :
  List.Forall tableValue (List.filter commonUse COMMON_MULTIPLIERS).
Proof.
  cbn. repeat (constructor; [unfold tableValue; cbn; lia|]). constructor.
Qed.

(** The product is rounded from 2^53 on: thirteen times the largest
    safe integer is 117093590311632883, and the double next to it ends
    in 880. *)
Example js_mul_rounds : js_mul (2 ^ 53 - 1) 13 = 117093590311632880.
Proof. vm_compute. reflexivity. Qed.

(** X9.  For a base amount among the safe integers,
    [getSuggestedMultipliers] returns the seven commonly used
    multipliers, each with the product of the base amount and its value
    as a double, in ascending order of the new value.  For a positive
    base amount that is always Ahavah, Chai, Double Chai, Emunah,
    Mitzvah, Tzedakah, Bracha, and the products are exact as long as the
    largest of them stays below 2^53; for the base amount 0 every value
    is 0 and the table order is kept. *)
Theorem getSuggestedMultipliers_sorted (baseAmount : Z) :
  isSafeInteger baseAmount = true ->
  StronglySorted byValue (getSuggestedMultipliers baseAmount) /\
  Permutation (getSuggestedMultipliers baseAmount)
    (List.map (scaleMultiplier baseAmount)
       (List.filter commonUse COMMON_MULTIPLIERS)) /\
  List.length (getSuggestedMultipliers baseAmount) = 7%nat /\
  (0 < baseAmount ->
   List.map (fun m => (nameEnglish m, value m))
     (getSuggestedMultipliers baseAmount)
   = [ (js "Ahavah", js_mul baseAmount 13);
       (js "Chai", js_mul baseAmount 18);
       (js "Double Chai", js_mul baseAmount 36);
       (js "Emunah", js_mul baseAmount 102);
       (js "Mitzvah", js_mul baseAmount 141);
       (js "Tzedakah", js_mul baseAmount 199);
       (js "Bracha", js_mul baseAmount 227) ]) /\
  (0 < baseAmount -> baseAmount * 227 < 2 ^ 53 ->
   List.map value (getSuggestedMultipliers baseAmount)
   = [ baseAmount * 13; baseAmount * 18; baseAmount * 36; baseAmount * 102;
       baseAmount * 141; baseAmount * 199; baseAmount * 227 ]) /\
  (baseAmount = 0 ->
   getSuggestedMultipliers baseAmount
   = List.map (scaleMultiplier 0) (List.filter commonUse COMMON_MULTIPLIERS)).
Proof.
  intros Hsafe. unfold isSafeInteger in Hsafe. apply Z.ltb_lt in Hsafe.
  unfold getSuggestedMultipliers.
  split; [apply sortByValue_sorted|]. split; [apply sortByValue_perm|].
  split; [rewrite (Permutation_length (sortByValue_perm _)); reflexivity|].
  assert (Hnames : 0 < baseAmount ->
            List.map (fun m => (nameEnglish m, value m))
              (sortByValue
                 (List.map (scaleMultiplier baseAmount)
                    (List.filter commonUse COMMON_MULTIPLIERS)))
            = [ (js "Ahavah", js_mul baseAmount 13);
                (js "Chai", js_mul baseAmount 18);
                (js "Double Chai", js_mul baseAmount 36);
                (js "Emunah", js_mul baseAmount 102);
                (js "Mitzvah", js_mul baseAmount 141);
                (js "Tzedakah", js_mul baseAmount 199);
                (js "Bracha", js_mul baseAmount 227) ]).
  { intros Hb.
    rewrite sortByValue_scale
      by (try apply COMMON_MULTIPLIERS_tableValue; lia).
    rewrite List.map_map. reflexivity. }
  split; [exact Hnames|]. split.
  - intros Hb Hexact. specialize (Hnames Hb).
    apply (f_equal (List.map snd)) in Hnames.
    rewrite List.map_map in Hnames. cbn [snd List.map] in Hnames.
    etransitivity; [exact Hnames|]. unfold js_mul.
    assert (Hid : forall v, 0 <= v <= 227 ->
                            roundToDouble (baseAmount * v) = baseAmount * v).
    { intros v Hv. apply roundToDouble_near; nia. }
    rewrite !Hid by lia. reflexivity.
  - intros ->. apply sortByValue_stable.
    assert (Hzero : forall m, value (scaleMultiplier 0 m) = 0)
      by (intros m; reflexivity).
    cbn [List.filter List.map COMMON_MULTIPLIERS commonUse].
    repeat (constructor;
            [|repeat constructor; unfold byValue; rewrite !Hzero; lia]).
    constructor.
Qed.

Lemma getSuggestedMultipliers_sorted_witness :
  List.map (fun m => (nameEnglish m, value m)) (getSuggestedMultipliers 100)
  = [ (js "Ahavah", 1300); (js "Chai", 1800); (js "Double Chai", 3600);
      (js "Emunah", 10200); (js "Mitzvah", 14100); (js "Tzedakah", 19900);
      (js "Bracha", 22700) ].
Proof.
  destruct (getSuggestedMultipliers_sorted 100 eq_refl)
    as (_ & _ & _ & Hnames & _).
  rewrite (Hnames ltac:(lia)). vm_compute. reflexivity.
Defined.

(** ** Validation and the conversion results *)

(** X10.  [isValidHebrewDate] accepts exactly the triples with day,
    month and year from 1 on, month at most 13, month 13 only when the
    leap-year query answers yes, and day at most what the days-in-month
    query answers; the leap-year query is made for month 13 only, and a
    query that throws makes the date invalid instead of raising. *)
Theorem isValidHebrewDate_iff (lib : Hebcal) (day month year : Z) :
  isValidHebrewDate lib day month year = true
  <-> 1 <= day /\ 1 <= month <= 13 /\ 1 <= year /\
      (month = 13 -> HebrewCalendar_isLeapYear lib year = Ok true) /\
      exists n, HebrewCalendar_daysInMonth lib month year = Ok n /\ day <= n.
Proof.
  unfold isValidHebrewDate, isValidHebrewDate_try, isHebrewLeapYear,
    getDaysInHebrewMonth.
  destruct (Z.ltb_spec day 1); cbn [orb];
    [split; [discriminate|intros; lia]|].
  destruct (Z.ltb_spec month 1); cbn [orb];
    [split; [discriminate|intros; lia]|].
  destruct (Z.gtb_spec month 13); cbn [orb];
    [split; [discriminate|intros; lia]|].
  destruct (Z.ltb_spec year 1); cbn [orb];
    [split; [discriminate|intros; lia]|].
  destruct (Z.eqb_spec month 13) as [Hm|Hm].
  - destruct (HebrewCalendar_isLeapYear lib year) as [[|]|x]; cbn.
    + destruct (HebrewCalendar_daysInMonth lib month year) as [n|x]; cbn.
      * rewrite Z.leb_le. split.
        -- intros Hd. repeat split; try lia. eauto.
        -- intros (_ & _ & _ & _ & n' & [= <-] & Hd). exact Hd.
      * split; [discriminate|].
        intros (_ & _ & _ & _ & n' & Hn & _). discriminate Hn.
    + split; [discriminate|]. intros (_ & _ & _ & Hleap & _).
      specialize (Hleap Hm). discriminate Hleap.
    + split; [discriminate|]. intros (_ & _ & _ & Hleap & _).
      specialize (Hleap Hm). discriminate Hleap.
  - cbn. destruct (HebrewCalendar_daysInMonth lib month year) as [n|x]; cbn.
    + rewrite Z.leb_le. split.
      * intros Hd. repeat split; try lia. eauto.
      * intros (_ & _ & _ & _ & n' & [= <-] & Hd). exact Hd.
    + split; [discriminate|].
      intros (_ & _ & _ & _ & n' & Hn & _). discriminate Hn.
Qed.

Lemma toHebrewNumeral_ok_range (n : Z) (s : jsstring) :
  toHebrewNumeral n = Ok s -> 1 <= n <= 999.
Proof.
  intros Hs. destruct (Z_lt_le_dec n 1) as [Hlo|Hlo].
  - rewrite toHebrewNumeral_throws in Hs by lia. discriminate.
  - destruct (Z_lt_le_dec 999 n) as [Hhi|Hhi]; [|lia].
    rewrite toHebrewNumeral_throws in Hs by lia. discriminate.
Qed.

Lemma gregorianToHebrew_try_inv (lib : Hebcal) (date : Date) (h : HebrewDate) :
  gregorianToHebrew_try lib date = Ok h ->
  exists hd info ds ys,
    HDate_ofDate lib date = Ok hd /\
    HEBREW_MONTHS (getMonth lib hd) = Some info /\
    toHebrewNumeral (getDate lib hd) = Ok ds /\
    formatHebrewYear (getFullYear lib hd) = Ok ys /\
    h = {| hebrewDateString := ds ++ [space] ++ mi_name info ++ [space] ++ ys;
           hebrewYear := getFullYear lib hd;
           hebrewMonth := mi_name info;
           hebrewMonthName := mi_name info;
           hebrewDay := getDate lib hd;
           gregorianDate := date |}.
Proof.
  unfold gregorianToHebrew_try.
  destruct (HDate_ofDate lib date) as [hd|]; [|discriminate]. cbn [rbind].
  destruct (HEBREW_MONTHS (getMonth lib hd)) as [info|] eqn:Hinfo;
    [|discriminate].
  destruct (toHebrewNumeral (getDate lib hd)) as [ds|] eqn:Hds;
    [|discriminate].
  cbn [rbind].
  destruct (formatHebrewYear (getFullYear lib hd)) as [ys|] eqn:Hys;
    [|discriminate].
  cbn [rbind]. intros [= <-]. exists hd, info, ds, ys.
  repeat split; assumption.
Qed.

Lemma hebrewToGregorian_try_inv (lib : Hebcal) (day month year : Z)
    (h : HebrewDate) (g : Date) :
  hebrewToGregorian_try lib day month year = Ok (h, g) ->
  exists hd info ds ys,
    HDate_ofHebrew lib day month year = Ok hd /\
    greg lib hd = Ok g /\
    HEBREW_MONTHS month = Some info /\
    toHebrewNumeral day = Ok ds /\
    formatHebrewYear year = Ok ys /\
    h = {| hebrewDateString := ds ++ [space] ++ mi_name info ++ [space] ++ ys;
           hebrewYear := year;
           hebrewMonth := mi_name info;
           hebrewMonthName := mi_name info;
           hebrewDay := day;
           gregorianDate := g |}.
Proof.
  unfold hebrewToGregorian_try.
  destruct (HDate_ofHebrew lib day month year) as [hd|]; [|discriminate].
  cbn [rbind]. destruct (greg lib hd) as [g'|] eqn:Hg; [|discriminate].
  cbn [rbind]. destruct (HEBREW_MONTHS month) as [info|]; [|discriminate].
  destruct (toHebrewNumeral day) as [ds|]; [|discriminate]. cbn [rbind].
  destruct (formatHebrewYear year) as [ys|]; [|discriminate].
  cbn [rbind]. intros [= <- <-]. exists hd, info, ds, ys.
  repeat split. exact Hg.
Qed.

(** X11.  The result of [hebrewToGregorian] is either a success holding
    both dates and no error, or a failure holding an error, an empty
    list of warnings and no date.  On success the Hebrew date echoes the
    day and year that were asked for, names the month that was asked
    for, and carries the Gregorian date of the result; day, month and
    year are within what the numerals and the month table can write. *)
Theorem hebrewToGregorian_result_shape (lib : Hebcal) (day month year : Z) :
  let r := hebrewToGregorian lib day month year in
  (success r = true /\ cr_error r = None /\
   exists h g, cr_hebrewDate r = Some h /\ cr_gregorianDate r = Some g /\
               gregorianDate h = g /\
               hebrewDay h = day /\ hebrewYear h = year /\
               hebrewMonth h = monthName month /\
               hebrewMonthName h = monthName month /\
               1 <= day <= 999 /\ 1 <= month <= 13 /\
               1 <= year /\ year mod 1000 <> 0)
  \/
  (success r = false /\ cr_hebrewDate r = None /\
   cr_gregorianDate r = None /\ cr_warnings r = Some [] /\
   exists e, cr_error r = Some e).
Proof.
  intros r. subst r. unfold hebrewToGregorian.
  destruct (hebrewToGregorian_try lib day month year) as [[h g]|x] eqn:Htry.
  - left. cbn. split; [reflexivity|]. split; [reflexivity|].
    destruct (hebrewToGregorian_try_inv _ _ _ _ _ _ Htry)
      as (hd & info & ds & ys & _ & _ & Hinfo & Hds & Hys & ->).
    exists {| hebrewDateString :=
                ds ++ [space] ++ mi_name info ++ [space] ++ ys;
              hebrewYear := year; hebrewMonth := mi_name info;
              hebrewMonthName := mi_name info; hebrewDay := day;
              gregorianDate := g |}, g.
    cbn. unfold monthName. rewrite Hinfo.
    pose proof (toHebrewNumeral_ok_range _ _ Hds) as Hday.
    unfold formatHebrewYear in Hys.
    pose proof (toHebrewNumeral_ok_range _ _ Hys) as Hyear.
    assert (Hm : 1 <= month <= 13).
    { unfold HEBREW_MONTHS in Hinfo.
      repeat match type of Hinfo with
             | (if ?a =? ?b then _ else _) = _ =>
                 destruct (Z.eqb_spec a b); [lia|]
             end.
      discriminate. }
    unfold js_rem in Hyear.
    assert (Hy : 1 <= year).
    { destruct (Z_lt_le_dec year 1) as [Hneg|]; [|assumption].
      pose proof (Z.rem_nonpos year 1000 ltac:(lia) ltac:(lia)). lia. }
    rewrite Z.rem_mod_nonneg in Hyear by lia.
    repeat split; try reflexivity; lia.
  - right. cbn. repeat split. eauto.
Qed.

(** X12.  An enhanced date returned by [getEnhancedHebrewDate] carries
    the Hebrew date of [gregorianToHebrew] for the same instant, the
    instant itself, a weekday index from 0 to 6 with its Hebrew name,
    [isShabbat] exactly on index 6, [isRoshChodesh] exactly on day 1 or
    30 of the month, and no parsha.  When the conversion fails it throws
    a wrapped message without an error code. *)
Theorem getEnhancedHebrewDate_fields (lib : Hebcal) (date : Date) :
  match getEnhancedHebrewDate lib date with
  | Ok e =>
      cr_hebrewDate (gregorianToHebrew lib date) = Some (base e) /\
      gregorianDate (base e) = date /\
      dayOfWeek e = getDay date /\ 0 <= dayOfWeek e <= 6 /\
      dayOfWeekHebrew e = HEBREW_DAYS (dayOfWeek e) /\
      dayOfWeekHebrew e <> undefined_str /\
      (isShabbat e = true <-> dayOfWeek e = 6) /\
      (isRoshChodesh e = true <->
       hebrewDay (base e) = 1 \/ hebrewDay (base e) = 30) /\
      parsha e = None /\ parshaHebrew e = None
  | Throw x =>
      success (gregorianToHebrew lib date) = false /\
      exn_code x = None /\
      exists m, cr_error (gregorianToHebrew lib date) = Some m /\
                exn_message x = FailedToConvertDate m
  end.
Proof.
  unfold getEnhancedHebrewDate, gregorianToHebrew.
  destruct (gregorianToHebrew_try lib date) as [h|x] eqn:Htry;
    cbn [success cr_hebrewDate cr_error].
  - destruct (gregorianToHebrew_try_inv _ _ _ Htry)
      as (hd & info & ds & ys & Hhd & _ & _ & _ & ->).
    rewrite Hhd. cbn [rbind].
    cbn [base gregorianDate dayOfWeek dayOfWeekHebrew isShabbat
         isRoshChodesh hebrewDay parsha parshaHebrew].
    assert (Hrange : 0 <= getDay date <= 6).
    { unfold getDay. pose proof (Z.mod_pos_bound (localDay date) 7). lia. }
    split; [reflexivity|]. split; [reflexivity|]. split; [reflexivity|].
    split; [exact Hrange|]. split; [reflexivity|]. split.
    + assert (H : forallb (fun k => negb (bool_decide
                                            (HEBREW_DAYS k = undefined_str)))
                    (seqZ 0 7) = true) by (vm_compute; reflexivity).
      pose proof (forallb_seqZ _ _ _ H (getDay date) ltac:(lia)) as Hk.
      cbv beta in Hk. apply negb_true_iff, bool_decide_eq_false in Hk.
      exact Hk.
    + split; [apply Z.eqb_eq|]. split; [|split; reflexivity].
      rewrite orb_true_iff, !Z.eqb_eq. reflexivity.
  - split; [reflexivity|]. split; [reflexivity|]. eauto.
Qed.

(** ** Parsing date strings *)

Lemma split_length (sep : Z) (s : jsstring) :
  List.length (split sep s) = S (countOf sep s).
Proof.
  unfold countOf. induction s as [|c s IH]; [reflexivity|].
  cbn [split List.filter]. rewrite (Z.eqb_sym sep c).
  destruct (c =? sep).
  - cbn [List.length]. rewrite IH. reflexivity.
  - destruct (split sep s) as [|part parts]; [discriminate IH|].
    cbn [List.length] in *. exact IH.
Qed.

(** X13.  [parseHebrewDateString] never succeeds and never throws.  When
    the trimmed text does not hold exactly two spaces it reports the
    invalid-format message without warnings; otherwise it reports that
    parsing is not implemented, with one warning. *)
Theorem parseHebrewDateString_never_succeeds (text : jsstring) :
  let r := parseHebrewDateString text in
  pr_success r = false /\
  (countOf space (trim text) <> 2%nat ->
   pr_error r = invalidFormatMessage /\ pr_warnings r = None) /\
  (countOf space (trim text) = 2%nat ->
   pr_error r = notImplementedMessage /\
   pr_warnings r
   = Some [js "Use numeric Hebrew date conversion methods instead"]) /\
  invalidFormatMessage <> notImplementedMessage.
Proof.
  intros r. subst r. unfold parseHebrewDateString.
  rewrite split_length.
  destruct (Z.eqb_spec (Z.of_nat (S (countOf space (trim text)))) 3)
    as [Heq|Hne]; cbn [negb pr_success pr_error pr_warnings].
  - split; [reflexivity|]. split; [intros Hc; lia|].
    split; [intros _; split; reflexivity|]. vm_compute. discriminate.
  - split; [reflexivity|]. split; [intros _; split; reflexivity|].
    split; [intros Hc; lia|]. vm_compute. discriminate.
Qed.

Lemma trimStart_solid_head (c : Z) (s : jsstring) :
  isTrimmed c = false -> trimStart (c :: s) = c :: s.
Proof. intros Hc. cbn [trimStart]. rewrite Hc. reflexivity. Qed.

Lemma trim_keeps (a b : Z) (s : jsstring) :
  isTrimmed a = false -> isTrimmed b = false ->
  trim (a :: s ++ [b]) = a :: s ++ [b].
Proof.
  intros Ha Hb. unfold trim. rewrite trimStart_solid_head by exact Ha.
  change (a :: s ++ [b]) with ((a :: s) ++ [b]).
  rewrite List.rev_app_distr. cbn [List.rev List.app].
  rewrite trimStart_solid_head by exact Hb.
  cbn [List.rev]. rewrite List.rev_app_distr, List.rev_involutive.
  reflexivity.
Qed.

Lemma countOf_app (c : Z) (s t : jsstring) :
  countOf c (s ++ t) = (countOf c s + countOf c t)%nat.
Proof. unfold countOf. rewrite List.filter_app, List.length_app. reflexivity. Qed.

Lemma solid_no_space (s : jsstring) : solid s = true -> countOf space s = 0%nat.
Proof.
  unfold solid, countOf. induction s as [|c s IH]; [reflexivity|].
  cbn [forallb List.filter]. intros H. apply andb_true_iff in H as [Hc Hs].
  destruct (Z.eqb_spec space c) as [<-|_]; [discriminate Hc|]. apply IH, Hs.
Qed.

Lemma toHebrewNumeral_solid (n : Z) (s : jsstring) :
  toHebrewNumeral n = Ok s -> solid s = true /\ s <> [].
Proof.
  intros Hs. pose proof (toHebrewNumeral_ok_range _ _ Hs) as Hn.
  assert (H : forallb (fun k => match toHebrewNumeral k with
                                | Ok (c :: t) => solid (c :: t)
                                | _ => false
                                end) (seqZ 1 999) = true)
    by (vm_compute; reflexivity).
  pose proof (forallb_seqZ _ _ _ H n ltac:(lia)) as Hk. cbv beta in Hk.
  rewrite Hs in Hk. destruct s; [discriminate|]. split; [exact Hk|discriminate].
Qed.

(** X14.  The display string of a date has three parts when split at
    spaces, the numeral of the day, the month name and the numeral of
    the year, except in Adar II, whose name itself holds a space.  So
    [parseHebrewDateString] answers "not implemented" to every string
    that [gregorianToHebrew] produces, but "invalid format" to the ones
    of Adar II. *)
Theorem parseHebrewDateString_of_formatted (lib : Hebcal) (date : Date)
    (h : HebrewDate) :
  gregorianToHebrew_try lib date = Ok h ->
  (hebrewMonth h <> monthName 13 ->
   List.length (split space (trim (hebrewDateString h))) = 3%nat /\
   pr_error (parseHebrewDateString (hebrewDateString h))
   = notImplementedMessage) /\
  (hebrewMonth h = monthName 13 ->
   List.length (split space (trim (hebrewDateString h))) = 4%nat /\
   pr_error (parseHebrewDateString (hebrewDateString h))
   = invalidFormatMessage).
Proof.
  intros Htry.
  destruct (gregorianToHebrew_try_inv _ _ _ Htry)
    as (hd & info & ds & ys & _ & Hinfo & Hds & Hys & ->).
  cbn [hebrewMonth hebrewDateString].
  unfold formatHebrewYear in Hys.
  destruct (toHebrewNumeral_solid _ _ Hds) as [Hsd Hnd].
  destruct (toHebrewNumeral_solid _ _ Hys) as [Hsy Hny].
  (* the string starts and ends with a character that trim keeps *)
  destruct ds as [|a ds']; [congruence|].
  destruct (@exists_last _ ys Hny) as (ys' & b & ->).
  assert (Ha : isTrimmed a = false).
  { cbn [solid forallb] in Hsd. apply andb_true_iff in Hsd as [Ha _].
    apply negb_true_iff in Ha. exact Ha. }
  assert (Hb : isTrimmed b = false).
  { unfold solid in Hsy. rewrite forallb_app in Hsy.
    apply andb_true_iff in Hsy as [_ Hb]. cbn [forallb] in Hb.
    apply andb_true_iff in Hb as [Hb _]. apply negb_true_iff in Hb.
    exact Hb. }
  assert (Hstr : (a :: ds') ++ [space] ++ mi_name info ++ [space] ++ ys' ++ [b]
                 = a :: (ds' ++ [space] ++ mi_name info ++ [space] ++ ys') ++ [b]).
  { cbn [List.app]. f_equal.
    repeat (rewrite <- ?List.app_assoc; cbn [List.app]). reflexivity. }
  set (str := (a :: ds') ++ [space] ++ mi_name info ++ [space] ++ ys' ++ [b])
    in *.
  assert (Htrim : trim str = str)
    by (rewrite Hstr; apply trim_keeps; assumption).
  assert (Hcount : countOf space str
                   = (2 + countOf space (mi_name info))%nat).
  { subst str. rewrite !countOf_app.
    pose proof (solid_no_space _ Hsd) as Hcd.
    pose proof (solid_no_space _ Hsy) as Hcy.
    rewrite countOf_app in Hcy.
    change (countOf space [space]) with 1%nat. lia. }
  unfold parseHebrewDateString. rewrite Htrim, !split_length, Hcount.
  (* the month names: one space in the thirteenth, none in the others *)
  assert (Hnames : forall k i, HEBREW_MONTHS k = Some i ->
            (mi_name i = monthName 13 /\ countOf space (mi_name i) = 1%nat) \/
            (mi_name i <> monthName 13 /\ countOf space (mi_name i) = 0%nat)).
  { intros k i Hk. unfold HEBREW_MONTHS in Hk.
    repeat match type of Hk with
           | (if ?x =? ?y then _ else _) = _ =>
               destruct (x =? y);
                 [injection Hk as <-;
                  first [left; split; vm_compute; reflexivity
                        |right; split; [vm_compute; discriminate
                                       |vm_compute; reflexivity]]|]
           end.
    discriminate. }
  destruct (Hnames _ _ Hinfo) as [[Hname Hone]|[Hname Hone]];
    rewrite Hone; cbn [countOf List.filter List.length Nat.add];
    (split; [intros Hx|intros Hx]); try contradiction;
    split; reflexivity.
Qed.

Lemma parseHebrewDateString_of_formatted_witness :
  exists h,
    gregorianToHebrew_try HebcalModel.hebcal
      (midnightOf (HebcalModel.hebrew2abs 5784 13 5)) = Ok h /\
    hebrewMonth h = monthName 13 /\
    pr_error (parseHebrewDateString (hebrewDateString h))
    = invalidFormatMessage.
Proof.
  destruct (gregorianToHebrew_try HebcalModel.hebcal
              (midnightOf (HebcalModel.hebrew2abs 5784 13 5)))
    as [h|x] eqn:Htry; [|vm_compute in Htry; discriminate Htry].
  exists h. split; [reflexivity|].
  assert (Hm : hebrewMonth h = monthName 13).
  { vm_compute in Htry. injection Htry as <-. reflexivity. }
  split; [exact Hm|].
  apply (parseHebrewDateString_of_formatted HebcalModel.hebcal _ h Htry).
  exact Hm.
Defined.

(** ** Construction and reconfiguration *)

(** X15.  A service can be constructed exactly when the default
    location has a latitude and a longitude other than 0 and a time zone
    that is not empty; it then starts with the given configuration and
    an empty cache.  A location on the equator or on the prime meridian
    is refused with [INVALID_LOCATION]. *)
Theorem newService_iff (config : HebrewCalendarConfig) :
  (newService config = inr {| svc_config := config; svc_cache := emptyCache |}
   <-> latitude (defaultLocation config) <> 0 /\
       longitude (defaultLocation config) <> 0 /\
       loc_timezone (defaultLocation config) <> []) /\
  (latitude (defaultLocation config) = 0 \/
   longitude (defaultLocation config) = 0 ->
   newService config
   = inl {| ce_message :=
              js "Location must have valid latitude and longitude";
            ce_code := INVALID_LOCATION |}) /\
  (forall s, newService config = inr s ->
             svc_config s = config /\ svc_cache s = emptyCache).
Proof.
  unfold newService, validateConfig, validateLocation.
  destruct (Z.eqb_spec (latitude (defaultLocation config)) 0) as [Hlat|Hlat];
    cbn [orb].
  - split; [split; [discriminate|tauto]|].
    split; [reflexivity|discriminate].
  - destruct (Z.eqb_spec (longitude (defaultLocation config)) 0)
      as [Hlon|Hlon].
    + split; [split; [discriminate|tauto]|].
      split; [reflexivity|discriminate].
    + destruct (loc_timezone (defaultLocation config)) as [|c tz].
      * split; [split; [discriminate|tauto]|].
        split; [tauto|discriminate].
      * split; [split; [intros _; repeat split; congruence|reflexivity]|].
        split; [tauto|]. intros s [= <-]. split; reflexivity.
Qed.

(** X16.  [updateConfig] replaces the configuration before it validates
    it: a rejected update leaves the rejected configuration in place and
    the cache as it was, even if the update asks to disable the cache.
    An accepted update empties the cache exactly when it says
    [cacheEnabled: false], and otherwise keeps every entry. *)
Theorem updateConfig_effect (newConfig : PartialConfig) (s : Service) :
  let merged := mergeConfig (svc_config s) newConfig in
  svc_config (snd (updateConfig newConfig s)) = merged /\
  fst (updateConfig newConfig s) = validateConfig merged /\
  (validateConfig merged <> None ->
   svc_cache (snd (updateConfig newConfig s)) = svc_cache s) /\
  (validateConfig merged = None ->
   new_cacheEnabled newConfig = Some false ->
   svc_cache (snd (updateConfig newConfig s)) = emptyCache) /\
  (validateConfig merged = None ->
   new_cacheEnabled newConfig <> Some false ->
   svc_cache (snd (updateConfig newConfig s)) = svc_cache s).
Proof.
  intros merged. subst merged. unfold updateConfig.
  destruct (validateConfig (mergeConfig (svc_config s) newConfig)) as [e|];
    cbn [fst snd svc_config svc_cache].
  - repeat split; try discriminate; reflexivity.
  - split; [reflexivity|]. split; [reflexivity|].
    split; [congruence|].
    destruct (new_cacheEnabled newConfig) as [[|]|];
      repeat split; try reflexivity; try discriminate; congruence.
Qed.

(** ** More on the cache *)

Lemma gregorianToHebrew_again (lib : Hebcal) (config : HebrewCalendarConfig)
    (date : Date) (c : Cache) :
  let out := HebrewCalendarService.gregorianToHebrew lib config date c in
  HebrewCalendarService.gregorianToHebrew lib config date (snd out) = out.
Proof.
  run_method. unfold gregorianToHebrew.
  destruct (cacheEnabled config) eqn:Hen.
  - destruct (c_greg_to_heb c !! date) as [hit|] eqn:Hhit.
    + cbn. rewrite Hhit. reflexivity.
    + destruct (gregorianToHebrew_try lib date) as [h|e] eqn:Htry; cbn.
      * rewrite lookup_insert_eq. reflexivity.
      * rewrite Hhit. reflexivity.
  - destruct (gregorianToHebrew_try lib date) as [h|e] eqn:Htry; cbn;
      rewrite ?Htry; reflexivity.
Qed.

Lemma hebrewToGregorian_again (lib : Hebcal) (config : HebrewCalendarConfig)
    (day month year : Z) (c : Cache) :
  let out :=
    HebrewCalendarService.hebrewToGregorian lib config day month year c in
  HebrewCalendarService.hebrewToGregorian lib config day month year (snd out)
  = out.
Proof.
  run_method. unfold hebrewToGregorian.
  destruct (cacheEnabled config) eqn:Hen.
  - destruct (c_heb_to_greg c !! (day, month, year)) as [hit|] eqn:Hhit.
    + cbn. rewrite Hhit. reflexivity.
    + destruct (hebrewToGregorian_try lib day month year) as [[h g]|e] eqn:Htry;
        cbn.
      * rewrite lookup_insert_eq. reflexivity.
      * rewrite Hhit. reflexivity.
  - destruct (hebrewToGregorian_try lib day month year) as [[h g]|e] eqn:Htry;
      cbn; rewrite ?Htry; reflexivity.
Qed.

Lemma getEnhancedDate_again (lib : Hebcal) (config : HebrewCalendarConfig)
    (date : Date) (c : Cache) :
  let out := HebrewCalendarService.getEnhancedDate lib config date c in
  HebrewCalendarService.getEnhancedDate lib config date (snd out) = out.
Proof.
  run_method.
  destruct (cacheEnabled config) eqn:Hen.
  - destruct (c_enhanced c !! date) as [hit|] eqn:Hhit.
    + cbn. rewrite Hhit. reflexivity.
    + destruct (getEnhancedHebrewDate lib date) as [e|x] eqn:Htry; cbn.
      * rewrite lookup_insert_eq. reflexivity.
      * rewrite Hhit. reflexivity.
  - destruct (getEnhancedHebrewDate lib date) as [e|x] eqn:Htry; cbn;
      reflexivity.
Qed.

Lemma getZmanim_again (lib : Hebcal) (config : HebrewCalendarConfig)
    (date : Date) (location : option Location) (c : Cache) :
  let out := HebrewCalendarService.getZmanim lib config date location c in
  HebrewCalendarService.getZmanim lib config date location (snd out) = out.
Proof.
  run_method. set (loc := locationOr config location).
  destruct (cacheEnabled config) eqn:Hen.
  - destruct (c_zmanim c !! zmanimKey date loc) as [hit|] eqn:Hhit.
    + cbn. rewrite Hhit. reflexivity.
    + destruct (getZmanim_try lib date loc) as [z|x] eqn:Htry; cbn.
      * rewrite lookup_insert_eq. reflexivity.
      * rewrite Hhit. reflexivity.
  - destruct (getZmanim_try lib date loc) as [z|x] eqn:Htry; cbn;
      reflexivity.
Qed.

(** [getZmanim] writes under its own prefix only, and [getEnhancedDate]
    does not read there. *)
Lemma getEnhancedDate_after_getZmanim (lib : Hebcal)
    (config : HebrewCalendarConfig) (date date' : Date)
    (location : option Location) (c : Cache) :
  fst (HebrewCalendarService.getEnhancedDate lib config date
         (snd (HebrewCalendarService.getZmanim lib config date' location c)))
  = fst (HebrewCalendarService.getEnhancedDate lib config date c) /\
  (snd (HebrewCalendarService.getEnhancedDate lib config date c) = c ->
   snd (HebrewCalendarService.getEnhancedDate lib config date
          (snd (HebrewCalendarService.getZmanim lib config date' location c)))
   = snd (HebrewCalendarService.getZmanim lib config date' location c)).
Proof.
  run_method. set (loc := locationOr config location).
  destruct (cacheEnabled config) eqn:Hen.
  - destruct (c_zmanim c !! zmanimKey date' loc) as [hit|] eqn:Hhit;
      [cbn; tauto|].
    destruct (getZmanim_try lib date' loc) as [z|x]; cbn; [|tauto].
    destruct (c_enhanced c !! date) as [ehit|] eqn:Hehit; cbn; [tauto|].
    destruct (getEnhancedHebrewDate lib date) as [e|x]; cbn; [|tauto].
    split; [reflexivity|].
    intros Heq. apply (f_equal c_enhanced) in Heq. cbn in Heq.
    apply (f_equal (fun m => m !! date)) in Heq.
    rewrite lookup_insert_eq, Hehit in Heq. discriminate.
  - destruct (getZmanim_try lib date' loc) as [z|x]; cbn;
      destruct (getEnhancedHebrewDate lib date) as [e|y]; cbn; tauto.
Qed.

Lemma getAuctionRestrictions_again (lib : Hebcal)
    (config : HebrewCalendarConfig) (date : Date)
    (location : option Location) (c : Cache) :
  let out :=
    HebrewCalendarService.getAuctionRestrictions lib config date location c in
  HebrewCalendarService.getAuctionRestrictions lib config date location
    (snd out) = out.
Proof.
  cbv zeta. unfold HebrewCalendarService.getAuctionRestrictions, bind, ret.
  pose proof (getEnhancedDate_again lib config date c) as He. cbv zeta in He.
  destruct (HebrewCalendarService.getEnhancedDate lib config date c)
    as [[e|x] c1] eqn:Hfirst; cbn [snd] in *.
  - pose proof (getZmanim_again lib config date location c1) as Hz.
    cbv zeta in Hz.
    pose proof (getEnhancedDate_after_getZmanim lib config date date
                  location c1) as [Hfst Hsnd].
    rewrite He in Hfst, Hsnd. cbn [fst snd] in Hfst, Hsnd.
    specialize (Hsnd eq_refl).
    destruct (HebrewCalendarService.getZmanim lib config date location c1)
      as [[z|x] c2] eqn:Hsecond; cbn [snd fst] in *.
    + assert (Hc2 : HebrewCalendarService.getEnhancedDate lib config date c2
                    = (Ok e, c2)).
      { rewrite (surjective_pairing
                   (HebrewCalendarService.getEnhancedDate lib config date c2)).
        rewrite Hfst, Hsnd. reflexivity. }
      rewrite Hc2, Hz. reflexivity.
    + assert (Hc2 : HebrewCalendarService.getEnhancedDate lib config date c2
                    = (Ok e, c2)).
      { rewrite (surjective_pairing
                   (HebrewCalendarService.getEnhancedDate lib config date c2)).
        rewrite Hfst, Hsnd. reflexivity. }
      rewrite Hc2, Hz. reflexivity.
  - rewrite He. reflexivity.
Qed.

(** X17.  Asking again gives the same answer: each of the six cached
    entry points, called a second time with the same arguments right
    after the first call, returns the same value or throws the same
    error and leaves the cache as the first call left it.  This holds
    for any cache and any configuration. *)
Theorem service_calls_repeat (lib : Hebcal) (config : HebrewCalendarConfig)
    (c : Cache) :
  (forall date,
     let out := HebrewCalendarService.gregorianToHebrew lib config date c in
     HebrewCalendarService.gregorianToHebrew lib config date (snd out) = out) /\
  (forall day month year,
     let out :=
       HebrewCalendarService.hebrewToGregorian lib config day month year c in
     HebrewCalendarService.hebrewToGregorian lib config day month year
       (snd out) = out) /\
  (forall date,
     let out := HebrewCalendarService.getEnhancedDate lib config date c in
     HebrewCalendarService.getEnhancedDate lib config date (snd out) = out) /\
  (forall date location,
     let out := HebrewCalendarService.getZmanim lib config date location c in
     HebrewCalendarService.getZmanim lib config date location (snd out) = out) /\
  (forall date location,
     let out :=
       HebrewCalendarService.getAuctionRestrictions lib config date location c
     in
     HebrewCalendarService.getAuctionRestrictions lib config date location
       (snd out) = out) /\
  (forall dateTime location,
     let out :=
       HebrewCalendarService.isAuctionPermitted lib config dateTime location c
     in
     HebrewCalendarService.isAuctionPermitted lib config dateTime location
       (snd out) = out).
Proof.
  split; [intros; apply gregorianToHebrew_again|].
  split; [intros; apply hebrewToGregorian_again|].
  split; [intros; apply getEnhancedDate_again|].
  split; [intros; apply getZmanim_again|].
  split; [intros; apply getAuctionRestrictions_again|].
  intros dateTime location. cbv zeta.
  unfold HebrewCalendarService.isAuctionPermitted, bind, ret.
  pose proof (getAuctionRestrictions_again lib config dateTime location c)
    as Hr. cbv zeta in Hr.
  destruct (HebrewCalendarService.getAuctionRestrictions lib config dateTime
              location c) as [[r|x] c1]; cbn [snd] in *;
    rewrite Hr; reflexivity.
Qed.

(** X18.  With [cacheEnabled] false no entry point writes to the cache,
    whether it returns or throws. *)
Theorem cache_disabled_untouched (lib : Hebcal)
    (config : HebrewCalendarConfig) (c : Cache) :
  cacheEnabled config = false ->
  (forall date,
     snd (HebrewCalendarService.gregorianToHebrew lib config date c) = c) /\
  (forall day month year,
     snd (HebrewCalendarService.hebrewToGregorian lib config day month year c)
     = c) /\
  (forall date,
     snd (HebrewCalendarService.getEnhancedDate lib config date c) = c) /\
  (forall date location,
     snd (HebrewCalendarService.getZmanim lib config date location c) = c) /\
  (forall date location,
     snd (HebrewCalendarService.getAuctionRestrictions lib config date
            location c) = c) /\
  (forall dateTime location,
     snd (HebrewCalendarService.isAuctionPermitted lib config dateTime
            location c) = c).
Proof.
  intros Hoff.
  assert (He : forall date c0,
             snd (HebrewCalendarService.getEnhancedDate lib config date c0)
             = c0).
  { intros date c0. run_method. rewrite Hoff.
    destruct (getEnhancedHebrewDate lib date); reflexivity. }
  assert (Hz : forall date location c0,
             snd (HebrewCalendarService.getZmanim lib config date location c0)
             = c0).
  { intros date location c0. run_method. rewrite Hoff.
    destruct (getZmanim_try lib date (locationOr config location));
      reflexivity. }
  assert (Hr : forall date location,
             snd (HebrewCalendarService.getAuctionRestrictions lib config
                    date location c) = c).
  { intros date location.
    unfold HebrewCalendarService.getAuctionRestrictions, bind, ret.
    specialize (He date c).
    destruct (HebrewCalendarService.getEnhancedDate lib config date c)
      as [[e|x] c1]; cbn [snd] in *; subst c1; [|reflexivity].
    specialize (Hz date location c).
    destruct (HebrewCalendarService.getZmanim lib config date location c)
      as [[z|x] c2]; cbn [snd] in *; subst c2; reflexivity. }
  split.
  { intros date. run_method. rewrite Hoff. unfold gregorianToHebrew.
    destruct (gregorianToHebrew_try lib date); reflexivity. }
  split.
  { intros day month year. run_method. rewrite Hoff. unfold hebrewToGregorian.
    destruct (hebrewToGregorian_try lib day month year) as [[h g]|x];
      reflexivity. }
  split; [intros; apply He|]. split; [intros; apply Hz|].
  split; [exact Hr|].
  intros dateTime location.
  unfold HebrewCalendarService.isAuctionPermitted, bind, ret.
  specialize (Hr dateTime location).
  destruct (HebrewCalendarService.getAuctionRestrictions lib config dateTime
              location c) as [[r|x] c1]; cbn [snd] in *; subst c1;
    reflexivity.
Qed.

Lemma cache_disabled_untouched_witness :
  let config := withCache false (createDefaultConfig JERUSALEM) in
  let date := midnightOf 738779 + 10 * 3600000 in
  is_ok (fst (HebrewCalendarService.isAuctionPermitted HebcalModel.hebcal
                config date None emptyCache)) = true /\
  snd (HebrewCalendarService.isAuctionPermitted HebcalModel.hebcal config
         date None emptyCache) = emptyCache.
Proof.
  intros config date. split; [vm_compute; reflexivity|].
  apply (cache_disabled_untouched HebcalModel.hebcal config emptyCache).
  reflexivity.
Defined.

(** X19.  A call that throws stores nothing: when one of the four
    memoised methods throws, the cache is the one it was called with.
    [getAuctionRestrictions] that throws has stored at most the enhanced
    date: the cache is the one its call to [getEnhancedDate] left. *)
Theorem failed_call_keeps_cache (lib : Hebcal)
    (config : HebrewCalendarConfig) (c : Cache) :
  (forall date x,
     fst (HebrewCalendarService.gregorianToHebrew lib config date c) = Throw x ->
     snd (HebrewCalendarService.gregorianToHebrew lib config date c) = c) /\
  (forall day month year x,
     fst (HebrewCalendarService.hebrewToGregorian lib config day month year c)
     = Throw x ->
     snd (HebrewCalendarService.hebrewToGregorian lib config day month year c)
     = c) /\
  (forall date x,
     fst (HebrewCalendarService.getEnhancedDate lib config date c) = Throw x ->
     snd (HebrewCalendarService.getEnhancedDate lib config date c) = c) /\
  (forall date location x,
     fst (HebrewCalendarService.getZmanim lib config date location c)
     = Throw x ->
     snd (HebrewCalendarService.getZmanim lib config date location c) = c) /\
  (forall date location x,
     fst (HebrewCalendarService.getAuctionRestrictions lib config date
            location c) = Throw x ->
     snd (HebrewCalendarService.getAuctionRestrictions lib config date
            location c)
     = snd (HebrewCalendarService.getEnhancedDate lib config date c)).
Proof.
  assert (Hz : forall date location x c0,
             fst (HebrewCalendarService.getZmanim lib config date location c0)
             = Throw x ->
             snd (HebrewCalendarService.getZmanim lib config date location c0)
             = c0).
  { intros date location x c0. run_method.
    destruct (cacheEnabled config);
      [destruct (c_zmanim c0 !! _); [reflexivity|]|];
      destruct (getZmanim_try lib date (locationOr config location));
      cbn; try discriminate; reflexivity. }
  split.
  { intros date x. run_method. unfold gregorianToHebrew.
    destruct (cacheEnabled config);
      [destruct (c_greg_to_heb c !! date); [reflexivity|]|];
      destruct (gregorianToHebrew_try lib date);
      cbn; try discriminate; reflexivity. }
  split.
  { intros day month year x. run_method. unfold hebrewToGregorian.
    destruct (cacheEnabled config);
      [destruct (c_heb_to_greg c !! (day, month, year)); [reflexivity|]|];
      destruct (hebrewToGregorian_try lib day month year) as [[h g]|y];
      cbn; try discriminate; reflexivity. }
  split.
  { intros date x. run_method.
    destruct (cacheEnabled config);
      [destruct (c_enhanced c !! date); [reflexivity|]|];
      destruct (getEnhancedHebrewDate lib date);
      cbn; try discriminate; reflexivity. }
  split; [intros; eapply Hz; eassumption|].
  intros date location x.
  unfold HebrewCalendarService.getAuctionRestrictions, bind, ret.
  destruct (HebrewCalendarService.getEnhancedDate lib config date c)
    as [[e|y] c1]; cbn [snd]; [|reflexivity].
  specialize (Hz date location x c1).
  destruct (HebrewCalendarService.getZmanim lib config date location c1)
    as [[z|y] c2]; cbn [fst snd] in *; [discriminate|].
  intros [= ->]. apply Hz. reflexivity.
Qed.

(** X20.  On every cache the service can reach, and whatever
    [cacheEnabled] says, the two conversion methods of the service
    return what the conversion utilities report: the Hebrew date or the
    Gregorian date of a successful result, and otherwise a
    [HebrewCalendarError] with the utility's error text and the code
    [CALCULATION_ERROR]. *)
Theorem service_conversions_agree (lib : Hebcal)
    (config : HebrewCalendarConfig) (c : Cache) :
  reachable lib c ->
  (forall date,
     let result := gregorianToHebrew lib date in
     match fst (HebrewCalendarService.gregorianToHebrew lib config date c) with
     | Ok h => success result = true /\ cr_hebrewDate result = Some h
     | Throw x =>
         success result = false /\
         exn_code x = Some CALCULATION_ERROR /\
         cr_error result = Some (exn_message x)
     end) /\
  (forall day month year,
     let result := hebrewToGregorian lib day month year in
     match fst (HebrewCalendarService.hebrewToGregorian lib config
                  day month year c) with
     | Ok g => success result = true /\ cr_gregorianDate result = Some g
     | Throw x =>
         success result = false /\
         exn_code x = Some CALCULATION_ERROR /\
         cr_error result = Some (exn_message x)
     end).
Proof.
  intros Hreach. apply reachable_sound in Hreach. split.
  - intros date. cbv zeta.
    destruct (gregorianToHebrew_sound lib config date c Hreach) as [_ ->].
    unfold gregorianToHebrew.
    destruct (gregorianToHebrew_try lib date) as [h|x]; cbn;
      repeat split; reflexivity.
  - intros day month year. cbv zeta.
    destruct (hebrewToGregorian_sound lib config day month year c Hreach)
      as [_ ->].
    unfold hebrewToGregorian.
    destruct (hebrewToGregorian_try lib day month year) as [[h g]|x]; cbn;
      repeat split; reflexivity.
Qed.

Lemma service_conversions_agree_witness :
  let config := createDefaultConfig JERUSALEM in
  let date := midnightOf 738779 + 10 * 3600000 in
  let cache :=
    cacheAfter HebcalModel.hebcal config (CallGregorianToHebrew date)
      emptyCache in
  exists h,
    fst (HebrewCalendarService.gregorianToHebrew HebcalModel.hebcal config
           date cache) = Ok h /\
    cr_hebrewDate (gregorianToHebrew HebcalModel.hebcal date) = Some h /\
    hebrewYear h = 5784 /\ hebrewDay h = 1.
Proof.
  intros config date cache.
  destruct (service_conversions_agree HebcalModel.hebcal config cache
              (reachable_step _ _ _ _ (reachable_new _))) as [Hg _].
  specialize (Hg date). cbv zeta in Hg.
  destruct (fst (HebrewCalendarService.gregorianToHebrew HebcalModel.hebcal
                   config date cache)) as [h|x] eqn:Hcall.
  - exists h. split; [reflexivity|]. split; [exact (proj2 Hg)|].
    vm_compute in Hcall. injection Hcall as <-. split; reflexivity.
  - vm_compute in Hcall. discriminate Hcall.
Defined.

(** X21.  As the service stands, the weekday alone decides
    [isAuctionPermitted]: on every reachable cache an answer that is
    returned forbids the auction exactly when the instant falls on a
    Saturday (weekday index 6), with the Shabbat wording, and permits it
    at every other instant, Rosh Chodesh mornings included, since the
    window of Rosh Chodesh is given by names and not by clock times.
    An answer is returned whenever the date converts and the zmanim of
    the instant can be computed. *)
Theorem isAuctionPermitted_by_weekday (lib : Hebcal)
    (config : HebrewCalendarConfig) (dateTime : Date)
    (location : option Location) (c : Cache) :
  reachable lib c ->
  (forall p,
     fst (HebrewCalendarService.isAuctionPermitted lib config dateTime
            location c) = Ok p ->
     permitted p = negb (getDay dateTime =? 6) /\
     reason p = if getDay dateTime =? 6
                then js "No auctions permitted on Shabbat"
                else js "Auctions permitted") /\
  (success (gregorianToHebrew lib dateTime) = true ->
   is_ok (getZmanim_try lib dateTime (locationOr config location)) = true ->
   exists p,
     fst (HebrewCalendarService.isAuctionPermitted lib config dateTime
            location c) = Ok p).
Proof.
  intros Hreach. apply reachable_sound in Hreach.
  destruct (getEnhancedDate_sound lib config dateTime c Hreach)
    as [Hsound1 Hfst].
  split.
  - intros p.
    unfold HebrewCalendarService.isAuctionPermitted, bind, ret.
    destruct (HebrewCalendarService.getAuctionRestrictions lib config
                dateTime location c) as [[r|x] c1] eqn:Hr;
      cbn [fst]; [|discriminate].
    intros [= <-].
    destruct (getAuctionRestrictions_inv _ _ _ _ _ _ _ Hr)
      as (e & z & c0 & He & _ & ->).
    rewrite He in Hfst. cbn [fst] in Hfst. symmetry in Hfst.
    destruct (getEnhancedHebrewDate_flags _ _ _ Hfst) as (Hyt & Hfd & _).
    rewrite (restrictionsOf_without_holidays e z Hyt Hfd).
    rewrite (getEnhancedHebrewDate_isShabbat _ _ _ Hfst).
    destruct (getDay dateTime =? 6); [split; reflexivity|].
    destruct (isRoshChodesh e);
      rewrite ?roshChodesh_window_never_applies; split; reflexivity.
  - intros Hconv Hzok.
    destruct (proj2 (getEnhancedHebrewDate_returns lib dateTime) Hconv)
      as [e He].
    unfold HebrewCalendarService.isAuctionPermitted,
      HebrewCalendarService.getAuctionRestrictions, bind, ret.
    destruct (HebrewCalendarService.getEnhancedDate lib config dateTime c)
      as [r1 c1]. cbn [fst] in Hfst. subst r1. rewrite He.
    assert (Hz : exists z,
               fst (HebrewCalendarService.getZmanim lib config dateTime
                      location c1) = Ok z).
    { run_method.
      destruct (getZmanim_try lib dateTime (locationOr config location))
        as [z|x]; [|discriminate Hzok].
      destruct (cacheEnabled config);
        [destruct (c_zmanim c1 !! _) as [hit|]|]; cbn; eauto. }
    destruct Hz as [z Hz].
    destruct (HebrewCalendarService.getZmanim lib config dateTime location c1)
      as [r2 c2]. cbn [fst] in Hz. subst r2. cbn [fst]. eauto.
Qed.

Lemma isAuctionPermitted_by_weekday_witness :
  let config := createDefaultConfig JERUSALEM in
  let saturday := midnightOf 738779 + 10 * 3600000 in
  let sunday := midnightOf 738780 + 10 * 3600000 in
  exists p q,
    fst (HebrewCalendarService.isAuctionPermitted HebcalModel.hebcal config
           saturday None emptyCache) = Ok p /\
    fst (HebrewCalendarService.isAuctionPermitted HebcalModel.hebcal config
           sunday None emptyCache) = Ok q /\
    permitted p = false /\ permitted q = true.
Proof.
  intros config saturday sunday.
  destruct (isAuctionPermitted_by_weekday HebcalModel.hebcal config saturday
              None emptyCache (reachable_new _)) as [Hp Hpret].
  destruct (isAuctionPermitted_by_weekday HebcalModel.hebcal config sunday
              None emptyCache (reachable_new _)) as [Hq Hqret].
  destruct (Hpret ltac:(vm_compute; reflexivity)
              ltac:(vm_compute; reflexivity)) as [p Hpcall].
  destruct (Hqret ltac:(vm_compute; reflexivity)
              ltac:(vm_compute; reflexivity)) as [q Hqcall].
  exists p, q. split; [exact Hpcall|]. split; [exact Hqcall|].
  split.
  - rewrite (proj1 (Hp p Hpcall)). vm_compute. reflexivity.
  - rewrite (proj1 (Hq q Hqcall)). vm_compute. reflexivity.
Defined.

(** ** The verdicts *)

(** X22.  On a fast day only the time of day is compared: the auction is
    refused exactly when the clock time of the instant lies between the
    clock time of dawn and the clock time of nightfall, ends included.
    When nightfall reads earlier on the clock than dawn, no instant is
    refused. *)
Theorem fast_day_window (z : Zmanim) (dateTime : Date) :
  let p := permissionFor (fastDayRestriction z) dateTime in
  (permitted p = false
   <-> minutesOfDay (alotHaShachar z) <= minutesOfDay dateTime
       /\ minutesOfDay dateTime <= minutesOfDay (tzait z)) /\
  (permitted p = false -> reason p = js "Sensitive timing during fast day") /\
  (minutesOfDay (tzait z) < minutesOfDay (alotHaShachar z) ->
   permitted p = true /\ reason p = js "Auctions permitted").
Proof.
  cbv zeta. unfold permissionFor, fastDayRestriction.
  cbn [noAuctions restrictedHours firstRestriction startTime endTime].
  unfold isTimeBetween, js_ge. rewrite !timeHHMM_clock.
  rewrite !clockText_includes_colon. cbn [andb].
  pose proof (getHours_range dateTime) as Hh.
  pose proof (getMinutes_range dateTime) as Hm.
  pose proof (getHours_range (alotHaShachar z)) as Hah.
  pose proof (getMinutes_range (alotHaShachar z)) as Ham.
  pose proof (getHours_range (tzait z)) as Hth.
  pose proof (getMinutes_range (tzait z)) as Htm.
  pose proof (js_le_clockText _ _ _ _ Hah Ham Hh Hm) as Hlo.
  pose proof (js_le_clockText _ _ _ _ Hh Hm Hth Htm) as Hhi.
  unfold minutesOfDay.
  destruct (js_le (clockText (getHours (alotHaShachar z))
                     (getMinutes (alotHaShachar z)))
              (clockText (getHours dateTime) (getMinutes dateTime)));
    destruct (js_le (clockText (getHours dateTime) (getMinutes dateTime))
                (clockText (getHours (tzait z)) (getMinutes (tzait z))));
    cbn [andb permitted reason description].
  - split; [split; [intros _; split; [apply Hlo|apply Hhi]; reflexivity
                   |reflexivity]|].
    split; [reflexivity|].
    intros Hlt. pose proof (proj1 Hlo eq_refl). pose proof (proj1 Hhi eq_refl).
    lia.
  - split; [split; [discriminate|]|split; [discriminate|]].
    + intros [_ H]. apply Hhi in H. discriminate H.
    + split; reflexivity.
  - split; [split; [discriminate|]|split; [discriminate|]].
    + intros [H _]. apply Hlo in H. discriminate H.
    + split; reflexivity.
  - split; [split; [discriminate|]|split; [discriminate|]].
    + intros [H _]. apply Hlo in H. discriminate H.
    + split; reflexivity.
Qed.

(** X23.  Whatever the flags of the enhanced date are, the verdict of
    [getAuctionRestrictions] is never [emergencyOnly], allows an
    override exactly when auctions are not blocked, has no restricted
    window when auctions are blocked and at most one otherwise, and
    blocks auctions exactly on a Shabbat or Yom Tov that is not flagged
    as a fast day.  The flag [isCholedMoed] plays no part. *)
Theorem restrictionsOf_invariants (e : EnhancedHebrewDate) (z : Zmanim) :
  let r := restrictionsOf e z in
  emergencyOnly r = false /\
  overrideAllowed r = negb (noAuctions r) /\
  (noAuctions r = true -> restrictedHours r = []) /\
  (List.length (restrictedHours r) <= 1)%nat /\
  (noAuctions r = true
   <-> (isShabbat e = true \/ isYomTov e = true) /\ isFastDay e = false) /\
  (forall e',
     isShabbat e' = isShabbat e -> isYomTov e' = isYomTov e ->
     isRoshChodesh e' = isRoshChodesh e -> isFastDay e' = isFastDay e ->
     restrictionsOf e' z = r).
Proof.
  cbv zeta. unfold restrictionsOf.
  split; [|split; [|split; [|split; [|split]]]].
  6: { intros e' -> -> -> ->. reflexivity. }
  all: destruct (isShabbat e), (isYomTov e), (isRoshChodesh e), (isFastDay e);
    cbn; try reflexivity; try lia; try discriminate; try tauto.
  all: split; try discriminate; try tauto; intros [[H|H] H']; discriminate.
Qed.
